(** * Holoportation: capture pipeline, calibration, marker code, sync and wire codec

    A shallow embedding of the parts of LiveScan3D (C++ client, C# server)
    and of the HoloLens receiver that the properties below are about.

    Conventions of the embedding.
    - A [float] is the rational number it denotes ([Q]).  A literal takes the
      value of its binary32 constant ([0.3f] is [5033165 / 2^24]); the
      operations are exact, the rounding after each operation is not
      modelled.  Results are compared with [Qeq] where they are numbers.
    - [static_cast<int>] and the C# casts to [short] and [byte] truncate
      toward zero ([Qtrunc]); the 16-bit wrap of [short] is written out.
    - [std::vector<T>] is a [list]; an index that the source never leaves
      unguarded is read with a default.
    - The double computation of the scale uses [Math.Log]; it is stated over
      the real numbers. *)

From Stdlib Require Import ZArith QArith Qround Qabs List Bool Lia Lqa.
From Stdlib Require Import String Ascii DecimalString.
From Stdlib Require Import Reals Lra.
Import ListNotations.

Set Implicit Arguments.
Open Scope Q_scope.

(* ===================================================================== *)
(** * Numbers *)
(* ===================================================================== *)

Module Num.

(** [static_cast<int>(q)], [(short)q], [(byte)q]: the fractional part is
    discarded. *)
Definition Qtrunc (q : Q) : Z := Z.quot (Qnum q) (Zpos (Qden q)).

(** The value a 16-bit two's complement [short] holds after a cast. *)
Definition to_int16 (z : Z) : Z := ((z + 32768) mod 65536 - 32768)%Z.

Definition Qmin (a b : Q) : Q := if Qle_bool a b then a else b.
Definition Qmax (a b : Q) : Q := if Qle_bool a b then b else a.

(** [a < b] on floats, as a boolean. *)
Definition Qltb (a b : Q) : bool := negb (Qle_bool b a).
Definition Qleb (a b : Q) : bool := Qle_bool a b.

End Num.
Import Num.

(* ===================================================================== *)
(** * utils.h, utils.cpp *)
(* ===================================================================== *)

Record Point3f := mkPoint3f {
  X : Q; Y : Q; Z_ : Q;
  Invalid : bool
}.

(** [Point3f()] *)
Definition Point3f_default : Point3f := mkPoint3f 0 0 0 false.

Record Point3s := mkPoint3s { Xs : Z; Ys : Z; Zs : Z }.

Record RGB := mkRGB { Blue : Z; Green : Z; Red : Z }.

Definition RGB_default : RGB := mkRGB 0 0 0.

(** [Point3s(Point3f&)]: metres to millimetres. *)
Definition Point3s_of_Point3f (p : Point3f) : Point3s :=
  mkPoint3s (to_int16 (Qtrunc (1000 * X p)))
            (to_int16 (Qtrunc (1000 * Y p)))
            (to_int16 (Qtrunc (1000 * Z_ p))).

(** [R[i][j]] of a [vector<vector<float>>]. *)
Definition at2 (R : list (list Q)) (i j : nat) : Q := nth j (nth i R []) 0.

(** [RotatePoint(Point3f&, R)]; the result is a fresh [Point3f]. *)
Definition RotatePoint (point : Point3f) (R : list (list Q)) : Point3f :=
  mkPoint3f
    (X point * at2 R 0 0 + Y point * at2 R 0 1 + Z_ point * at2 R 0 2)
    (X point * at2 R 1 0 + Y point * at2 R 1 1 + Z_ point * at2 R 1 2)
    (X point * at2 R 2 0 + Y point * at2 R 2 1 + Z_ point * at2 R 2 2)
    false.

(** [InverseRotatePoint(vector<float>&, R)] of calibration.cpp. *)
Definition InverseRotatePoint (point : list Q) (R : list (list Q)) : list Q :=
  let p i := nth i point 0 in
  [ p 0%nat * at2 R 0 0 + p 1%nat * at2 R 1 0 + p 2%nat * at2 R 2 0;
    p 0%nat * at2 R 0 1 + p 1%nat * at2 R 1 1 + p 2%nat * at2 R 2 1;
    p 0%nat * at2 R 0 2 + p 1%nat * at2 R 1 2 + p 2%nat * at2 R 2 2 ].

(* ===================================================================== *)
(** * Constants of liveScanClient.h and PointCloudTransferSocket.cs *)
(* ===================================================================== *)

(** [0.3f] *)
Definition Range : Q := 5033165 # 16777216.
Definition HalfRange : Q := Range / 2.
Definition MinPrecision : Q := Range / 255.
Definition XRangeCenter : Q := 0.
Definition YRangeCenter : Q := 0.
Definition ZRangeCenter : Q := HalfRange.

(* ===================================================================== *)
(** * voxelGridFilter.cpp *)
(* ===================================================================== *)

Module VoxelGridFilter.

(** [voxelGrid] is a [std::vector<bool>] of [gridSizeX*gridSizeY*gridSizeZ]
    bits; it is read and written by index only, after the bounds check. *)
Record t := mk {
  gridSizeX : Z; gridSizeY : Z; gridSizeZ : Z;
  invVoxelSize : Q;
  minX : Q; minY : Q; minZ : Q;
  voxelGrid : Z -> bool
}.

(** The constructor; [None] is the [std::invalid_argument] it throws. *)
Definition create (voxelSize centerX centerY centerZ halfRange : Q) : option t :=
  if Qle_bool voxelSize 0 then None
  else
    let inv := 1 / voxelSize in
    Some (mk (Qceiling ((halfRange * 2) * inv))
             (Qceiling ((halfRange * 2) * inv))
             (Qceiling ((halfRange * 2) * inv))
             inv
             (centerX - halfRange) (centerY - halfRange) (centerZ - halfRange)
             (fun _ => false)).

Definition Reset (f : t) : t :=
  mk (gridSizeX f) (gridSizeY f) (gridSizeZ f) (invVoxelSize f)
     (minX f) (minY f) (minZ f) (fun _ => false).

Definition VoxelIndex (f : t) (x y z : Z) : Z :=
  (z * gridSizeY f * gridSizeX f + y * gridSizeX f + x)%Z.

(** The three indices [ix], [iy], [iz] that [Insert] computes. *)
Definition Cell (f : t) (x y z : Q) : Z * Z * Z :=
  (Qtrunc ((x - minX f) * invVoxelSize f),
   Qtrunc ((y - minY f) * invVoxelSize f),
   Qtrunc ((z - minZ f) * invVoxelSize f)).

(** The bounds check of [Insert], negated. *)
Definition InGrid (f : t) (c : Z * Z * Z) : bool :=
  let '(ix, iy, iz) := c in
  negb ((ix <? 0) || (iy <? 0) || (iz <? 0)
        || (ix >=? gridSizeX f) || (iy >=? gridSizeY f) || (iz >=? gridSizeZ f))%Z.

Definition set_bit (g : Z -> bool) (idx : Z) : Z -> bool :=
  fun j => if (j =? idx)%Z then true else g j.

(** [Insert]: the returned flag and the filter after the call. *)
Definition Insert (f : t) (x y z : Q) : bool * t :=
  let '(ix, iy, iz) := Cell f x y z in
  if negb (InGrid f (ix, iy, iz)) then (false, f)
  else
    let idx := VoxelIndex f ix iy iz in
    if voxelGrid f idx then (false, f)
    else (true, mk (gridSizeX f) (gridSizeY f) (gridSizeZ f) (invVoxelSize f)
                   (minX f) (minY f) (minZ f) (set_bit (voxelGrid f) idx)).

(** A point lies in the cube the grid covers: from [min] on each axis, over
    [gridSize] cells of side [1 / invVoxelSize]. *)
Definition InsideCube (f : t) (x y z : Q) : Prop :=
  minX f <= x /\ x < minX f + inject_Z (gridSizeX f) / invVoxelSize f /\
  minY f <= y /\ y < minY f + inject_Z (gridSizeY f) / invVoxelSize f /\
  minZ f <= z /\ z < minZ f + inject_Z (gridSizeZ f) / invVoxelSize f.

End VoxelGridFilter.

(** The filter a [LiveScanClient] owns:
    [voxelGridFilter(MinPrecision, XRangeCenter, YRangeCenter, ZRangeCenter, HalfRange)]. *)
Definition clientVoxelGridFilter : option VoxelGridFilter.t :=
  VoxelGridFilter.create MinPrecision XRangeCenter YRangeCenter ZRangeCenter HalfRange.


(* ===================================================================== *)
(** * calibration.h: the calibration state *)
(* ===================================================================== *)

Record Point2f := mkPoint2f { X2 : Q; Y2 : Q }.

(** [MarkerInfo] of IMarkerDetector.h, as calibration.cpp uses it. *)
Record MarkerInfo := mkMarkerInfo {
  Id : Z;
  Corners : list Point2f;
  Points : list Point3f
}.

Record MarkerPose := mkMarkerPose {
  MarkerId : Z;
  poseR : list (list Q);
  poseT : list Q
}.

Record Calibration := mkCalibration {
  worldT : list Q;
  worldR : list (list Q);
  usedMarkerId : Z;
  markerPoses : list MarkerPose;
  isCalibrated : bool;
  numSamples : Z;
  markerSamplePositions : list (list Point3f)
}.

Definition identity3 : list (list Q) := [[1; 0; 0]; [0; 1; 0]; [0; 0; 1]].

(** [Calibration::Calibration()] *)
Definition Calibration_new : Calibration :=
  mkCalibration [0; 0; 0] identity3 (-1) [] false 0 [].

(* ===================================================================== *)
(** * liveScanClient.cpp: ProcessFrame *)
(* ===================================================================== *)

Module Client.

Record LiveScanClient := mkClient {
  calibration : Calibration;
  bounds : list Q;
  isFilterEnabled : bool;
  numFilterNeighbors : Z;
  filterThreshold : Q;
  voxelGridFilter : VoxelGridFilter.t
}.

(** [Point3f(0, 0, 0, true)], the placeholder of a removed point. *)
Definition invalidPoint : Point3f := mkPoint3f 0 0 0 true.

Definition bound (b : list Q) (i : nat) : Q := nth i b 0.

(** The test that removes a point outside the bounds of the settings. *)
Definition OutsideBounds (b : list Q) (p : Point3f) : bool :=
  Qltb (X p) (bound b 0) || Qltb (bound b 3) (X p)
  || Qltb (Y p) (bound b 1) || Qltb (bound b 4) (Y p)
  || Qltb (Z_ p) (bound b 2) || Qltb (bound b 5) (Z_ p).

(** [temp.X += worldT[0]; ...; temp = RotatePoint(temp, worldR)] *)
Definition ApplyCalibration (cal : Calibration) (temp : Point3f) : Point3f :=
  let temp1 := mkPoint3f (X temp + nth 0 (worldT cal) 0)
                         (Y temp + nth 1 (worldT cal) 0)
                         (Z_ temp + nth 2 (worldT cal) 0)
                         (Invalid temp) in
  RotatePoint temp1 (worldR cal).

(** The first loop of [ProcessFrame]: [allVertices], [goodVerticesCount]
    and the voxel grid after the loop. *)
Fixpoint CalibrateAndClip (cal : Calibration) (b : list Q)
    (f : VoxelGridFilter.t) (vertices : list Point3f)
  : list Point3f * Z * VoxelGridFilter.t :=
  match vertices with
  | [] => ([], 0%Z, f)
  | v :: rest =>
    if isCalibrated cal then
      let temp := ApplyCalibration cal v in
      if OutsideBounds b temp then
        let '(l, n, f') := CalibrateAndClip cal b f rest in
        (invalidPoint :: l, n, f')
      else
        let '(inserted, f1) := VoxelGridFilter.Insert f (X temp) (Y temp) (Z_ temp) in
        let '(l, n, f') := CalibrateAndClip cal b f1 rest in
        if negb inserted then (invalidPoint :: l, n, f')
        else (temp :: l, (n + 1)%Z, f')
    else
      let '(l, n, f') := CalibrateAndClip cal b f rest in
      (v :: l, (n + 1)%Z, f')
  end.

(** [0.006f] *)
Definition voxelSize : Q := 6442451 # 1073741824.
Definition minPointsPerVoxel : Z := 12.

Definition HashVoxel (x y z : Z) : Z :=
  Z.lor (Z.lor (Z.shiftl (Z.land x 0x1FFFFF) 42)
               (Z.shiftl (Z.land y 0x1FFFFF) 21))
        (Z.land z 0x1FFFFF).

(** The key of a vertex in [vertexVoxelKeys]. *)
Definition VoxelKey (pt : Point3f) : Z :=
  if negb (Invalid pt) then
    HashVoxel (Qfloor (X pt / voxelSize)) (Qfloor (Y pt / voxelSize))
              (Qfloor (Z_ pt / voxelSize))
  else 0%Z.

(** [voxelCounts[key]++] on a [std::map<uint64_t, int>]; an absent key
    counts 0. *)
Definition increment (m : Z -> Z) (key : Z) : Z -> Z :=
  fun k => if (k =? key)%Z then (m k + 1)%Z else m k.

Definition CountVoxels (allVertices : list Point3f) : Z -> Z :=
  fold_left (fun m pt => if negb (Invalid pt) then increment m (VoxelKey pt) else m)
            allVertices (fun _ => 0%Z).

(** The loop that marks isolated points as invalid. *)
Definition DensityFilter (allVertices : list Point3f) : list Point3f :=
  let voxelCounts := CountVoxels allVertices in
  map (fun pt =>
         if negb (Invalid pt) then
           if (voxelCounts (VoxelKey pt) <? minPointsPerVoxel)%Z then invalidPoint else pt
         else pt)
      allVertices.

(** The copy loop: the valid vertices, each with the colour of its index. *)
Fixpoint CopyValid (allVertices : list Point3f) (colors : list RGB)
  : list (Point3f * RGB) :=
  match allVertices with
  | [] => []
  | pt :: rest =>
    let c := hd RGB_default colors in
    if negb (Invalid pt) then (pt, c) :: CopyValid rest (tl colors)
    else CopyValid rest (tl colors)
  end.

(** The vertices of a vector that are not marked invalid. *)
Definition valid (l : list Point3f) : list Point3f :=
  filter (fun p => negb (Invalid p)) l.

(** The vertices the three loops keep, in the order they are copied. *)
Definition SurvivingVertices (c : LiveScanClient) (vertices : list Point3f) (colors : list RGB)
  : list (Point3f * RGB) :=
  let '(allVertices, _, _) :=
    CalibrateAndClip (calibration c) (bounds c)
                     (VoxelGridFilter.Reset (voxelGridFilter c)) vertices in
  CopyValid (DensityFilter allVertices) colors.

Section WithFilter.

(** [Filter] of filter.h, the KNN outlier filter, a parameter of
    [ProcessFrame]; module [Knn] below gives its body. *)
Variable Filter : list Point3f -> list RGB -> Z -> Q -> list Point3f * list RGB.

(** [goodVertices] and [goodColorPoints] before the conversion to shorts.
    Both vectors are created with [goodVerticesCount] value-initialised
    entries and the copy loop overwrites the first ones. *)
Definition ProcessFrameFloat (c : LiveScanClient) (vertices : list Point3f) (colors : list RGB)
  : list Point3f * list RGB :=
  let '(allVertices, goodVerticesCount, _) :=
    CalibrateAndClip (calibration c) (bounds c)
                     (VoxelGridFilter.Reset (voxelGridFilter c)) vertices in
  let copied := CopyValid (DensityFilter allVertices) colors in
  let rest := (Z.to_nat goodVerticesCount - List.length copied)%nat in
  let goodVertices := map fst copied ++ repeat Point3f_default rest in
  let goodColorPoints := map snd copied ++ repeat RGB_default rest in
  if isFilterEnabled c
  then Filter goodVertices goodColorPoints (numFilterNeighbors c) (filterThreshold c)
  else (goodVertices, goodColorPoints).

(** [ProcessFrame]: the new [lastFrameVertices] and [lastFrameColors]. *)
Definition ProcessFrame (c : LiveScanClient) (vertices : list Point3f) (colors : list RGB)
  : list Point3s * list RGB :=
  let '(goodVertices, goodColorPoints) := ProcessFrameFloat c vertices colors in
  (map Point3s_of_Point3f goodVertices, goodColorPoints).

End WithFilter.

(** The cell of side [minPrecision] the property is stated with:
    [(floor(x/minPrecision), floor(y/minPrecision), floor(z/minPrecision))]. *)
Definition FloorVoxel (p : Point3f) : Z * Z * Z :=
  (Qfloor (X p / MinPrecision), Qfloor (Y p / MinPrecision), Qfloor (Z_ p / MinPrecision)).

(** The cell of the voxel grid filter a point falls into. *)
Definition FilterCell (f : VoxelGridFilter.t) (p : Point3f) : Z * Z * Z :=
  VoxelGridFilter.Cell f (X p) (Y p) (Z_ p).

End Client.

(* ===================================================================== *)
(** * calibration.cpp: Calibrate *)
(* ===================================================================== *)

Module Calib.

Definition NumRequiredSamples : Z := 20.

(** [depthFrame[idx]] on the raw frame pointer.  A read outside the frame is
    undefined in the source; here it yields a point without depth. *)
Definition depthAt (depthFrame : list Point3f) (idx : Z) : Point3f :=
  if (idx <? 0)%Z then Point3f_default
  else nth (Z.to_nat idx) depthFrame Point3f_default.

(** The body of the loop of [Get3DMarkerCorners] for one corner: [None] when
    one of the four surrounding depth values is invalid. *)
Definition Corner3D (corner : Point2f) (depthFrame : list Point3f) (frameWidth : Z)
  : option Point3f :=
  let minX := Qtrunc (X2 corner) in
  let maxX := (minX + 1)%Z in
  let minY := Qtrunc (Y2 corner) in
  let maxY := (minY + 1)%Z in
  let dx := X2 corner - inject_Z minX in
  let dy := Y2 corner - inject_Z minY in
  let pointMin := depthAt depthFrame (minX + minY * frameWidth) in
  let pointXMaxYMin := depthAt depthFrame (maxX + minY * frameWidth) in
  let pointXMinYMax := depthAt depthFrame (minX + maxY * frameWidth) in
  let pointMax := depthAt depthFrame (maxX + maxY * frameWidth) in
  if Qleb (Z_ pointMin) 0 || Qleb (Z_ pointXMaxYMin) 0
     || Qleb (Z_ pointXMinYMax) 0 || Qleb (Z_ pointMax) 0
  then None
  else
    let interp (g : Point3f -> Q) :=
      (1 - dx) * (1 - dy) * g pointMin + dx * (1 - dy) * g pointXMaxYMin
      + (1 - dx) * dy * g pointXMinYMax + dx * dy * g pointMax in
    Some (mkPoint3f (interp X) (interp Y) (interp Z_) false).

Fixpoint Get3DMarkerCorners (corners : list Point2f) (depthFrame : list Point3f)
    (frameWidth : Z) : option (list Point3f) :=
  match corners with
  | [] => Some []
  | corner :: rest =>
    match Corner3D corner depthFrame frameWidth with
    | None => None
    | Some p =>
      match Get3DMarkerCorners rest depthFrame frameWidth with
      | None => None
      | Some ps => Some (p :: ps)
      end
    end
  end.

(** The first pose of [markerPoses] whose id is the detected one. *)
Fixpoint FindPose (id : Z) (poses : list MarkerPose) : option MarkerPose :=
  match poses with
  | [] => None
  | p :: rest => if (id =? MarkerId p)%Z then Some p else FindPose id rest
  end.

(** The average of the first [NumRequiredSamples] samples, corner by corner;
    each sum starts from [Point3f()]. *)
Definition AverageSamples (samples : list (list Point3f)) (size : nat) : list Point3f :=
  map (fun i =>
         fold_left
           (fun acc j =>
              let s := nth i (nth j samples []) Point3f_default in
              mkPoint3f (X acc + X s / inject_Z NumRequiredSamples)
                        (Y acc + Y s / inject_Z NumRequiredSamples)
                        (Z_ acc + Z_ s / inject_Z NumRequiredSamples)
                        (Invalid acc))
           (seq 0 (Z.to_nat NumRequiredSamples)) Point3f_default)
      (seq 0 size).

(** The centroid that [Procrustes] accumulates over [nVertices] points. *)
Definition Centroid (pts : list Point3f) (nVertices : nat) : Point3f :=
  fold_left
    (fun acc i =>
       let p := nth i pts Point3f_default in
       mkPoint3f (X acc + X p / inject_Z (Z.of_nat nVertices))
                 (Y acc + Y p / inject_Z (Z.of_nat nVertices))
                 (Z_ acc + Z_ p / inject_Z (Z.of_nat nVertices))
                 (Invalid acc))
    (seq 0 nVertices) Point3f_default.

Definition coord (k : nat) (p : Point3f) : Q :=
  match k with 0%nat => X p | 1%nat => Y p | _ => Z_ p end.

(** [A.t() * B] for the two [nVertices x 3] matrices of centred points. *)
Definition CrossCovariance (A B : list Point3f) : list (list Q) :=
  map (fun r =>
         map (fun c =>
                fold_left (fun acc ab => acc + coord r (fst ab) * coord c (snd ab))
                          (combine A B) 0)
             [0; 1; 2]%nat)
      [0; 1; 2]%nat.

(** The product in the loop after [Procrustes]:
    [worldR[i][j] = 0; worldR[i][j] += markerPose.R[i][k] * Rcopy[k][j]]. *)
Definition ComposeRotation (poseR Rcopy : list (list Q)) : list (list Q) :=
  map (fun i =>
         map (fun j =>
                fold_left (fun acc k => acc + at2 poseR i k * at2 Rcopy k j)
                          [0; 1; 2]%nat 0)
             [0; 1; 2]%nat)
      [0; 1; 2]%nat.

Section WithOpenCV.

(** The marker detector of markerDetector.cpp on a colour frame: the marker
    it outputs when it returns true. *)
Variable DetectMarkersInImage : list RGB -> Z -> Z -> option MarkerInfo.

(** The rotation [Procrustes] gets from OpenCV for the matrix [M]:
    [svd(M)], [u * vt], with the last axis negated when the determinant is
    negative. *)
Variable SVDRotation : list (list Q) -> list (list Q).

(** [Procrustes]: the translation and rotation written to its outputs. *)
Definition Procrustes (marker : MarkerInfo) (markerInWorld : list Point3f)
  : list Q * list (list Q) :=
  let nVertices := List.length (Points marker) in
  let markerCenterInWorld := Centroid markerInWorld nVertices in
  let markerCenter := Centroid (Points marker) nVertices in
  let worldToMarkerT :=
    [ - X markerCenterInWorld; - Y markerCenterInWorld; - Z_ markerCenterInWorld ] in
  let markerInWorldTranslated :=
    map (fun i => let p := nth i markerInWorld Point3f_default in
                  mkPoint3f (X p + nth 0 worldToMarkerT 0)
                            (Y p + nth 1 worldToMarkerT 0)
                            (Z_ p + nth 2 worldToMarkerT 0) false)
        (seq 0 nVertices) in
  let markerTranslated :=
    map (fun i => let p := nth i (Points marker) Point3f_default in
                  mkPoint3f (X p - X markerCenter) (Y p - Y markerCenter)
                            (Z_ p - Z_ markerCenter) false)
        (seq 0 nVertices) in
  let M := CrossCovariance markerTranslated markerInWorldTranslated in
  (worldToMarkerT, SVDRotation M).

(** [Calibrate]: the value returned and the calibration after the call.
    [None] for a frame is the null pointer. *)
Definition Calibrate (c : Calibration) (colorFrame : option (list RGB))
    (depthFrame : option (list Point3f)) (frameWidth frameHeight : Z)
  : bool * Calibration :=
  match colorFrame, depthFrame with
  | Some colorFrame, Some depthFrame =>
    match DetectMarkersInImage colorFrame frameHeight frameWidth with
    | None => (false, c)
    | Some marker =>
      match FindPose (Id marker) (markerPoses c) with
      | None => (false, c)
      | Some markerPose =>
        let c1 := mkCalibration (worldT c) (worldR c) (MarkerId markerPose)
                                (markerPoses c) (isCalibrated c)
                                (numSamples c) (markerSamplePositions c) in
        match Get3DMarkerCorners (Corners marker) depthFrame frameWidth with
        | None => (false, c1)
        | Some marker3D =>
          let samples := markerSamplePositions c1 ++ [marker3D] in
          let n := (numSamples c1 + 1)%Z in
          if (n <? NumRequiredSamples)%Z then
            (false, mkCalibration (worldT c1) (worldR c1) (usedMarkerId c1)
                                  (markerPoses c1) (isCalibrated c1) n samples)
          else
            let mean := AverageSamples samples (List.length marker3D) in
            let '(Tp, Rp) := Procrustes marker mean in
            let worldR' := ComposeRotation (poseR markerPose) Rp in
            let translationIncr := InverseRotatePoint (poseT markerPose) worldR' in
            let worldT' := [ nth 0 Tp 0 + nth 0 translationIncr 0;
                             nth 1 Tp 0 + nth 1 translationIncr 0;
                             nth 2 Tp 0 + nth 2 translationIncr 0 ] in
            (true, mkCalibration worldT' worldR' (usedMarkerId c1)
                                 (markerPoses c1) true 0 [])
        end
      end
    end
  | _, _ => (false, c)
  end.

End WithOpenCV.

End Calib.

(* ===================================================================== *)
(** * markerDetector.cpp: GetCode *)
(* ===================================================================== *)

Module Marker.

Definition WarpedMarkerResolutionPerUnit : Z := 50.
Definition BitGridSize : Z := 3.
Definition CodeDetectionBitThreshold : Z := 128.
(** [2.0] and [0.4] *)
Definition NormalizedMarkerSize : Q := 2.
Definition NormalizedMarkerBorderSize : Q := 4 # 10.

(** The side of the warped patch [img2], in pixels. *)
Definition WarpedSize : Z :=
  Qtrunc (inject_Z WarpedMarkerResolutionPerUnit
          * (NormalizedMarkerSize - 2 * NormalizedMarkerBorderSize)).

(** [cv::integral]: entry [(r, c)] is the sum of the pixels of the rows
    above [r] and the columns left of [c]. *)
Definition Integral (img : Z -> Z -> Z) (r c : Z) : Z :=
  fold_left (fun acc y =>
               fold_left (fun acc' x => (acc' + img (Z.of_nat y) (Z.of_nat x))%Z)
                         (seq 0 (Z.to_nat c)) acc)
            (seq 0 (Z.to_nat r)) 0%Z.

(** The value written to [vals[j + i * BitGridSize]]. *)
Definition CellBit (integral : Z -> Z -> Z) (cellWidth cellHeight : Z) (i j : Z) : Z :=
  let cellArea := (cellWidth * cellHeight)%Z in
  let temp := integral ((i + 1) * cellWidth)%Z ((j + 1) * cellHeight)%Z in
  let temp := (temp + integral (i * cellWidth) (j * cellHeight))%Z in
  let temp := (temp - integral ((i + 1) * cellWidth) (j * cellHeight))%Z in
  let temp := (temp - integral (i * cellWidth) ((j + 1) * cellHeight))%Z in
  let temp := Z.quot temp cellArea in
  if (temp <? CodeDetectionBitThreshold)%Z then 0%Z else 1%Z.

(** [vals], cell [j + 3 * i] at position [j + 3 * i]. *)
Definition ReadCells (integral : Z -> Z -> Z) (cols rows : Z) : list Z :=
  let cellWidth := Z.quot cols BitGridSize in
  let cellHeight := Z.quot rows BitGridSize in
  flat_map (fun i => map (fun j => CellBit integral cellWidth cellHeight i j)
                         [0; 1; 2]%Z)
           [0; 1; 2]%Z.

Definition val (vals : list Z) (i : nat) : Z := nth i vals 0%Z.

(** The loop over the four data cells: [None] when it returns -1, else the
    [code] and the count [ones] after it. *)
Fixpoint DecodeLoop (vals : list Z) (idxs : list nat) (code ones : Z) : option (Z * Z) :=
  match idxs with
  | [] => Some (code, ones)
  | i :: rest =>
    if (val vals i =? val vals (i + 4))%Z then None
    else if (val vals i =? 1)%Z
         then DecodeLoop vals rest (code + 2 ^ (3 - Z.of_nat i))%Z (ones + 1)%Z
         else DecodeLoop vals rest code ones
  end.

(** The decoding of the 3x3 pattern at the end of [GetCode]. *)
Definition DecodeCells (vals : list Z) : Z :=
  match DecodeLoop vals [0; 1; 2; 3]%nat 0 0 with
  | None => (-1)%Z
  | Some (code, ones) =>
    let even := (Z.rem ones 2 =? 0)%Z in
    if (even && (val vals 8 =? 0)%Z) || (negb even && (val vals 8 =? 1)%Z)
    then (-1)%Z
    else code
  end.

(** [GetCode] from the warped patch [img2] on: the patch is a [WarpedSize]
    square that OpenCV computes from the homography. *)
Definition GetCode (img2 : Z -> Z -> Z) : Z :=
  DecodeCells (ReadCells (Integral img2) WarpedSize WarpedSize).

(** The patch whose cell [j + 3 * i] is uniformly white (255) where
    [cells] has a 1 and black where it has a 0. *)
Definition PatchOfCells (cells : list Z) : Z -> Z -> Z :=
  fun r c =>
    let i := Z.quot r (Z.quot WarpedSize BitGridSize) in
    let j := Z.quot c (Z.quot WarpedSize BitGridSize) in
    (255 * val cells (Z.to_nat (j + 3 * i)))%Z.

(** The number of data cells ([0..3]) that read 1. *)
Definition DataOnes (vals : list Z) : Z :=
  (val vals 0 + val vals 1 + val vals 2 + val vals 3)%Z.

(** Cells [4..7] are the complement of the data cells [0..3]. *)
Definition Complemented (vals : list Z) : bool :=
  forallb (fun i => (val vals (i + 4) =? 1 - val vals i)%Z) [0; 1; 2; 3]%nat.

(** Cell 8 is the parity of the data bits: 0 for an even number of ones. *)
Definition EvenParityCell (vals : list Z) : bool :=
  (val vals 8 =? Z.rem (DataOnes vals) 2)%Z.

(** Cell 8 is the complement of that parity: 1 for an even number of ones,
    0 for an odd number. *)
Definition OddParityCell (vals : list Z) : bool :=
  (val vals 8 =? 1 - Z.rem (DataOnes vals) 2)%Z.

(** The four data cells as a number, cell 0 the most significant bit. *)
Definition CodeValue (vals : list Z) : Z :=
  (8 * val vals 0 + 4 * val vals 1 + 2 * val vals 2 + val vals 3)%Z.

End Marker.

(* ===================================================================== *)
(** * Utils.cs, CameraClient.cs: the hardware sync protocol of CameraServer *)
(* ===================================================================== *)

Module Sync.

Inductive SyncState := Subordinate | Master | Standalone | Unknown.

Definition SyncState_eqb (a b : SyncState) : bool :=
  match a, b with
  | Subordinate, Subordinate | Master, Master
  | Standalone, Standalone | Unknown, Unknown => true
  | _, _ => false
  end.

(** The fields of a [CameraClient] the protocol reads and writes. *)
Record CameraClient := mkCameraClient {
  SerialNumber : string;
  IsStarted : bool;
  CurrentSyncState : SyncState
}.

(** [new CameraClient(i)] *)
Definition CameraClient_new : CameraClient :=
  mkCameraClient "XXXXXXXXXXX" false Standalone.

(** A call into LiveScanClient.dll, with the index of the client called. *)
Inductive NativeCall :=
| CallEnableSync (clientIndex : nat) (syncState : SyncState) (syncOffset : Z)
| CallDisableSync (clientIndex : nat)
| CallStartMaster (clientIndex : nat).

(** [CameraServer]; [calls] is the sequence of native calls dispatched so
    far, the oldest first. *)
Record CameraServer := mkCameraServer {
  liveScanClients : list CameraClient;
  waitForSubordinateStart : bool;
  allDevicesInitialized : bool;
  calls : list NativeCall
}.

Definition CameraServer_new (clients : list CameraClient) : CameraServer :=
  mkCameraServer clients false true [].

Fixpoint update (l : list CameraClient) (i : nat) (g : CameraClient -> CameraClient)
  : list CameraClient :=
  match l, i with
  | [], _ => []
  | c :: rest, O => g c :: rest
  | c :: rest, S i' => c :: update rest i' g
  end.

(** [CameraClient.EnableSync(syncState, syncOffset)] on client [i]. *)
Definition Client_EnableSync (s : CameraServer) (i : nat) (syncState : SyncState)
    (syncOffset : Z) : CameraServer :=
  mkCameraServer
    (update (liveScanClients s) i
            (fun c => mkCameraClient (SerialNumber c) false Unknown))
    (waitForSubordinateStart s) (allDevicesInitialized s)
    (calls s ++ [CallEnableSync i syncState syncOffset]).

(** [CameraClient.DisableSync()] on client [i]. *)
Definition Client_DisableSync (s : CameraServer) (i : nat) : CameraServer :=
  mkCameraServer
    (update (liveScanClients s) i
            (fun c => mkCameraClient (SerialNumber c) false Unknown))
    (waitForSubordinateStart s) (allDevicesInitialized s)
    (calls s ++ [CallDisableSync i]).

(** [OrderBy(c => c.SerialNumber, StringComparer.Ordinal)]: a stable sort,
    here by insertion, of the clients paired with their index. *)
Fixpoint insert_by_serial (x : nat * CameraClient) (l : list (nat * CameraClient))
  : list (nat * CameraClient) :=
  match l with
  | [] => [x]
  | y :: rest =>
    if String.ltb (SerialNumber (snd x)) (SerialNumber (snd y))
    then x :: y :: rest
    else y :: insert_by_serial x rest
  end.

Definition OrderBySerial (l : list (nat * CameraClient)) : list (nat * CameraClient) :=
  fold_left (fun acc x => insert_by_serial x acc) l [].

(** [sortedClients] of [EnableSync], as indices into [liveScanClients]. *)
Definition sortedClients (clients : list CameraClient) : list nat :=
  map fst
      (OrderBySerial
         (filter (fun ic => negb (String.eqb (SerialNumber (snd ic)) ""))
                 (combine (seq 0 (List.length clients)) clients))).

(** [liveScanClients.Except(sortedClients)] *)
Definition standaloneClients (clients : list CameraClient) : list nat :=
  filter (fun i => negb (existsb (Nat.eqb i) (sortedClients clients)))
         (seq 0 (List.length clients)).

(** [CameraServer.EnableSync()] *)
Definition EnableSync (s : CameraServer) : CameraServer :=
  let s := mkCameraServer (liveScanClients s) true false (calls s) in
  match sortedClients (liveScanClients s) with
  | [] => s
  | masterClient :: others =>
    let standalone := standaloneClients (liveScanClients s) in
    let s := Client_EnableSync s masterClient Master 0 in
    let s := fold_left (fun s io => Client_EnableSync s (snd io) Subordinate (fst io))
                       (combine (map Z.of_nat (seq 1 (List.length others))) others) s in
    fold_left (fun s c => Client_EnableSync s c Standalone 0) standalone s
  end.

(** [CameraServer.DisableSync()] *)
Definition DisableSync (s : CameraServer) : CameraServer :=
  let s := mkCameraServer (liveScanClients s) (waitForSubordinateStart s) false (calls s) in
  fold_left Client_DisableSync (seq 0 (List.length (liveScanClients s))) s.

(** [CameraServer.ConfirmSyncDisabled()] *)
Definition ConfirmSyncDisabled (s : CameraServer) : CameraServer :=
  if waitForSubordinateStart s then s
  else if forallb (fun c => SyncState_eqb (CurrentSyncState c) Standalone)
                  (liveScanClients s)
       then mkCameraServer (liveScanClients s) (waitForSubordinateStart s) true (calls s)
       else s.

(** The index of the first client of the list whose state is [Master]. *)
Fixpoint firstMaster (l : list CameraClient) (i : nat) : option nat :=
  match l with
  | [] => None
  | c :: rest =>
    if SyncState_eqb (CurrentSyncState c) Master then Some i
    else firstMaster rest (S i)
  end.

(** [CameraServer.StartMaster()] *)
Definition StartMaster (s : CameraServer) : CameraServer :=
  if negb (waitForSubordinateStart s) then s
  else
    let allSubsStarted :=
      negb (existsb (fun c => negb (IsStarted c)
                              && SyncState_eqb (CurrentSyncState c) Subordinate)
                    (liveScanClients s)) in
    let s := mkCameraServer (liveScanClients s) false (allDevicesInitialized s) (calls s) in
    if allSubsStarted then
      match firstMaster (liveScanClients s) 0 with
      | Some i => mkCameraServer (liveScanClients s) (waitForSubordinateStart s)
                                 (allDevicesInitialized s)
                                 (calls s ++ [CallStartMaster i])
      | None => s
      end
    else s.

(** [CameraServer.OnConfirmSyncState(clientIndex, state)]: the ACK of a
    role.  An index outside the list throws in the source and changes
    nothing. *)
Definition OnConfirmSyncState (s : CameraServer) (clientIndex : nat) (state : SyncState)
  : CameraServer :=
  if (List.length (liveScanClients s) <=? clientIndex)%nat then s
  else
    let set_state (started : CameraClient -> bool) :=
      mkCameraServer
        (update (liveScanClients s) clientIndex
                (fun c => mkCameraClient (SerialNumber c) (started c) state))
        (waitForSubordinateStart s) (allDevicesInitialized s) (calls s) in
    match state with
    | Subordinate => StartMaster (set_state (fun _ => true))
    | Master => set_state (fun _ => false)
    | Standalone => ConfirmSyncDisabled (set_state (fun _ => true))
    | Unknown => set_state IsStarted
    end.

(** The master restart callback of [CameraClient], then
    [CameraServer.OnConfirmMasterRestart]. *)
Definition OnConfirmMasterRestart (s : CameraServer) (clientIndex : nat) : CameraServer :=
  mkCameraServer
    (update (liveScanClients s) clientIndex
            (fun c => mkCameraClient (SerialNumber c) true (CurrentSyncState c)))
    (waitForSubordinateStart s) true (calls s).

(** What happens to the server: a user command or a callback of a client. *)
Inductive Event :=
| UserEnableSync
| UserDisableSync
| ConfirmSyncState (clientIndex : nat) (state : SyncState)
| ConfirmMasterRestart (clientIndex : nat).

Definition step (s : CameraServer) (e : Event) : CameraServer :=
  match e with
  | UserEnableSync => EnableSync s
  | UserDisableSync => DisableSync s
  | ConfirmSyncState i st => OnConfirmSyncState s i st
  | ConfirmMasterRestart i => OnConfirmMasterRestart s i
  end.

Definition run (s : CameraServer) (events : list Event) : CameraServer :=
  fold_left step events s.

(** The clients that were told to become [Subordinate] by the calls. *)
Definition subordinatesOf (cs : list NativeCall) : list nat :=
  flat_map (fun c => match c with
                     | CallEnableSync i Subordinate _ => [i]
                     | _ => []
                     end) cs.

(** The clients whose [Subordinate] ACK is among the events. *)
Definition subordinateAcks (events : list Event) : list nat :=
  flat_map (fun e => match e with
                     | ConfirmSyncState i Subordinate => [i]
                     | _ => []
                     end) events.

Definition startMasterCalls (cs : list NativeCall) : list nat :=
  flat_map (fun c => match c with CallStartMaster i => [i] | _ => [] end) cs.

End Sync.

(* ===================================================================== *)
(** * PointCloudTransferSocket.cs, ObjectControllerIO.cs: the wire codec *)
(* ===================================================================== *)

Module Wire.

Definition MinScale : Z := 400.
(** [(short)(1 / MinPrecision)] *)
Definition MaxScale : Z := to_int16 (Qtrunc (1 / MinPrecision)).
Definition ScaleFnOffset : Z := 6700.
Definition ScaleFnFactor : Z := -500.

(** [Math.Truncate] on a double, as a real number. *)
Definition Rtruncate (x : R) : Z :=
  if Rle_dec 0 x then Int_part x else (- Int_part (- x))%Z.

(** The double [ScaleFnOffset + ScaleFnFactor * Math.Log(vertexCount)]. *)
Definition ScaleFn (vertexCount : Z) : R :=
  (IZR ScaleFnOffset + IZR ScaleFnFactor * ln (IZR vertexCount))%R.

Definition DetermineScale (vertexCount : Z) : Z :=
  if (vertexCount <=? 0)%Z then MaxScale
  else
    let scale := to_int16 (Rtruncate (ScaleFn vertexCount)) in
    Z.min MaxScale (Z.max scale MinScale).

Definition to_byte (z : Z) : Z := (z mod 256)%Z.

Definition EncodeFloatToByte (value rangeCenter : Q) (scale : Z) : Z :=
  let result := (value + HalfRange - rangeCenter) * inject_Z scale in
  to_byte (Qtrunc (Qmin 255 (Qmax result 0))).

(** The test of [SendPointCloud] that skips a point. *)
Definition OutOfRange (x y z : Q) : bool :=
  Qltb HalfRange (Qabs (x - XRangeCenter)) || Qltb HalfRange (Qabs (XRangeCenter - x))
  || Qltb HalfRange (Qabs (y - YRangeCenter)) || Qltb HalfRange (Qabs (YRangeCenter - y))
  || Qltb HalfRange (Qabs (z - ZRangeCenter)) || Qltb HalfRange (Qabs (ZRangeCenter - z)).

(** [DecodeByteToFloat] of the receiver; [scale] is the short it read, as a
    float. *)
Definition DecodeByteToFloat (encoded : Z) (rangeCenter : Q) (scale : Z) : Q :=
  inject_Z encoded / inject_Z scale - HalfRange + rangeCenter.

(** The scale as the property words it, to compare with [DetermineScale]:
    [clamp(round(6700 - 500 ln N), 400, 255 / minPrecision)]. *)
Definition SpecScale (N : Z) : Z :=
  let round (x : R) := Int_part (x + / 2)%R in
  Z.min (Qfloor (255 / MinPrecision)) (Z.max (round (ScaleFn N)) 400).

End Wire.

(* ===================================================================== *)
(** * calibration.cpp: SaveCalibration, LoadCalibration *)
(* ===================================================================== *)

(** The text streams of the C++ library, as far as the two functions use
    them: [operator<<] with the default format ([%g], six significant
    digits, for a float) and [operator>>], which skips white space, reads the
    longest prefix that is a number and sets the fail bit when there is
    none.  Hexadecimal floats, [inf] and [nan] are left out. *)
Module Stream.

Definition nl : string := String (ascii_of_nat 10) EmptyString.

Definition string_of_Z (z : Z) : string :=
  DecimalString.NilZero.string_of_int (Z.to_int z).

(** [10^k <= a < 10^(k+1)] for [a > 0]. *)
Fixpoint exp_up (fuel : nat) (a : Q) (k : Z) : Z :=
  match fuel with
  | O => k
  | S f => if Qle_bool (Qpower 10 (k + 1)) a then exp_up f a (k + 1) else k
  end.

Fixpoint exp_down (fuel : nat) (a : Q) (k : Z) : Z :=
  match fuel with
  | O => k
  | S f => if Qle_bool (Qpower 10 k) a then k else exp_down f a (k - 1)
  end.

Definition decimal_exponent (a : Q) : Z :=
  if Qle_bool 1 a
  then exp_up (Z.to_nat (Z.log2 (Qnum a) + 1)) a 0
  else exp_down (Z.to_nat (Z.log2 (Zpos (Qden a)) + 2)) a (-1).

(** Rounding to the nearest integer, ties to even. *)
Definition round_half_even (a : Q) : Z :=
  let f := Qfloor a in
  let r := a - inject_Z f in
  if Qltb r (1 # 2) then f
  else if Qltb (1 # 2) r then (f + 1)%Z
  else if Z.even f then f else (f + 1)%Z.

Fixpoint strip_zeros_rev (l : list ascii) : list ascii :=
  match l with
  | "0"%char :: rest => strip_zeros_rev rest
  | _ => l
  end.

(** [n] digits of [frac], zeros in front kept, zeros at the end removed,
    with the decimal point when a digit is left. *)
Definition fraction (frac : Z) (n : Z) : string :=
  let padded := tl (list_ascii_of_string (string_of_Z (10 ^ n + frac))) in
  match rev (strip_zeros_rev (rev padded)) with
  | [] => EmptyString
  | ds => String "."%char (string_of_list_ascii ds)
  end.

(** [os << f] for a float [f]. *)
Definition print_float (q : Q) : string :=
  if Qeq_bool q 0 then "0"%string
  else
    let sign := if Qltb q 0 then "-"%string else EmptyString in
    let a := Qabs q in
    let e0 := decimal_exponent a in
    let m0 := round_half_even (a / Qpower 10 (e0 - 5)) in
    let '(m, e) := if (m0 =? 1000000)%Z then (100000, e0 + 1)%Z else (m0, e0) in
    if ((e <? -4) || (6 <=? e))%Z then
      let esign := if (e <? 0)%Z then "-"%string else "+"%string in
      let edigits := string_of_Z (Z.abs e) in
      let edigits := if (Z.abs e <? 10)%Z then String "0"%char edigits else edigits in
      (sign ++ string_of_Z (m / 100000) ++ fraction (m mod 100000) 5
            ++ "e" ++ esign ++ edigits)%string
    else
      let n := (5 - e)%Z in
      (sign ++ string_of_Z (m / 10 ^ n) ++ fraction (m mod 10 ^ n) n)%string.

(** [os << i] for an int and for a bool (no [boolalpha]). *)
Definition print_int (z : Z) : string := string_of_Z z.
Definition print_bool (b : bool) : string := if b then "1"%string else "0"%string.

(** An input stream: what is left to read, and the fail bit. *)
Record istream := mkIstream { rest : list ascii; failbit : bool }.

Definition is_space (c : ascii) : bool :=
  let n := nat_of_ascii c in
  (n =? 32)%nat || ((9 <=? n)%nat && (n <=? 13)%nat).

Fixpoint skipws (l : list ascii) : list ascii :=
  match l with
  | c :: l' => if is_space c then skipws l' else l
  | [] => []
  end.

Definition digit_of (c : ascii) : option Z :=
  let n := nat_of_ascii c in
  if ((48 <=? n)%nat && (n <=? 57)%nat) then Some (Z.of_nat (n - 48)) else None.

(** The digits at the front of [l]: their value, their number, what follows. *)
Fixpoint read_digits (l : list ascii) (acc : Z) (count : Z) : Z * Z * list ascii :=
  match l with
  | c :: l' =>
    match digit_of c with
    | Some d => read_digits l' (10 * acc + d)%Z (count + 1)%Z
    | None => (acc, count, l)
    end
  | [] => (acc, count, [])
  end.

Definition read_sign (l : list ascii) : bool * list ascii :=
  match l with
  | "-"%char :: l' => (true, l')
  | "+"%char :: l' => (false, l')
  | _ => (false, l)
  end.

(** The exponent part [e[+-]digits], taken only when a digit follows. *)
Definition read_exponent (l : list ascii) : Z * list ascii :=
  match l with
  | c :: l' =>
    if (Ascii.eqb c "e" || Ascii.eqb c "E")%bool then
      let '(neg, l1) := read_sign l' in
      let '(v, n, l2) := read_digits l1 0 0 in
      if (n =? 0)%Z then (0%Z, l) else ((if neg then - v else v)%Z, l2)
    else (0%Z, l)
  | [] => (0%Z, [])
  end.

(** The longest prefix that is a floating-point number, and its value. *)
Definition parse_float (l : list ascii) : option (Q * list ascii) :=
  let '(neg, l1) := read_sign l in
  let '(ip, ni, l2) := read_digits l1 0 0 in
  let '(fp, nf, l3) :=
    match l2 with
    | "."%char :: l2' => read_digits l2' 0 0
    | _ => (0%Z, 0%Z, l2)
    end in
  if ((ni + nf) =? 0)%Z then None
  else
    let '(e, l4) := read_exponent l3 in
    let mant := (inject_Z (ip * 10 ^ nf + fp) / inject_Z (10 ^ nf)) * Qpower 10 e in
    Some (if neg then - mant else mant, l4).

Definition parse_int (l : list ascii) : option (Z * list ascii) :=
  let '(neg, l1) := read_sign l in
  let '(v, n, l2) := read_digits l1 0 0 in
  if (n =? 0)%Z then None else Some ((if neg then - v else v)%Z, l2).

(** [is >> x]: on a stream that has failed, or at the end of the input,
    nothing is stored; when no number can be read zero is stored. *)
Definition extract (A : Type) (parse : list ascii -> option (A * list ascii))
    (zero : A) (s : istream) (old : A) : istream * A :=
  if failbit s then (s, old)
  else
    match skipws (rest s) with
    | [] => (mkIstream [] true, old)
    | l =>
      match parse l with
      | Some (v, l') => (mkIstream l' false, v)
      | None => (mkIstream l true, zero)
      end
    end.

Definition extract_float := extract parse_float 0.
Definition extract_int := extract parse_int 0%Z.

(** [is >> b] for a bool: an integer that must be 0 or 1. *)
Definition extract_bool (s : istream) (old : bool) : istream * bool :=
  if failbit s then (s, old)
  else
    match skipws (rest s) with
    | [] => (mkIstream [] true, old)
    | l =>
      match parse_int l with
      | Some (0%Z, l') => (mkIstream l' false, false)
      | Some (1%Z, l') => (mkIstream l' false, true)
      | Some (_, l') => (mkIstream l' true, true)
      | None => (mkIstream l true, false)
      end
    end.

End Stream.

Module CalibFile.
Import Stream.

(** The files of the working directory, by name. *)
Definition FileSystem := string -> option string.

Definition fileName (serialNumber : string) : string :=
  ("calibration_" ++ serialNumber ++ ".txt")%string.

Definition write (fs : FileSystem) (name content : string) : FileSystem :=
  fun n => if String.eqb n name then Some content else fs n.

(** The text [SaveCalibration] writes. *)
Definition CalibrationText (c : Calibration) : string :=
  let t i := nth i (worldT c) 0 in
  let row i := (print_float (at2 (worldR c) i 0) ++ print_float (at2 (worldR c) i 1)
                ++ print_float (at2 (worldR c) i 2) ++ nl)%string in
  (print_float (t 0%nat) ++ " " ++ print_float (t 1%nat) ++ " "
   ++ print_float (t 2%nat) ++ " " ++ nl
   ++ row 0%nat ++ row 1%nat ++ row 2%nat
   ++ print_int (usedMarkerId c) ++ nl
   ++ print_bool (isCalibrated c) ++ nl)%string.

Definition SaveCalibration (fs : FileSystem) (c : Calibration) (serialNumber : string)
  : FileSystem :=
  write fs (fileName serialNumber) (CalibrationText c).

(** [LoadCalibration]: the value returned and the calibration after it. *)
Definition LoadCalibration (fs : FileSystem) (c : Calibration) (serialNumber : string)
  : bool * Calibration :=
  match fs (fileName serialNumber) with
  | None => (false, c)
  | Some text =>
    let s := mkIstream (list_ascii_of_string text) false in
    let t i := nth i (worldT c) 0 in
    let '(s, t0) := extract_float s (t 0%nat) in
    let '(s, t1) := extract_float s (t 1%nat) in
    let '(s, t2) := extract_float s (t 2%nat) in
    let r i j := at2 (worldR c) i j in
    let '(s, r00) := extract_float s (r 0 0)%nat in
    let '(s, r01) := extract_float s (r 0 1)%nat in
    let '(s, r02) := extract_float s (r 0 2)%nat in
    let '(s, r10) := extract_float s (r 1 0)%nat in
    let '(s, r11) := extract_float s (r 1 1)%nat in
    let '(s, r12) := extract_float s (r 1 2)%nat in
    let '(s, r20) := extract_float s (r 2 0)%nat in
    let '(s, r21) := extract_float s (r 2 1)%nat in
    let '(s, r22) := extract_float s (r 2 2)%nat in
    let '(s, id) := extract_int s (usedMarkerId c) in
    let '(s, cal) := extract_bool s (isCalibrated c) in
    (true, mkCalibration [t0; t1; t2]
                         [[r00; r01; r02]; [r10; r11; r12]; [r20; r21; r22]]
                         id (markerPoses c) cal
                         (numSamples c) (markerSamplePositions c))
  end.

End CalibFile.

(* ===================================================================== *)
(** * Fixed-point squaring, to bound the logarithm of 10 *)
(* ===================================================================== *)

Module LogBounds.

(** [a * a] in fixed point with denominator [D], rounded down. *)
Definition sq_down (D a : Z) : Z := (a * a / D)%Z.

(** [a] squared [k] times, rounded down each time. *)
Fixpoint pow2_down (D : Z) (k : nat) (a : Z) : Z :=
  match k with
  | O => a
  | S k' => sq_down D (pow2_down D k' a)
  end.

(** [x ^ (2 ^ k)] by [k] squarings. *)
Fixpoint pow2k (x : R) (k : nat) : R :=
  match k with
  | O => x
  | S k' => (pow2k x k' * pow2k x k')%R
  end.

Definition Dfix : Z := (10 ^ 30)%Z.
Definition steps : Z := (100000 * 2 ^ 20)%Z.
(** [1 + 2.30259 / 2^20] from below and [1 - 2.30258 / 2^20] from below. *)
Definition a_up : Z := (Dfix + Dfix * 230259 / steps)%Z.
Definition a_lo : Z := (Dfix - (Dfix * 230258 / steps + 1))%Z.

(** Replaces a closed constant by its value. *)
Ltac eval_const c := let v := eval vm_compute in c in change c with v.

End LogBounds.

(* ===================================================================== *)
(** * Matrices and vectors, to state what the loops compute *)
(* ===================================================================== *)

Module Linear.

(** Entry [(i, j)] of the product [A . B] of two 3x3 matrices. *)
Definition mat_mul (A B : list (list Q)) (i j : nat) : Q :=
  at2 A i 0 * at2 B 0 j + at2 A i 1 * at2 B 1 j + at2 A i 2 * at2 B 2 j.

(** Component [i] of [A . v]. *)
Definition mat_vec (A : list (list Q)) (v : list Q) (i : nat) : Q :=
  at2 A i 0 * nth 0 v 0 + at2 A i 1 * nth 1 v 0 + at2 A i 2 * nth 2 v 0.

(** Component [i] of [transpose(A) . v]. *)
Definition mat_transpose_vec (A : list (list Q)) (v : list Q) (i : nat) : Q :=
  at2 A 0 i * nth 0 v 0 + at2 A 1 i * nth 1 v 0 + at2 A 2 i * nth 2 v 0.

Definition vec_of_point (p : Point3f) : list Q := [X p; Y p; Z_ p].

Definition vec_add (u v : list Q) : list Q :=
  [nth 0 u 0 + nth 0 v 0; nth 1 u 0 + nth 1 v 0; nth 2 u 0 + nth 2 v 0].

End Linear.

(* ===================================================================== *)
(** * Concrete configurations used in the examples *)
(* ===================================================================== *)

Module Examples.
Import Client.

(** The voxel grid filter of a client, cleared. *)
Definition filter0 : VoxelGridFilter.t :=
  match clientVoxelGridFilter with
  | Some f => f
  | None => VoxelGridFilter.mk 0 0 0 0 0 0 0 (fun _ => false)
  end.

(** The bounds the constructor of [LiveScanClient] sets. *)
Definition bounds0 : list Q := [-(1#2); -(1#2); -(1#2); 1#2; 1#2; 1#2].

(** A calibrated camera whose world frame is its own. *)
Definition calibrated0 : Calibration :=
  mkCalibration [0; 0; 0] identity3 0 [] true 0 [].

Definition client_calibrated : LiveScanClient :=
  mkClient calibrated0 bounds0 false 10 (5368709 # 536870912) filter0.

Definition client_uncalibrated : LiveScanClient :=
  mkClient Calibration_new bounds0 false 10 (5368709 # 536870912) filter0.

(** Twelve points of one 6 mm bucket, in twelve cells of the filter. *)
Definition frame12 : list Point3f :=
  flat_map (fun x => map (fun y => mkPoint3f x y (152 # 1000) false)
                         [2 # 10000; 8 # 10000; 20 # 10000; 32 # 10000])
           [2 # 10000; 8 # 10000; 20 # 10000].

(** Twelve times the same point. *)
Definition frame_same : list Point3f :=
  repeat (mkPoint3f (1001 # 10000) (1001 # 10000) (5005 # 10000) false) 12.

Definition colors12 : list RGB := repeat (mkRGB 10 20 30) 12.

(** The filter is switched off in the examples; this stands in for it. *)
Definition NoFilter (v : list Point3f) (c : list RGB) (k : Z) (d : Q)
  : list Point3f * list RGB := (v, c).

(** A marker seen at five pixels of a 4x4 frame, the local pentagon of the
    marker detector ([1.6667f] is [13981293 / 2^23]), a depth frame one
    metre away, and a detector that always reports this marker. *)
Definition marker3 : MarkerInfo :=
  mkMarkerInfo 3
    [mkPoint2f 1 1; mkPoint2f 0 2; mkPoint2f 0 0; mkPoint2f 2 0; mkPoint2f (3 # 2) 2]
    [mkPoint3f 0 (-1) 0 false;
     mkPoint3f (-1) (- (13981293 # 8388608)) 0 false;
     mkPoint3f (-1) 1 0 false;
     mkPoint3f 1 1 0 false;
     mkPoint3f 1 (- (13981293 # 8388608)) 0 false].

Definition depth4x4 : list Point3f :=
  flat_map (fun v => map (fun u => mkPoint3f (inject_Z u / 10) (inject_Z v / 10) 1 false)
                         [0; 1; 2; 3]%Z)
           [0; 1; 2; 3]%Z.

(** The same frame with no depth measured anywhere: every point is the
    zero vertex. *)
Definition depth4x4_invalid : list Point3f := repeat Point3f_default 16.

Definition colors4x4 : list RGB := repeat (mkRGB 0 0 0) 16.

Definition detect_marker3 (img : list RGB) (height width : Z) : option MarkerInfo :=
  Some marker3.

(** A stand-in for the rotation OpenCV returns. *)
Definition svd_identity (M : list (list Q)) : list (list Q) := identity3.

Definition pose3 : MarkerPose := mkMarkerPose 3 identity3 [1; 0; 0].

(** A fresh calibration that knows marker 3. *)
Definition calibration_fresh : Calibration :=
  mkCalibration [0; 0; 0] identity3 (-1) [pose3] false 0 [].

(** The same after nineteen samples of the marker. *)
Definition calibration_19 : Calibration :=
  mkCalibration [0; 0; 0] identity3 3 [pose3] false 19
    (repeat [mkPoint3f (1 # 10) (1 # 10) 1 false; mkPoint3f 0 (2 # 10) 1 false;
             mkPoint3f 0 0 1 false; mkPoint3f (2 # 10) 0 1 false;
             mkPoint3f (15 # 100) (2 # 10) 1 false] 19).

(** Three cameras, in the order they were launched. *)
Definition cameras3 : list Sync.CameraClient :=
  [Sync.mkCameraClient "A001" true Sync.Standalone;
   Sync.mkCameraClient "A000" true Sync.Standalone;
   Sync.mkCameraClient "A002" true Sync.Standalone].

Definition server3 : Sync.CameraServer := Sync.CameraServer_new cameras3.

(** No calibration file yet. *)
Definition no_files : CalibFile.FileSystem := fun _ => None.

End Examples.


(* ===================================================================== *)
(** * Further definitions: sequences of insertions *)
(* ===================================================================== *)

Module VoxelSeq.

(** [Insert] called for each point of a list in turn; the filter after the
    last call. *)
Definition InsertAll (f : VoxelGridFilter.t) (pts : list (Q * Q * Q)) : VoxelGridFilter.t :=
  fold_left (fun g p => let '(x, y, z) := p in snd (VoxelGridFilter.Insert g x y z))
            pts f.

End VoxelSeq.

(* ===================================================================== *)
(** * Filter.cpp: the KNN outlier filter *)
(* ===================================================================== *)

Module Knn.

(** [v[i] = a], [i] inside the vector. *)
Fixpoint assign (A : Type) (l : list A) (i : nat) (a : A) : list A :=
  match l, i with
  | [], _ => []
  | _ :: t, O => a :: t
  | h :: t, S j => h :: assign t j a
  end.

(** [v.resize(n)]: the first [n] entries; value-initialised entries are
    added if the vector is shorter. *)
Definition resize (A : Type) (d : A) (l : list A) (n : nat) : list A :=
  firstn n l ++ repeat d (n - List.length l).

Section WithKdTree.

(** [KthNeighbourDistance] of [ComputeKNearestNeighbours]: for the point
    of index [i], the entry [k - 1] of the distances nanoflann's
    [knnSearch] returns for [k] neighbours in the cloud. *)
Variable KthNeighbourDistance : list Point3f -> Z -> nat -> Q.

(** The loop that collects [outlierIndices]. *)
Definition OutlierIndices (points : list Point3f) (k : Z) (maxDist : Q) : list nat :=
  let distanceThresholdSquared := maxDist * maxDist in
  filter (fun i => Qltb distanceThresholdSquared (KthNeighbourDistance points k i))
         (seq 0 (List.length points)).

(** One turn of the compaction loop, on
    [(vertices, colors, writeIndex, removeIndexCursor)]. *)
Definition CompactStep (outlierIndices : list nat)
    (st : list Point3f * list RGB * nat * nat) (i : nat)
  : list Point3f * list RGB * nat * nat :=
  let '(vertices, colors, writeIndex, removeIndexCursor) := st in
  if (removeIndexCursor <? List.length outlierIndices)%nat
     && (i =? nth removeIndexCursor outlierIndices 0%nat)%nat
  then (vertices, colors, writeIndex, S removeIndexCursor)
  else (assign vertices writeIndex (nth i vertices Point3f_default),
        assign colors writeIndex (nth i colors RGB_default),
        S writeIndex, removeIndexCursor).

(** [Filter(vertices, colors, k, maxDist)]: the two vectors after the
    call. *)
Definition Filter (vertices : list Point3f) (colors : list RGB) (k : Z) (maxDist : Q)
  : list Point3f * list RGB :=
  if (k <=? 0)%Z || Qleb maxDist 0 then (vertices, colors)
  else
    let outlierIndices := OutlierIndices vertices k maxDist in
    let '(vertices', colors', writeIndex, _) :=
      fold_left (CompactStep outlierIndices) (seq 0 (List.length vertices))
                (vertices, colors, 0%nat, 0%nat) in
    (resize Point3f_default vertices' writeIndex, resize RGB_default colors' writeIndex).

End WithKdTree.

End Knn.

(* ===================================================================== *)
(** * frameIOHandler.cpp: the recording file *)
(* ===================================================================== *)

From Stdlib Require DecimalPos.

Module FrameIO.
Import Stream.

(** The value of a string of decimal digits read from the left, the way
    [read_digits] accumulates it. *)
Fixpoint uval (d : Decimal.uint) (acc : Z) : Z :=
  match d with
  | Decimal.Nil => acc
  | Decimal.D0 l => uval l (10 * acc + 0)
  | Decimal.D1 l => uval l (10 * acc + 1)
  | Decimal.D2 l => uval l (10 * acc + 2)
  | Decimal.D3 l => uval l (10 * acc + 3)
  | Decimal.D4 l => uval l (10 * acc + 4)
  | Decimal.D5 l => uval l (10 * acc + 5)
  | Decimal.D6 l => uval l (10 * acc + 6)
  | Decimal.D7 l => uval l (10 * acc + 7)
  | Decimal.D8 l => uval l (10 * acc + 8)
  | Decimal.D9 l => uval l (10 * acc + 9)
  end%Z.

(** Nothing more to read for [read_digits]. *)
Definition no_digit_head (l : list ascii) : Prop :=
  match l with [] => True | c :: _ => digit_of c = None end.

Ltac eval_digit :=
  match goal with
  | |- context [digit_of ?c] =>
    let v := eval vm_compute in (digit_of c) in change (digit_of c) with v
  end; cbv iota beta.

Ltac eval_space :=
  repeat match goal with
  | |- context [is_space ?c] =>
    let v := eval vm_compute in (is_space c) in progress change (is_space c) with v
  end; cbv iota beta.

(** A byte of the file. *)
Definition byte (z : Z) : ascii := ascii_of_nat (Z.to_nat (z mod 256)).
Definition unbyte (c : ascii) : Z := Z.of_nat (nat_of_ascii c).

(** Conversion to [int]. *)
Definition to_int32 (z : Z) : Z := ((z + 2 ^ 31) mod 2 ^ 32 - 2 ^ 31)%Z.

(** The bytes of a [short], of a packed [Point3s] and of a packed [RGB] in
    memory (little endian). *)
Definition bytes_of_short (s : Z) : list ascii := [byte s; byte (s / 256)].
Definition short_of_bytes (lo hi : ascii) : Z := to_int16 (unbyte lo + 256 * unbyte hi).

Definition bytes_of_Point3s (p : Point3s) : list ascii :=
  bytes_of_short (Xs p) ++ bytes_of_short (Ys p) ++ bytes_of_short (Zs p).
Definition bytes_of_RGB (c : RGB) : list ascii :=
  [byte (Blue c); byte (Green c); byte (Red c)].

Definition newline : ascii := ascii_of_nat 10.

(** What [WriteFrame] appends to the file.  [fwrite] of the colours takes
    [numPoints] entries of [colors]. *)
Definition WriteFrame (points : list Point3s) (colors : list RGB) (timestamp : Z)
  : list ascii :=
  let numPoints := to_int32 (Z.of_nat (List.length points)) in
  list_ascii_of_string "n_points= " ++ list_ascii_of_string (print_int numPoints)
  ++ [newline]
  ++ list_ascii_of_string "frame_timestamp= "
  ++ list_ascii_of_string (print_int (to_int32 timestamp)) ++ [newline]
  ++ (if (0 <? numPoints)%Z
      then flat_map bytes_of_Point3s (firstn (Z.to_nat numPoints) points)
           ++ flat_map bytes_of_RGB (firstn (Z.to_nat numPoints) colors)
      else [])
  ++ [newline].

(** [%s]: white space is skipped, then the characters up to the next white
    space are stored; at the end of the input nothing is converted. *)
Fixpoint skip_word (l : list ascii) : list ascii :=
  match l with
  | c :: l' => if is_space c then l else skip_word l'
  | [] => []
  end.

Definition scan_string (l : list ascii) : option (list ascii) :=
  match skipws l with
  | [] => None
  | l' => Some (skip_word l')
  end.

(** [%d]: white space is skipped, then a sign and digits are read.  (A
    number that does not fit an [int] is kept as it is.) *)
Definition scan_int (l : list ascii) : option (Z * list ascii) := parse_int (skipws l).

(** [fscanf_s(fp, "%s %d %s %d", ...)]: the number of items read
    ([EOF] is -1), [numPoints] and what is left of the file. *)
Definition scan_header (l : list ascii) : Z * Z * list ascii :=
  match scan_string l with
  | None => (-1, 0, [])%Z
  | Some l1 =>
    match scan_int l1 with
    | None => (1%Z, 0%Z, skipws l1)
    | Some (numPoints, l2) =>
      match scan_string l2 with
      | None => (2%Z, numPoints, [])
      | Some l3 =>
        match scan_int l3 with
        | None => (3%Z, numPoints, skipws l3)
        | Some (_, l4) => (4%Z, numPoints, l4)
        end
      end
    end
  end.

(** [fread] into a vector of [n] value-initialised [Point3s]: the entries
    that are in the file; the others stay zero. *)
Fixpoint read_points (n : nat) (l : list ascii) : list Point3s * list ascii :=
  match n with
  | O => ([], l)
  | S n' =>
    match l with
    | a :: b :: c :: d :: e :: f :: l' =>
      let '(ps, r) := read_points n' l' in
      (mkPoint3s (short_of_bytes a b) (short_of_bytes c d) (short_of_bytes e f) :: ps, r)
    | _ => (repeat (mkPoint3s 0 0 0) n, [])
    end
  end.

Fixpoint read_colors (n : nat) (l : list ascii) : list RGB * list ascii :=
  match n with
  | O => ([], l)
  | S n' =>
    match l with
    | a :: b :: c :: l' =>
      let '(cs, r) := read_colors n' l' in
      (mkRGB (unbyte a) (unbyte b) (unbyte c) :: cs, r)
    | _ => (repeat RGB_default n, [])
    end
  end.

(** [ReadFrame] on what is left of the file: the value returned,
    [outPoints], [outColors] and what is left after the call.  [None]:
    [resize] is called with a negative [numPoints] and throws. *)
Definition ReadFrame (l : list ascii)
  : option (bool * list Point3s * list RGB * list ascii) :=
  let '(nRead, numPoints, l1) := scan_header l in
  if (nRead <? 4)%Z then Some (false, [], [], l1)
  else if (numPoints =? 0)%Z then Some (true, [], [], l1)
  else if (numPoints <? 0)%Z then None
  else
    let l2 := tl l1 in
    let '(outPoints, l3) := read_points (Z.to_nat numPoints) l2 in
    let '(outColors, l4) := read_colors (Z.to_nat numPoints) l3 in
    Some (true, outPoints, outColors, tl l4).

(** A recording: [WriteFrame] called for each frame in turn. *)
Definition WriteFrames (frames : list (list Point3s * list RGB * Z)) : list ascii :=
  flat_map (fun f => let '(points, colors, timestamp) := f in
                     WriteFrame points colors timestamp) frames.

(** [RequestRecordedFrame] called [n] times on a file opened for reading:
    the frames handed to [SendRecordedFrame] with their [noMoreFrames]
    flag, and what is left of the file. *)
Fixpoint RequestRecordedFrames (n : nat) (l : list ascii)
  : option (list (list Point3s * list RGB * bool) * list ascii) :=
  match n with
  | O => Some ([], l)
  | S n' =>
    match ReadFrame l with
    | None => None
    | Some (res, points, colors, l') =>
      match RequestRecordedFrames n' l' with
      | None => None
      | Some (sent, l'') => Some ((points, colors, negb res) :: sent, l'')
      end
    end
  end.

(** White space only. *)
Definition blank (l : list ascii) : Prop := Forall (fun c => is_space c = true) l.

(** A frame as it is in memory: shorts and bytes in their range, as many
    colours as points, fewer than [2^31] points. *)
Definition short_range (s : Z) : Prop := (-32768 <= s <= 32767)%Z.
Definition byte_range (b : Z) : Prop := (0 <= b <= 255)%Z.
Definition WellFormed (points : list Point3s) (colors : list RGB) : Prop :=
  List.length colors = List.length points /\
  (Z.of_nat (List.length points) < 2 ^ 31)%Z /\
  Forall (fun p => short_range (Xs p) /\ short_range (Ys p) /\ short_range (Zs p)) points /\
  Forall (fun c => byte_range (Blue c) /\ byte_range (Green c) /\ byte_range (Red c)) colors.

End FrameIO.

(* ===================================================================== *)
(** * PointCloudTransferSocket.cs and ObjectControllerIO.cs: a point
      cloud on the wire *)
(* ===================================================================== *)

Module Transfer.
Import Wire.

Definition triple_eqb (a b : Z * Z * Z) : bool :=
  let '(a0, a1, a2) := a in
  let '(b0, b1, b2) := b in
  ((a0 =? b0) && (a1 =? b1) && (a2 =? b2))%Z.

(** [uniquePoints.Add(point)] returns false when the set has the point. *)
Definition Contains (s : list (Z * Z * Z)) (point : Z * Z * Z) : bool :=
  existsb (triple_eqb point) s.

(** The loop of [SendPointCloud] from index [i] on, over what is left of
    [vertices]: [filteredVertices] and [filteredColors].  [None]: an index
    is out of range and the call throws. *)
Fixpoint FilterPoints (scale : Z) (vertices : list Q) (colors : list Z) (i : nat)
    (uniquePoints : list (Z * Z * Z)) : option (list Z * list Z) :=
  match vertices with
  | [] => Some ([], [])
  | x :: y :: z :: rest =>
    if OutOfRange x y z then FilterPoints scale rest colors (i + 3) uniquePoints
    else
      let bx := EncodeFloatToByte x XRangeCenter scale in
      let by_ := EncodeFloatToByte y YRangeCenter scale in
      let bz := EncodeFloatToByte z ZRangeCenter scale in
      let point := (bx, by_, bz) in
      if Contains uniquePoints point
      then FilterPoints scale rest colors (i + 3) uniquePoints
      else
        match nth_error colors i, nth_error colors (i + 1), nth_error colors (i + 2) with
        | Some c0, Some c1, Some c2 =>
          match FilterPoints scale rest colors (i + 3) (point :: uniquePoints) with
          | Some (filteredVertices, filteredColors) =>
            Some (bx :: by_ :: bz :: filteredVertices, c0 :: c1 :: c2 :: filteredColors)
          | None => None
          end
        | _, _, _ => None
        end
  | _ => None
  end.

(** [BitConverter.GetBytes] of a short and of an int. *)
Definition GetBytes16 (v : Z) : list Z := [v mod 256; (v / 256) mod 256]%Z.
Definition GetBytes32 (v : Z) : list Z :=
  [v mod 256; (v / 256) mod 256; (v / 65536) mod 256; (v / 16777216) mod 256]%Z.

(** What [SendPointCloud] writes in answer to one request byte 0. *)
Definition SendPointCloud (vertices : list Q) (colors : list Z) : option (list Z) :=
  let originalVertexCount := (Z.of_nat (List.length vertices) / 3)%Z in
  let scale := DetermineScale originalVertexCount in
  match FilterPoints scale vertices colors 0 [] with
  | None => None
  | Some (filteredVertices, filteredColors) =>
    let numVerticesToSend := (Z.of_nat (List.length filteredVertices) / 3)%Z in
    Some (GetBytes16 scale ++ GetBytes32 numVerticesToSend
          ++ filteredVertices ++ filteredColors)
  end.

(** The receiver.  [ReadShortAsync] and [ReadIntAsync]; [None]: the bytes
    have not arrived. *)
Definition ReadShort (s : list Z) : option (Z * list Z) :=
  match s with
  | b0 :: b1 :: r => Some (to_int16 (b0 + 256 * b1), r)
  | _ => None
  end.

Definition ReadInt (s : list Z) : option (Z * list Z) :=
  match s with
  | b0 :: b1 :: b2 :: b3 :: r =>
    Some (FrameIO.to_int32 (b0 + 256 * b1 + 65536 * b2 + 16777216 * b3), r)
  | _ => None
  end.

Definition ReadBytes (n : nat) (s : list Z) : option (list Z * list Z) :=
  if (n <=? List.length s)%nat then Some (firstn n s, skipn n s) else None.

Definition PointXYZDataSize : nat := 3.
Definition PointRGBDataSize : nat := 3.

(** [DeserializePointCloud]: the [Vector3] and [Color32] arrays. *)
Definition DeserializePointCloud (numPoints : nat) (scale : Z)
    (verticesBytes colorsBytes : list Z) : list (Q * Q * Q) * list (Z * Z * Z * Z) :=
  (map (fun i =>
          let offset := (i * PointXYZDataSize)%nat in
          let x := DecodeByteToFloat (nth offset verticesBytes 0%Z) XRangeCenter scale in
          let y := - (1) * DecodeByteToFloat (nth (offset + 1) verticesBytes 0%Z)
                                             YRangeCenter scale in
          let z := DecodeByteToFloat (nth (offset + 2) verticesBytes 0%Z)
                                     ZRangeCenter scale in
          (x, y, z))
       (seq 0 numPoints),
   map (fun i =>
          let colorOffset := (i * PointRGBDataSize)%nat in
          (nth colorOffset colorsBytes 0%Z, nth (colorOffset + 1) colorsBytes 0%Z,
           nth (colorOffset + 2) colorsBytes 0%Z, 255%Z))
       (seq 0 numPoints)).

(** One turn of the loop of [ReceivePointClouds] after the request was
    written: the scale, the vertices and the colours handed to the
    renderer, and the bytes not yet read.  [None]: the bytes have not all
    arrived, or [numPoints] is negative and the allocation throws. *)
Definition ReceivePointCloud (s : list Z)
  : option (Z * list (Q * Q * Q) * list (Z * Z * Z * Z) * list Z) :=
  match ReadShort s with
  | None => None
  | Some (scale, s1) =>
    match ReadInt s1 with
    | None => None
    | Some (numPoints, s2) =>
      if (numPoints <? 0)%Z then None
      else
        let n := Z.to_nat numPoints in
        match ReadBytes (PointXYZDataSize * n) s2 with
        | None => None
        | Some (verticesBytes, s3) =>
          match ReadBytes (PointRGBDataSize * n) s3 with
          | None => None
          | Some (colorsBytes, s4) =>
            let '(vertices, colors) :=
              DeserializePointCloud n scale verticesBytes colorsBytes in
            Some (scale, vertices, colors, s4)
          end
        end
    end
  end.

(** A list of bytes cut into triples. *)
Fixpoint chunks3 (l : list Z) : list (Z * Z * Z) :=
  match l with
  | a :: b :: c :: rest => (a, b, c) :: chunks3 rest
  | _ => []
  end.

(** A vertex that was kept by the loop: its index in [vertices] and in
    [colors], its bytes and its colour. *)
Record Kept := mkKept { index : nat; code : Z * Z * Z; colour : Z * Z * Z }.

Definition bytes3 (t : Z * Z * Z) : list Z := let '(a, b, c) := t in [a; b; c].

(** The vertex of index [i] of [vertices] is in range, [k] holds its
    bytes at [scale] and the colour of the same index. *)
Definition KeptFrom (scale : Z) (vertices : list Q) (colors : list Z) (k : Kept) : Prop :=
  exists x y z,
    nth_error vertices (index k) = Some x /\
    nth_error vertices (index k + 1) = Some y /\
    nth_error vertices (index k + 2) = Some z /\
    OutOfRange x y z = false /\
    code k = (EncodeFloatToByte x XRangeCenter scale,
              EncodeFloatToByte y YRangeCenter scale,
              EncodeFloatToByte z ZRangeCenter scale) /\
    nth_error colors (index k) = Some (fst (fst (colour k))) /\
    nth_error colors (index k + 1) = Some (snd (fst (colour k))) /\
    nth_error colors (index k + 2) = Some (snd (colour k)).

(** What the receiver makes of the bytes and of the colour of a vertex. *)
Definition DecodePoint (scale : Z) (t : Z * Z * Z) : Q * Q * Q :=
  let '(bx, by_, bz) := t in
  (DecodeByteToFloat bx XRangeCenter scale,
   - (1) * DecodeByteToFloat by_ YRangeCenter scale,
   DecodeByteToFloat bz ZRangeCenter scale).

Definition Color32 (t : Z * Z * Z) : Z * Z * Z * Z :=
  let '(r, g, b) := t in (r, g, b, 255%Z).

End Transfer.

(* ===================================================================== *)
(** * Quantities of the synchronisation protocol *)
(* ===================================================================== *)

From Stdlib Require Permutation Sorted.

Module SyncCount.
Import Sync.

(** The number of [StartMaster] calls dispatched so far, plus one while the
    server is waiting for the subordinates. *)
Definition budget (s : CameraServer) : nat :=
  (List.length (startMasterCalls (calls s))
   + if waitForSubordinateStart s then 1 else 0)%nat.

(** The clients whose [Master] ACK is among the events. *)
Definition masterAcks (events : list Event) : list nat :=
  flat_map (fun e => match e with
                     | ConfirmSyncState i Master => [i]
                     | _ => []
                     end) events.

(** No client has the state [Master]. *)
Definition NoMaster (clients : list CameraClient) : Prop :=
  Forall (fun c => CurrentSyncState c <> Master) clients.

(** The serial number of the client of an index. *)
Definition serial (clients : list CameraClient) (i : nat) : string :=
  SerialNumber (nth i clients CameraClient_new).

(** The server is waiting for the subordinates and no client is a master
    or a subordinate. *)
Definition Quiet (s : CameraServer) : Prop :=
  waitForSubordinateStart s = true /\
  Forall (fun c => CurrentSyncState c <> Master /\ CurrentSyncState c <> Subordinate)
         (liveScanClients s).

(** The order [OrderBy] sorts by, on clients paired with their index: the
    second serial number is not below the first. *)
Definition SerialLe (x y : nat * CameraClient) : Prop :=
  String.ltb (SerialNumber (snd y)) (SerialNumber (snd x)) = false.

End SyncCount.

(* ===================================================================== *)
(** * calibration.cpp: repeated calls and the rotation helpers *)
(* ===================================================================== *)

Module CalibSeq.

(** [RotatePoint(vector<float>&, R)] of calibration.cpp. *)
Definition RotatePointVec (point : list Q) (R : list (list Q)) : list Q :=
  let p i := nth i point 0 in
  [ p 0%nat * at2 R 0 0 + p 1%nat * at2 R 0 1 + p 2%nat * at2 R 0 2;
    p 0%nat * at2 R 1 0 + p 1%nat * at2 R 1 1 + p 2%nat * at2 R 1 2;
    p 0%nat * at2 R 2 0 + p 1%nat * at2 R 2 1 + p 2%nat * at2 R 2 2 ].

(** The columns of [R] are orthonormal: [R^T R] is the identity. *)
Definition Orthonormal (R : list (list Q)) : Prop :=
  forall i j : nat, (i < 3)%nat -> (j < 3)%nat ->
    at2 R 0 i * at2 R 0 j + at2 R 1 i * at2 R 1 j + at2 R 2 i * at2 R 2 j
    == if (i =? j)%nat then 1 else 0.

Section WithOpenCV.

Variable DetectMarkersInImage : list RGB -> Z -> Z -> option MarkerInfo.
Variable SVDRotation : list (list Q) -> list (list Q).

(** [Calibrate] called on one captured frame after the other, as
    [UpdateFrame] does while a calibration is requested: the values
    returned and the calibration after the last call. *)
Fixpoint CalibrateFrames (c : Calibration)
    (frames : list (list RGB * list Point3f * Z * Z)) : list bool * Calibration :=
  match frames with
  | [] => ([], c)
  | (colorFrame, depthFrame, frameWidth, frameHeight) :: rest =>
    let '(res, c1) :=
      Calib.Calibrate DetectMarkersInImage SVDRotation c
                      (Some colorFrame) (Some depthFrame) frameWidth frameHeight in
    let '(results, c2) := CalibrateFrames c1 rest in
    (res :: results, c2)
  end.

End WithOpenCV.

End CalibSeq.

(* ===================================================================== *)
(** * orbbecCaptureManager.cpp: UpdatePointCloud *)
(* ===================================================================== *)

Module Orbbec.

Record Intrinsic := mkIntrinsic { fx : Q; fy : Q; cx : Q; cy : Q }.
Record Extrinsic := mkExtrinsic { rot : list Q; trans : list Q }.
Record CameraParam := mkCameraParam {
  depthIntrinsic : Intrinsic;
  rgbIntrinsic : Intrinsic;
  transform : Extrinsic
}.

(** The frame buffers of the capture manager. *)
Record Buffers := mkBuffers {
  depthFrameWidth : Z; depthFrameHeight : Z;
  colorFrameWidth : Z; colorFrameHeight : Z;
  depthData : list Z;
  colorData : list RGB
}.

(** [round] of math.h: halves go away from zero. *)
Definition round (q : Q) : Z :=
  if Qle_bool 0 q then Qfloor (q + (1 # 2)) else Qceiling (q - (1 # 2)).

Definition at_index (A : Type) (d : A) (l : list A) (i : Z) : A :=
  if (i <? 0)%Z then d else nth (Z.to_nat i) l d.

(** The body of the two loops for the depth pixel [(u, v)]: the vertex and
    the colour that are appended, and the cell of [alignedDepthFrame] the
    depth is offered to, if any. *)
Definition Pixel (p : CameraParam) (b : Buffers) (v u : Z)
  : Point3f * RGB * option (Z * Z * Z) :=
  let depthIdx := (v * depthFrameWidth b + u)%Z in
  let d := at_index 0%Z (depthData b) depthIdx in
  if (d =? 0)%Z then (mkPoint3f 0 0 0 false, mkRGB 0 0 0, None)
  else
    let z := inject_Z d / 1000 in
    let x := (inject_Z u - cx (depthIntrinsic p)) * z / fx (depthIntrinsic p) in
    let y := (inject_Z v - cy (depthIntrinsic p)) * z / fy (depthIntrinsic p) in
    let r i := nth i (rot (transform p)) 0 in
    let t i := nth i (trans (transform p)) 0 in
    let X' := r 0%nat * x + r 1%nat * y + r 2%nat * z + t 0%nat / 1000 in
    let Y' := r 3%nat * x + r 4%nat * y + r 5%nat * z + t 1%nat / 1000 in
    let Z' := r 6%nat * x + r 7%nat * y + r 8%nat * z + t 2%nat / 1000 in
    if Qleb Z' 0 then (mkPoint3f 0 0 0 false, mkRGB 0 0 0, None)
    else
      let projU := fx (rgbIntrinsic p) * X' / Z' + cx (rgbIntrinsic p) in
      let projV := fy (rgbIntrinsic p) * Y' / Z' + cy (rgbIntrinsic p) in
      let alignedU := round (projU * inject_Z (depthFrameWidth b)
                             / inject_Z (colorFrameWidth b)) in
      let alignedV := round (projV * inject_Z (depthFrameHeight b)
                             / inject_Z (colorFrameHeight b)) in
      let offer :=
        if (0 <=? alignedU)%Z && (0 <=? alignedV)%Z
           && (alignedU <? depthFrameWidth b)%Z && (alignedV <? depthFrameHeight b)%Z
        then Some (alignedV, alignedU, d) else None in
      let u0 := Qfloor projU in
      let v0 := Qfloor projV in
      let du := projU - inject_Z u0 in
      let dv := projV - inject_Z v0 in
      let color :=
        if (0 <=? u0)%Z && (0 <=? v0)%Z
           && (u0 + 1 <? colorFrameWidth b)%Z && (v0 + 1 <? colorFrameHeight b)%Z
        then
          let c00 := at_index RGB_default (colorData b) (v0 * colorFrameWidth b + u0) in
          let c10 := at_index RGB_default (colorData b) (v0 * colorFrameWidth b + u0 + 1) in
          let c01 := at_index RGB_default (colorData b) ((v0 + 1) * colorFrameWidth b + u0) in
          let c11 := at_index RGB_default (colorData b)
                              ((v0 + 1) * colorFrameWidth b + u0 + 1) in
          let interp (g : RGB -> Z) :=
            Wire.to_byte (Qtrunc ((1 - du) * (1 - dv) * inject_Z (g c00)
                                  + du * (1 - dv) * inject_Z (g c10)
                                  + (1 - du) * dv * inject_Z (g c01)
                                  + du * dv * inject_Z (g c11))) in
          mkRGB (interp Blue) (interp Green) (interp Red)
        else mkRGB 0 0 0 in
      (mkPoint3f X' Y' Z' false, color, offer).

(** [existingDepth = d] when the cell is empty or holds a larger depth. *)
Definition Offer (aligned : Z -> Z -> Z) (o : option (Z * Z * Z)) : Z -> Z -> Z :=
  match o with
  | None => aligned
  | Some (alignedV, alignedU, d) =>
    let existingDepth := aligned alignedV alignedU in
    if (existingDepth =? 0)%Z || (d <? existingDepth)%Z
    then fun r c => if ((r =? alignedV) && (c =? alignedU))%Z then d else aligned r c
    else aligned
  end.

(** The depth pixels in the order of the two loops, [(v, u)]. *)
Definition Pixels (b : Buffers) : list (Z * Z) :=
  flat_map (fun v => map (fun u => (Z.of_nat v, Z.of_nat u))
                         (seq 0 (Z.to_nat (depthFrameWidth b))))
           (seq 0 (Z.to_nat (depthFrameHeight b))).

(** [UpdatePointCloud]: [lastFrameVertices], [lastFrameColors] and
    [alignedDepthFrame] after the call. *)
Definition UpdatePointCloud (p : CameraParam) (b : Buffers)
  : list Point3f * list RGB * (Z -> Z -> Z) :=
  fold_left (fun st vu =>
               let '(vertices, colors, aligned) := st in
               let '(vertex, color, offer) := Pixel p b (fst vu) (snd vu) in
               (vertices ++ [vertex], colors ++ [color], Offer aligned offer))
            (Pixels b) ([], [], fun _ _ => 0%Z).

End Orbbec.

Module OrbbecExamples.
Import Orbbec.

(** A depth camera and a colour camera at the same place. *)
Definition param0 : CameraParam :=
  mkCameraParam (mkIntrinsic 1 1 0 0) (mkIntrinsic 2 2 1 1)
                (mkExtrinsic [1; 0; 0; 0; 1; 0; 0; 0; 1] [0; 0; 0]).

(** A 2 x 2 depth frame with one pixel without depth, and a 4 x 4 colour
    frame. *)
Definition buffers0 : Buffers :=
  mkBuffers 2 2 4 4 [1000; 0; 500; 2000]%Z
            (map (fun i => mkRGB (10 * i) (20 + i) (255 - i))
                 [0; 1; 2; 3; 4; 5; 6; 7; 8; 9; 10; 11; 12; 13; 14; 15]%Z).

End OrbbecExamples.

(* ===================================================================== *)
(** * CameraClient.cs: a frame handed from the client to the server *)
(* ===================================================================== *)

Module ServerFrame.

(** The callback of [SetSendLatestFrameCallback]: [FrameVertices] and
    [FrameColors] after it ran on [count] vertices and colours.  (A read
    past the end of an array is undefined; here it yields zeros.) *)
Definition LatestFrame (vertices : list Point3s) (colors : list RGB) (count : nat)
  : list Q * list Z :=
  (flat_map (fun i => let v := nth i vertices (mkPoint3s 0 0 0) in
                      [inject_Z (Xs v) / 1000; inject_Z (Ys v) / 1000;
                       inject_Z (Zs v) / 1000])
            (seq 0 count),
   flat_map (fun i => let c := nth i colors RGB_default in [Red c; Green c; Blue c])
            (seq 0 count)).

(** [SendLatestFrame] of the client: the [count] it passes to the
    callback. *)
Definition SendLatestFrame_count (lastFrameVertices : list Point3s)
    (lastFrameColors : list RGB) : Z :=
  let count := FrameIO.to_int32 (Z.of_nat (List.length lastFrameVertices)) in
  if negb (count =? Z.of_nat (List.length lastFrameColors))%Z
  then if (count <? Z.of_nat (List.length lastFrameColors))%Z
       then FrameIO.to_int32 (Z.of_nat (List.length lastFrameColors))
       else count
  else count.

End ServerFrame.

(* ===================================================================== *)
(** * FrameFileReaderBin.cs: the player's reader of recordings *)
(* ===================================================================== *)

Module Player.
Import Stream FrameIO.

(** How a call ends: it returns, with the two lists, what is left of the
    file and [currentFrameIdx]; it throws; or it is still rewinding when
    the allowance of nested calls is used up. *)
Inductive Outcome :=
| Returned (vertices : list Q) (colors : list Z) (rest : list ascii) (currentFrameIdx : Z)
| Thrown
| Unfinished.

(** [ReadLine]: the bytes up to the next new line; [ReadByte] throws at the
    end of the file. *)
Fixpoint ReadLine (rest : list ascii) : option (list ascii * list ascii) :=
  match rest with
  | [] => None
  | buffer :: r =>
    if Ascii.eqb buffer newline then Some ([], r)
    else match ReadLine r with
         | Some (line, r') => Some (buffer :: line, r')
         | None => None
         end
  end.

(** [String.Split(sep)] *)
Fixpoint Split (sep : ascii) (l : list ascii) : list (list ascii) :=
  match l with
  | [] => [[]]
  | c :: r =>
    if Ascii.eqb c sep then [] :: Split sep r
    else match Split sep r with
         | part :: parts => (c :: part) :: parts
         | [] => [[c]]
         end
  end.

(** [Int32.Parse]: white space, a sign, digits, white space; [None] when it
    throws. *)
Definition Int32_Parse (s : list ascii) : option Z :=
  match parse_int (skipws s) with
  | Some (v, r) =>
    if forallb is_space r && (- 2 ^ 31 <=? v)%Z && (v <? 2 ^ 31)%Z then Some v else None
  | None => None
  end.

(** [Buffer.BlockCopy] into [tempVertices]: the shorts of the first
    [2 * n] bytes. *)
Fixpoint shorts_of_bytes (n : nat) (l : list ascii) : list Z :=
  match n, l with
  | S n', lo :: hi :: r => short_of_bytes lo hi :: shorts_of_bytes n' r
  | S n', _ => 0%Z :: shorts_of_bytes n' []
  | O, _ => []
  end.

Definition bytesPerVertexPoint : nat := 6.
Definition bytesPerColorPoint : nat := 4.
Definition bytesPerPoint : nat := bytesPerVertexPoint + bytesPerColorPoint.

(** [ReadFrame(vertices, colors)] on the file [file] with [rest] left to
    read; [fuel] bounds the nested calls. *)
Fixpoint ReadFrame (fuel : nat) (file rest : list ascii)
    (vertices : list Q) (colors : list Z) (currentFrameIdx : Z) : Outcome :=
  match fuel with
  | O => Unfinished
  | S fuel' =>
    let '(rest, currentFrameIdx) :=
      match rest with [] => (file, 0%Z) | _ => (rest, currentFrameIdx) end in
    match ReadLine rest with
    | None => Thrown
    | Some (line1, r1) =>
      match nth_error (Split " " line1) 1 with
      | None => Thrown
      | Some part1 =>
        match Int32_Parse part1 with
        | None => Thrown
        | Some pointCount =>
          match ReadLine r1 with
          | None => Thrown
          | Some (line2, r2) =>
            match nth_error (Split " " line2) 1 with
            | None => Thrown
            | Some part2 =>
              match Int32_Parse part2 with
              | None => Thrown
              | Some frameTimestamp =>
                if (pointCount <? 0)%Z then Thrown
                else
                  let n := Z.to_nat pointCount in
                  let frameData := firstn (bytesPerPoint * n) r2 in
                  let r3 := skipn (bytesPerPoint * n) r2 in
                  if (List.length frameData <? bytesPerPoint * n)%nat
                  then ReadFrame fuel' file file vertices colors 0
                  else
                    let vertexDataSize := (n * bytesPerVertexPoint)%nat in
                    let tempVertices := shorts_of_bytes (3 * n) frameData in
                    let tempColors := map unbyte (skipn vertexDataSize frameData) in
                    let idxs :=
                      flat_map (fun i => map (fun j => (i, j)) [0; 1; 2]%nat) (seq 0 n) in
                    let vertices' :=
                      vertices ++ map (fun ij => inject_Z (nth (3 * fst ij + snd ij)
                                                               tempVertices 0%Z) / 1000)
                                      idxs in
                    let colors' :=
                      colors ++ map (fun ij => nth (4 * fst ij + snd ij) tempColors 0%Z)
                                    idxs in
                    match r3 with
                    | [] => Thrown
                    | _ :: r4 => Returned vertices' colors' r4 (currentFrameIdx + 1)
                    end
              end
            end
          end
        end
      end
    end
  end.

End Player.

(* ===================================================================== *)
(** * MainWindowForm.cs: the pose update at the end of RefineCameraPoses *)
(* ===================================================================== *)

Module Refine.

(** [R[j, k] = v] on a [float[3, 3]]. *)
Definition set2 (R : list (list Q)) (j k : nat) (v : Q) : list (list Q) :=
  map (fun j' => map (fun k' => if ((j' =? j) && (k' =? k))%nat then v else at2 R j' k')
                     [0; 1; 2]%nat)
      [0; 1; 2]%nat.

(** The first loop over [j]: [tempT], computed from the rotation before it
    is changed, is added to [worldTransforms[i].T]. *)
Definition TranslationUpdate (Ts : list Q) (worldR : list (list Q)) (worldT : list Q)
  : list Q :=
  map (fun j =>
         let tempT_j := fold_left (fun acc k => acc + nth k Ts 0 * at2 worldR k j)
                                  [0; 1; 2]%nat 0 in
         nth j worldT 0 + tempT_j)
      [0; 1; 2]%nat.

(** The second loop: for each [j], [k] the sum over [l] is taken from
    [worldTransforms[i].R] as it is at that moment, and stored into it at
    once. *)
Definition RotationUpdate (Rs : list Q) (worldR : list (list Q)) : list (list Q) :=
  fold_left
    (fun R jk =>
       let '(j, k) := jk in
       let tempR_jk := fold_left (fun acc l => acc + nth (l * 3 + j) Rs 0 * at2 R l k)
                                 [0; 1; 2]%nat 0 in
       set2 R j k tempR_jk)
    [(0, 0); (0, 1); (0, 2); (1, 0); (1, 1); (1, 2); (2, 0); (2, 1); (2, 2)]%nat
    worldR.

(** The sum the loop writes, taken from the rotation before the update:
    entry [(j, k)] of the product of the transpose of [Rs] and [worldR]. *)
Definition Product (Rs : list Q) (worldR : list (list Q)) (j k : nat) : Q :=
  nth (0 * 3 + j) Rs 0 * at2 worldR 0 k + nth (1 * 3 + j) Rs 0 * at2 worldR 1 k
  + nth (2 * 3 + j) Rs 0 * at2 worldR 2 k.

End Refine.

(* ===================================================================== *)
(** * ICP.cpp: the correspondences of one iteration *)
(* ===================================================================== *)

Module ICP.

(** [GetStandardDeviation], on the real numbers the floats denote. *)
Definition GetStandardDeviation (data : list R) : R :=
  match data with
  | [] => 0%R
  | _ =>
    let n := INR (List.length data) in
    let mean := (fold_left Rplus data 0 / n)%R in
    let variance :=
      (fold_left (fun acc value => acc + (value - mean) * (value - mean)) data 0 / n)%R in
    sqrt variance
  end.

(** [RejectOutlierMatches]: [matches1] and [matches2] after the call. *)
Definition RejectOutlierMatches (matches1 matches2 : list Point3f)
    (matchDistances : list R) (maxStdDev : R) : list Point3f * list Point3f :=
  let distanceStdDev := GetStandardDeviation matchDistances in
  let kept :=
    filter (fun i => if Rgt_dec (nth i matchDistances 0%R) (maxStdDev * distanceStdDev)
                     then false else true)
           (seq 0 (List.length matches1)) in
  (map (fun i => nth i matches1 Point3f_default) kept,
   map (fun i => nth i matches2 Point3f_default) kept).

(** The point [queryPoint] built from row [i] of [sourceVertsMat]. *)
Definition queryPoint (sourceVerts : list Point3f) (i : nat) : Point3f :=
  let s := nth i sourceVerts Point3f_default in
  mkPoint3f (X s) (Y s) (Z_ s) false.

(** One turn of the loop that keeps the best match of each target point,
    on [(matchedTargetVerts, matchedSourceVerts, matchDistances,
    matchMap)]; [indices] and [distances] are the nearest neighbours the
    KD-tree search returned. *)
Definition MatchStep (targetVerts sourceVerts : list Point3f)
    (indices : list nat) (distances : list Q)
    (st : list Point3f * list Point3f * list Q * list Z) (i : nat)
  : list Point3f * list Point3f * list Q * list Z :=
  let '(matchedTargetVerts, matchedSourceVerts, matchDistances, matchMap) := st in
  let targetIdx := nth i indices 0%nat in
  let currentDistance := nth i distances 0 in
  let existingMatchPos := nth targetIdx matchMap (-1)%Z in
  if negb (existingMatchPos =? -1)%Z
     && Qltb (nth (Z.to_nat existingMatchPos) matchDistances 0) currentDistance
  then st
  else if (existingMatchPos =? -1)%Z
  then
    let matchedSourceVerts' := matchedSourceVerts ++ [queryPoint sourceVerts i] in
    (matchedTargetVerts ++ [nth targetIdx targetVerts Point3f_default],
     matchedSourceVerts',
     matchDistances ++ [currentDistance],
     Knn.assign matchMap targetIdx (Z.of_nat (List.length matchedSourceVerts') - 1)%Z)
  else
    (matchedTargetVerts,
     Knn.assign matchedSourceVerts (Z.to_nat existingMatchPos) (queryPoint sourceVerts i),
     Knn.assign matchDistances (Z.to_nat existingMatchPos) currentDistance,
     matchMap).

Definition MatchLoop (targetVerts sourceVerts : list Point3f)
    (indices : list nat) (distances : list Q)
  : list Point3f * list Point3f * list Q * list Z :=
  fold_left (MatchStep targetVerts sourceVerts indices distances)
            (seq 0 (List.length sourceVerts))
            ([], [], [], repeat (-1)%Z (List.length targetVerts)).

(** What holds of the four vectors after the first [k] source points. *)
Definition MatchInv (targetVerts sourceVerts : list Point3f)
    (indices : list nat) (distances : list Q) (k : nat)
    (st : list Point3f * list Point3f * list Q * list Z) : Prop :=
  let '(mt, ms, md, mm) := st in
  List.length mt = List.length md /\ List.length ms = List.length md /\
  List.length mm = List.length targetVerts /\
  (forall t, (t < List.length targetVerts)%nat ->
     nth t mm (-1)%Z = (-1)%Z \/
     exists p, nth t mm (-1)%Z = Z.of_nat p /\ (p < List.length md)%nat /\
       nth p mt Point3f_default = nth t targetVerts Point3f_default /\
       exists i', (i' < k)%nat /\ nth i' indices 0%nat = t /\
                  nth p md 0 = nth i' distances 0 /\
                  nth p ms Point3f_default = queryPoint sourceVerts i') /\
  (forall t t', (t < List.length targetVerts)%nat -> (t' < List.length targetVerts)%nat ->
     nth t mm (-1)%Z = nth t' mm (-1)%Z -> nth t mm (-1)%Z <> (-1)%Z -> t = t') /\
  (forall i, (i < k)%nat ->
     exists p, nth (nth i indices 0%nat) mm (-1)%Z = Z.of_nat p /\
               (p < List.length md)%nat /\
               nth p md 0 <= nth i distances 0).

End ICP.

(* ===================================================================== *)
(** * markerDetector.cpp: the pattern of a code *)
(* ===================================================================== *)

Module MarkerCode.

(** The nine cells that carry a code: the four bits of the code, cell 0
    the most significant, their complements, and 1 in the last cell when
    the number of 1 bits is even. *)
Definition PatternOfCode (code : Z) : list Z :=
  let b0 := (code / 8 mod 2)%Z in
  let b1 := (code / 4 mod 2)%Z in
  let b2 := (code / 2 mod 2)%Z in
  let b3 := (code mod 2)%Z in
  [b0; b1; b2; b3; 1 - b0; 1 - b1; 1 - b2; 1 - b3; 1 - (b0 + b1 + b2 + b3) mod 2]%Z.

End MarkerCode.
(* ===================================================================== *)
(** * Facts about the voxel grid filter *)
(* ===================================================================== *)

Module VoxelGridFilterFacts.
Import VoxelGridFilter.

Lemma InGrid_bounds f ix iy iz :
  InGrid f (ix, iy, iz) = true ->
  (0 <= ix < gridSizeX f /\ 0 <= iy < gridSizeY f /\ 0 <= iz < gridSizeZ f)%Z.
Proof.
  unfold InGrid. rewrite negb_true_iff, !orb_false_iff.
  rewrite !Z.ltb_ge, !Z.geb_leb, !Z.leb_gt. lia.
Qed.

(** Inside the grid the one-dimensional index determines the cell. *)
Lemma VoxelIndex_inj f c1 c2 :
  InGrid f c1 = true -> InGrid f c2 = true ->
  (let '(x1, y1, z1) := c1 in VoxelIndex f x1 y1 z1)
  = (let '(x2, y2, z2) := c2 in VoxelIndex f x2 y2 z2) ->
  c1 = c2.
Proof.
  destruct c1 as [[x1 y1] z1], c2 as [[x2 y2] z2]. intros H1 H2.
  apply InGrid_bounds in H1. apply InGrid_bounds in H2.
  unfold VoxelIndex. intros E.
  set (gx := gridSizeX f) in *. set (gy := gridSizeY f) in *.
  assert (Hx : x1 = x2).
  { assert (Hm : ((z1 * gy + y1) * gx + x1 = (z2 * gy + y2) * gx + x2)%Z) by lia.
    apply (f_equal (fun v => (v mod gx)%Z)) in Hm.
    rewrite !(Z.add_comm _ x1), !(Z.add_comm _ x2), !Z.mod_add in Hm by lia.
    rewrite !Z.mod_small in Hm by lia. exact Hm. }
  subst x2.
  assert (Hq : (z1 * gy + y1 = z2 * gy + y2)%Z) by nia.
  assert (Hy : y1 = y2).
  { apply (f_equal (fun v => (v mod gy)%Z)) in Hq.
    rewrite !(Z.add_comm _ y1), !(Z.add_comm _ y2), !Z.mod_add in Hq by lia.
    rewrite !Z.mod_small in Hq by lia. exact Hq. }
  subst y2.
  assert (z1 = z2) by nia. congruence.
Qed.

(** [Insert] leaves the geometry of the grid as it is. *)
Lemma Insert_geometry f x y z :
  let f' := snd (Insert f x y z) in
  gridSizeX f' = gridSizeX f /\ gridSizeY f' = gridSizeY f /\
  gridSizeZ f' = gridSizeZ f /\ invVoxelSize f' = invVoxelSize f /\
  minX f' = minX f /\ minY f' = minY f /\ minZ f' = minZ f.
Proof.
  unfold Insert. destruct (Cell f x y z) as [[ix iy] iz].
  destruct (negb (InGrid f (ix, iy, iz))); [cbn; tauto|].
  destruct (voxelGrid f (VoxelIndex f ix iy iz)); cbn; tauto.
Qed.

Lemma Insert_Cell f x y z x' y' z' :
  Cell (snd (Insert f x y z)) x' y' z' = Cell f x' y' z'.
Proof.
  destruct (Insert_geometry f x y z) as (_ & _ & _ & Hi & Hx & Hy & Hz).
  unfold Cell. now rewrite Hi, Hx, Hy, Hz.
Qed.

Lemma Insert_InGrid f x y z c :
  InGrid (snd (Insert f x y z)) c = InGrid f c.
Proof.
  destruct (Insert_geometry f x y z) as (Hx & Hy & Hz & _).
  destruct c as [[ix iy] iz]. unfold InGrid. now rewrite Hx, Hy, Hz.
Qed.

Lemma Insert_VoxelIndex f x y z ix iy iz :
  VoxelIndex (snd (Insert f x y z)) ix iy iz = VoxelIndex f ix iy iz.
Proof.
  destruct (Insert_geometry f x y z) as (Hx & Hy & _).
  unfold VoxelIndex. now rewrite Hx, Hy.
Qed.

(** What a call that returns true has found and done. *)
Lemma Insert_true f x y z :
  fst (Insert f x y z) = true ->
  let '(ix, iy, iz) := Cell f x y z in
  InGrid f (ix, iy, iz) = true /\
  voxelGrid f (VoxelIndex f ix iy iz) = false /\
  voxelGrid (snd (Insert f x y z)) = set_bit (voxelGrid f) (VoxelIndex f ix iy iz).
Proof.
  unfold Insert. destruct (Cell f x y z) as [[ix iy] iz].
  destruct (InGrid f (ix, iy, iz)); cbn; [|discriminate].
  destruct (voxelGrid f (VoxelIndex f ix iy iz)); cbn; [discriminate|].
  auto.
Qed.

(** A call that returns false changes nothing. *)
Lemma Insert_false f x y z :
  fst (Insert f x y z) = false -> snd (Insert f x y z) = f.
Proof.
  unfold Insert. destruct (Cell f x y z) as [[ix iy] iz].
  destruct (negb (InGrid f (ix, iy, iz))); cbn; [reflexivity|].
  destruct (voxelGrid f (VoxelIndex f ix iy iz)); cbn; [reflexivity|discriminate].
Qed.

(** [Insert] returns true exactly when the cell it computes passes the
    bounds check and its bit is clear. *)
Lemma Insert_spec f x y z :
  fst (Insert f x y z) =
  let '(ix, iy, iz) := Cell f x y z in
  InGrid f (ix, iy, iz) && negb (voxelGrid f (VoxelIndex f ix iy iz)).
Proof.
  unfold Insert. destruct (Cell f x y z) as [[ix iy] iz].
  destruct (InGrid f (ix, iy, iz)); cbn; [|reflexivity].
  destruct (voxelGrid f (VoxelIndex f ix iy iz)); reflexivity.
Qed.

(** Bits are only ever set. *)
Lemma Insert_monotone f x y z idx :
  voxelGrid f idx = true -> voxelGrid (snd (Insert f x y z)) idx = true.
Proof.
  intros H. unfold Insert. destruct (Cell f x y z) as [[ix iy] iz].
  destruct (negb (InGrid f (ix, iy, iz))); cbn; [exact H|].
  destruct (voxelGrid f (VoxelIndex f ix iy iz)) eqn:E; cbn; [exact H|].
  unfold set_bit. destruct (idx =? VoxelIndex f ix iy iz)%Z; auto.
Qed.

(** After a call with a point returned true, the next call with the same
    point returns false. *)
Lemma Insert_again f x y z :
  fst (Insert f x y z) = true ->
  fst (Insert (snd (Insert f x y z)) x y z) = false.
Proof.
  intros H. pose proof (Insert_true f x y z H) as T.
  rewrite Insert_spec, Insert_Cell.
  destruct (Cell f x y z) as [[ix iy] iz]. destruct T as (_ & _ & T).
  rewrite Insert_VoxelIndex, T. unfold set_bit. rewrite Z.eqb_refl.
  now rewrite andb_false_r.
Qed.

End VoxelGridFilterFacts.

(** ** C2: a point below the grid is accepted *)

(** C2. [Insert] is to return false for every point outside the grid
    bounds.  The indices are cast to [int], which rounds toward zero, so a
    point less than one cell below [minX] gets index 0 and passes the test
    [ix < 0]: on the cleared filter of a client, the point
    [(-0.1505, 0, 0.15)] lies below [minX = -0.15], outside the cube of the
    grid, and [Insert] returns true for it. *)
Theorem Insert_accepts_point_below_grid :
  let f := VoxelGridFilter.Reset Examples.filter0 in
  let x := - (1505 # 10000) in
  let y := 0 in
  let z := 15 # 100 in
  x < VoxelGridFilter.minX f /\
  ~ VoxelGridFilter.InsideCube f x y z /\
  VoxelGridFilter.Cell f x y z = (0, 127, 127)%Z /\
  fst (VoxelGridFilter.Insert f x y z) = true.
Proof.
  cbv zeta. split; [reflexivity|]. split.
  - intros (H & _). apply Qle_not_lt in H. apply H. reflexivity.
  - split; vm_compute; reflexivity.
Qed.

(* ===================================================================== *)
(** * ProcessFrame *)
(* ===================================================================== *)

Module ProcessFrameFacts.
Import Client VoxelGridFilter VoxelGridFilterFacts.

Lemma CopyValid_fst l colors : map fst (CopyValid l colors) = valid l.
Proof.
  revert colors. induction l as [|p l IH]; intros colors; cbn; [reflexivity|].
  destruct (negb (Invalid p)); cbn; now rewrite IH.
Qed.

(** Replacing vertices by the placeholder only removes valid vertices. *)
Lemma valid_map_In (g : Point3f -> Point3f) l p :
  (forall q, g q = q \/ Invalid (g q) = true) ->
  In p (valid (map g l)) -> In p (valid l).
Proof.
  intros Hg. unfold valid. induction l as [|q l IH]; cbn; [tauto|].
  destruct (Hg q) as [E|E].
  - rewrite E. destruct (negb (Invalid q)); cbn; tauto.
  - rewrite E. cbn. intros H. apply IH in H.
    destruct (negb (Invalid q)); cbn; tauto.
Qed.

Lemma valid_map_NoDup (A : Type) (h : Point3f -> A) (g : Point3f -> Point3f) l :
  (forall q, g q = q \/ Invalid (g q) = true) ->
  NoDup (map h (valid l)) -> NoDup (map h (valid (map g l))).
Proof.
  intros Hg. induction l as [|q l IH]; cbn; [auto|].
  destruct (Hg q) as [E|E]; rewrite E.
  - destruct (negb (Invalid q)); cbn; [|exact IH].
    rewrite !NoDup_cons_iff. intros [Hn Hd]. split; [|auto].
    intros Hin. apply Hn. apply in_map_iff in Hin as (p & <- & Hp).
    apply in_map. eapply valid_map_In; eauto.
  - cbn. intros H. apply IH. destruct (negb (Invalid q)); cbn in H; [|exact H].
    now apply NoDup_cons_iff in H.
Qed.

Lemma DensityFilter_step l q :
  let g := fun pt : Point3f =>
    if negb (Invalid pt) then
      if (CountVoxels l (VoxelKey pt) <? minPointsPerVoxel)%Z then invalidPoint else pt
    else pt in
  g q = q \/ Invalid (g q) = true.
Proof.
  cbv beta zeta. destruct (negb (Invalid q)); [|now left].
  destruct (_ <? _)%Z; [now right|now left].
Qed.

(** The first loop, camera not calibrated: nothing is changed and every
    vertex is counted. *)
Lemma CalibrateAndClip_uncalibrated cal b f vertices :
  isCalibrated cal = false ->
  CalibrateAndClip cal b f vertices = (vertices, Z.of_nat (List.length vertices), f).
Proof.
  intros Hc. induction vertices as [|v rest IH]; [reflexivity|].
  cbn [CalibrateAndClip]. rewrite Hc, IH. f_equal. f_equal.
  cbn [List.length]. lia.
Qed.

(** The first loop, camera calibrated: the vertices it keeps lie in cells of
    the grid that were free before, one vertex per cell. *)
Lemma CalibrateAndClip_calibrated cal b vertices :
  isCalibrated cal = true ->
  forall f,
    let l := fst (fst (CalibrateAndClip cal b f vertices)) in
    NoDup (map (FilterCell f) (valid l)) /\
    (forall p, In p (valid l) ->
       InGrid f (FilterCell f p) = true /\
       voxelGrid f (let '(ix, iy, iz) := FilterCell f p in VoxelIndex f ix iy iz) = false).
Proof.
  intros Hc. induction vertices as [|v rest IH]; intros f.
  - cbn. split; [constructor|tauto].
  - cbn [CalibrateAndClip]. rewrite Hc.
    set (temp := ApplyCalibration cal v).
    destruct (OutsideBounds b temp).
    + specialize (IH f). cbv zeta in IH.
      destruct (CalibrateAndClip cal b f rest) as [[l n] f']. cbn in *. exact IH.
    + pose proof (Insert_true f (X temp) (Y temp) (Z_ temp)) as HT.
      pose proof (Insert_false f (X temp) (Y temp) (Z_ temp)) as HF.
      pose proof (Insert_Cell f (X temp) (Y temp) (Z_ temp)) as HC.
      pose proof (Insert_InGrid f (X temp) (Y temp) (Z_ temp)) as HG.
      pose proof (Insert_VoxelIndex f (X temp) (Y temp) (Z_ temp)) as HV.
      destruct (Insert f (X temp) (Y temp) (Z_ temp)) as [inserted f1].
      cbn [fst snd] in *.
      specialize (IH f1). cbv zeta in IH.
      destruct (CalibrateAndClip cal b f1 rest) as [[l n] f']. cbn [fst] in IH.
      destruct inserted; cbn [negb fst].
      * specialize (HT eq_refl).
        assert (Hcell : forall p, FilterCell f1 p = FilterCell f p)
          by (intros p; apply HC).
        change (valid (temp :: l)) with (temp :: valid l).
        fold (FilterCell f temp) in HT.
        destruct (FilterCell f temp) as [[ix iy] iz] eqn:Et.
        destruct HT as (Hin & Hfree & Hset).
        destruct IH as [IHd IHp]. split.
        -- cbn [map]. constructor.
           ++ intros Hmem. apply in_map_iff in Hmem as (p & Ep & Hp).
              destruct (IHp p Hp) as [Hgp Hbp].
              rewrite Hcell, Ep, Et, HV, Hset in Hbp.
              unfold set_bit in Hbp. rewrite Z.eqb_refl in Hbp. discriminate.
           ++ erewrite map_ext; [exact IHd|]. intros p. now rewrite Hcell.
        -- intros p [<-|Hp].
           ++ rewrite Et. auto.
           ++ destruct (IHp p Hp) as [Hgp Hbp]. rewrite Hcell, HG in Hgp.
              split; [exact Hgp|]. rewrite Hcell in Hbp.
              destruct (FilterCell f p) as [[px py] pz].
              rewrite HV, Hset in Hbp. unfold set_bit in Hbp.
              destruct (_ =? _)%Z; [discriminate|exact Hbp].
      * rewrite (HF eq_refl) in IH. exact IH.
Qed.

End ProcessFrameFacts.

(** C10. If the camera is not calibrated, [ProcessFrame] applies no world
    transform, no bounds clipping and no voxel de-duplication: the vector
    [allVertices] that the first loop hands to the density filter is the
    captured vector itself, every vertex is counted as good, and no bit of
    the voxel grid is set. *)
Theorem ProcessFrame_uncalibrated_passes_all
    (c : Client.LiveScanClient) (vertices : list Point3f) (colors : list RGB) :
  isCalibrated (Client.calibration c) = false ->
  Client.CalibrateAndClip (Client.calibration c) (Client.bounds c)
        (VoxelGridFilter.Reset (Client.voxelGridFilter c)) vertices
    = (vertices, Z.of_nat (List.length vertices),
       VoxelGridFilter.Reset (Client.voxelGridFilter c))
  /\ Client.SurvivingVertices c vertices colors
     = Client.CopyValid (Client.DensityFilter vertices) colors.
Proof.
  intros Hc. unfold Client.SurvivingVertices.
  rewrite (ProcessFrameFacts.CalibrateAndClip_uncalibrated _ _ _ _ Hc).
  split; reflexivity.
Qed.

Lemma ProcessFrame_uncalibrated_passes_all_witness :
  isCalibrated (Client.calibration Examples.client_uncalibrated) = false /\
  Client.SurvivingVertices Examples.client_uncalibrated
      Examples.frame_same Examples.colors12
  = Client.CopyValid (Client.DensityFilter Examples.frame_same) Examples.colors12.
Proof.
  split; [reflexivity|].
  apply (ProcessFrame_uncalibrated_passes_all
           Examples.client_uncalibrated Examples.frame_same Examples.colors12).
  reflexivity.
Defined.

(** C1, as stated, fails.  Uncalibrated, twelve captures of one point are
    all published.  Calibrated, the grid of the filter starts at
    [centre - HalfRange], half a cell off the multiples of [minPrecision]:
    the points [(0.0002, 0.0002, 0.152)] and [(0.0008, 0.0002, 0.152)] fall
    into different cells of the filter and into the same cell
    [(0, 0, 129)] of side [minPrecision]; both are published, as the same
    millimetre point. *)
Lemma ProcessFrame_publishes_two_points_of_one_voxel :
  (let out := fst (Client.ProcessFrameFloat Examples.NoFilter
                     Examples.client_uncalibrated Examples.frame_same Examples.colors12) in
   List.length out = 12%nat /\ ~ NoDup (map Client.FloorVoxel out))
  /\
  (let out := fst (Client.ProcessFrameFloat Examples.NoFilter
                     Examples.client_calibrated Examples.frame12 Examples.colors12) in
   X (nth 0 out Point3f_default) == 2 # 10000 /\
   X (nth 4 out Point3f_default) == 8 # 10000 /\
   Client.FloorVoxel (nth 0 out Point3f_default) = (0, 0, 129)%Z /\
   Client.FloorVoxel (nth 4 out Point3f_default) = (0, 0, 129)%Z /\
   ~ NoDup (map Client.FloorVoxel out))
  /\
  (let pub := fst (Client.ProcessFrame Examples.NoFilter
                     Examples.client_calibrated Examples.frame12 Examples.colors12) in
   nth 0 pub (mkPoint3s 0 0 0) = nth 4 pub (mkPoint3s 0 0 0)).
Proof.
  split; [|split].
  - cbv zeta. split; [vm_compute; reflexivity|].
    intros H.
    assert (E : map Client.FloorVoxel
                  (fst (Client.ProcessFrameFloat Examples.NoFilter
                          Examples.client_uncalibrated Examples.frame_same
                          Examples.colors12))
                = repeat (85, 85, 425)%Z 12) by (vm_compute; reflexivity).
    rewrite E in H. cbn in H. inversion H as [|? ? Hn _]. apply Hn. now left.
  - cbv zeta. repeat split; try (vm_compute; reflexivity).
    intros H.
    assert (E : map Client.FloorVoxel
                  (fst (Client.ProcessFrameFloat Examples.NoFilter
                          Examples.client_calibrated Examples.frame12
                          Examples.colors12))
                = [(0, 0, 129); (0, 0, 129); (0, 1, 129); (0, 2, 129);
                   (0, 0, 129); (0, 0, 129); (0, 1, 129); (0, 2, 129);
                   (1, 0, 129); (1, 0, 129); (1, 1, 129); (1, 2, 129)]%Z)
      by (vm_compute; reflexivity).
    rewrite E in H. inversion H as [|? ? Hn _]. apply Hn. now left.
  - vm_compute. reflexivity.
Qed.

(** C1, amended.  When the camera is calibrated, no two of the vertices
    that survive the clipping, the voxel filter and the density filter
    (the vertices the copy loop writes to the output cloud) fall into the
    same cell of the voxel grid filter, that is, no two have the same
    index triple
    [(int((x - minX) * invVoxelSize), int((y - minY) * invVoxelSize),
      int((z - minZ) * invVoxelSize))]. *)
Theorem ProcessFrame_survivors_in_distinct_filter_cells
    (c : Client.LiveScanClient) (vertices : list Point3f) (colors : list RGB) :
  isCalibrated (Client.calibration c) = true ->
  NoDup (map (Client.FilterCell (Client.voxelGridFilter c))
             (map fst (Client.SurvivingVertices c vertices colors))).
Proof.
  intros Hc. unfold Client.SurvivingVertices.
  pose proof (ProcessFrameFacts.CalibrateAndClip_calibrated
                (Client.calibration c) (Client.bounds c) vertices Hc
                (VoxelGridFilter.Reset (Client.voxelGridFilter c))) as [Hd _].
  destruct (Client.CalibrateAndClip _ _ _ vertices) as [[l n] f']. cbn [fst] in Hd.
  rewrite ProcessFrameFacts.CopyValid_fst. unfold Client.DensityFilter.
  apply ProcessFrameFacts.valid_map_NoDup.
  - intros q. apply ProcessFrameFacts.DensityFilter_step.
  - exact Hd.
Qed.

Lemma ProcessFrame_survivors_in_distinct_filter_cells_witness :
  isCalibrated (Client.calibration Examples.client_calibrated) = true /\
  List.length (Client.SurvivingVertices Examples.client_calibrated
                 Examples.frame12 Examples.colors12) = 12%nat /\
  NoDup (map (Client.FilterCell (Client.voxelGridFilter Examples.client_calibrated))
             (map fst (Client.SurvivingVertices Examples.client_calibrated
                         Examples.frame12 Examples.colors12))).
Proof.
  split; [reflexivity|]. split; [vm_compute; reflexivity|].
  apply (ProcessFrame_survivors_in_distinct_filter_cells
           Examples.client_calibrated Examples.frame12 Examples.colors12).
  reflexivity.
Defined.

(* ===================================================================== *)
(** * Calibrate *)
(* ===================================================================== *)

Module CalibFacts.
Import Calib Linear.

Lemma FindPose_Some id poses pose :
  FindPose id poses = Some pose -> In pose poses /\ MarkerId pose = id.
Proof.
  induction poses as [|p rest IH]; cbn; [discriminate|].
  destruct (id =? MarkerId p)%Z eqn:E.
  - intros [= <-]. apply Z.eqb_eq in E. auto.
  - intros H. destruct (IH H). auto.
Qed.

(** The loop after [Procrustes] computes the matrix product. *)
Lemma ComposeRotation_mat_mul P Rc i j :
  (i < 3)%nat -> (j < 3)%nat ->
  at2 (ComposeRotation P Rc) i j == mat_mul P Rc i j.
Proof.
  intros Hi Hj. unfold mat_mul.
  destruct i as [|[|[|i]]]; [| | |lia];
    (destruct j as [|[|[|j]]]; [| | |lia]);
    unfold ComposeRotation, at2; cbn; ring.
Qed.

(** [InverseRotatePoint] multiplies by the transpose. *)
Lemma InverseRotatePoint_transpose v R i :
  (i < 3)%nat ->
  nth i (InverseRotatePoint v R) 0 == mat_transpose_vec R v i.
Proof.
  intros Hi. unfold mat_transpose_vec.
  destruct i as [|[|[|i]]]; [| | |lia]; cbn; ring.
Qed.

(** The pipeline adds the translation, then rotates. *)
Lemma ApplyCalibration_rotate_after_translate cal v :
  let p := Client.ApplyCalibration cal v in
  let w := vec_add (vec_of_point v) (worldT cal) in
  X p == mat_vec (worldR cal) w 0 /\
  Y p == mat_vec (worldR cal) w 1 /\
  Z_ p == mat_vec (worldR cal) w 2.
Proof.
  cbv zeta. unfold Client.ApplyCalibration, RotatePoint, mat_vec, vec_add, vec_of_point.
  cbn. repeat split; ring.
Qed.

End CalibFacts.



(** C8, as stated, fails: [usedMarkerId] is assigned as soon as the detected
    marker is found among the configured poses, before the depth at the
    corners is read and before the samples are counted.  A fresh
    calibration ([usedMarkerId = -1]) that sees marker 3 in a frame without
    depth returns false with [usedMarkerId = 3]; so does a first sample with
    valid depth. *)
Lemma Calibrate_not_finalised_sets_usedMarkerId :
  (let r := Calib.Calibrate Examples.detect_marker3 Examples.svd_identity
              Examples.calibration_fresh (Some Examples.colors4x4)
              (Some Examples.depth4x4_invalid) 4 4 in
   fst r = false /\ usedMarkerId Examples.calibration_fresh = (-1)%Z /\
   usedMarkerId (snd r) = 3%Z /\ numSamples (snd r) = 0%Z)
  /\
  (let r := Calib.Calibrate Examples.detect_marker3 Examples.svd_identity
              Examples.calibration_fresh (Some Examples.colors4x4)
              (Some Examples.depth4x4) 4 4 in
   fst r = false /\ usedMarkerId (snd r) = 3%Z /\ numSamples (snd r) = 1%Z).
Proof.
  split; cbv zeta; repeat split; vm_compute; reflexivity.
Qed.

(** C8, amended.  Every call of [Calibrate] that does not finalise the
    calibration (returns false) leaves [worldR], [worldT] and
    [isCalibrated] unchanged, and the buffer of samples only grows.
    [usedMarkerId] is unchanged when a frame is missing, no marker is
    detected or the id of the marker is not among the configured poses;
    otherwise it is the id of the detected marker. *)
Theorem Calibrate_not_finalised_keeps_transform
    (DetectMarkersInImage : list RGB -> Z -> Z -> option MarkerInfo)
    (SVDRotation : list (list Q) -> list (list Q))
    (c : Calibration) (colorFrame : option (list RGB))
    (depthFrame : option (list Point3f)) (frameWidth frameHeight : Z) :
  let r := Calib.Calibrate DetectMarkersInImage SVDRotation c colorFrame depthFrame
                           frameWidth frameHeight in
  fst r = false ->
  worldR (snd r) = worldR c /\ worldT (snd r) = worldT c /\
  isCalibrated (snd r) = isCalibrated c /\
  markerPoses (snd r) = markerPoses c /\
  (exists added, markerSamplePositions (snd r) = markerSamplePositions c ++ added) /\
  usedMarkerId (snd r) =
    match colorFrame, depthFrame with
    | Some colors, Some _ =>
      match DetectMarkersInImage colors frameHeight frameWidth with
      | Some marker =>
        match Calib.FindPose (Id marker) (markerPoses c) with
        | Some _ => Id marker
        | None => usedMarkerId c
        end
      | None => usedMarkerId c
      end
    | _, _ => usedMarkerId c
    end.
Proof.
  cbv zeta. unfold Calib.Calibrate.
  assert (Hnil : exists added : list (list Point3f),
             markerSamplePositions c = markerSamplePositions c ++ added)
    by (exists []; now rewrite app_nil_r).
  destruct colorFrame as [colors|]; [|cbn; auto 10].
  destruct depthFrame as [depth|]; [|cbn; auto 10].
  destruct (DetectMarkersInImage colors frameHeight frameWidth) as [marker|];
    [|cbn; auto 10].
  destruct (Calib.FindPose (Id marker) (markerPoses c)) as [pose|] eqn:EP;
    [|cbn; auto 10].
  apply CalibFacts.FindPose_Some in EP as [_ EP].
  cbn [worldT worldR usedMarkerId markerPoses isCalibrated numSamples
       markerSamplePositions].
  destruct (Calib.Get3DMarkerCorners (Corners marker) depth frameWidth)
    as [marker3D|]; [|cbn; auto 10].
  destruct (numSamples c + 1 <? Calib.NumRequiredSamples)%Z.
  - cbn. intros _. repeat (split; [reflexivity|]). split; [|exact EP].
    now exists [marker3D].
  - destruct (Calib.Procrustes SVDRotation marker _). cbn. discriminate.
Qed.

Lemma Calibrate_not_finalised_keeps_transform_witness :
  let r := Calib.Calibrate Examples.detect_marker3 Examples.svd_identity
             Examples.calibration_fresh (Some Examples.colors4x4)
             (Some Examples.depth4x4) 4 4 in
  fst r = false /\ worldR (snd r) = worldR Examples.calibration_fresh /\
  usedMarkerId (snd r) = 3%Z.
Proof.
  cbv zeta.
  pose proof (Calibrate_not_finalised_keeps_transform
                Examples.detect_marker3 Examples.svd_identity
                Examples.calibration_fresh (Some Examples.colors4x4)
                (Some Examples.depth4x4) 4 4) as H.
  cbv zeta in H.
  assert (E : fst (Calib.Calibrate Examples.detect_marker3 Examples.svd_identity
                     Examples.calibration_fresh (Some Examples.colors4x4)
                     (Some Examples.depth4x4) 4 4) = false)
    by (vm_compute; reflexivity).
  destruct (H E) as (HR & _ & _ & _ & _ & HU).
  split; [exact E|]. split; [exact HR|]. exact HU.
Defined.

(* ===================================================================== *)
(** * GetCode *)
(* ===================================================================== *)

Module MarkerFacts.
Import Marker.

(** The decoding on nine cells that are bits. *)
Lemma DecodeCells_bits b0 b1 b2 b3 b4 b5 b6 b7 b8 :
  let bit (b : bool) := if b then 0%Z else 1%Z in
  let vals := [bit b0; bit b1; bit b2; bit b3; bit b4; bit b5; bit b6; bit b7; bit b8] in
  DecodeCells vals
  = if Complemented vals && OddParityCell vals then CodeValue vals else (-1)%Z.
Proof.
  destruct b0, b1, b2, b3, b4, b5, b6, b7, b8; reflexivity.
Qed.

Lemma CodeValue_bits b0 b1 b2 b3 b4 b5 b6 b7 b8 :
  let bit (b : bool) := if b then 0%Z else 1%Z in
  (0 <= CodeValue [bit b0; bit b1; bit b2; bit b3; bit b4; bit b5; bit b6; bit b7; bit b8]
   <= 15)%Z.
Proof.
  destruct b0, b1, b2, b3; cbv zeta; unfold CodeValue, val; cbn [nth]; lia.
Qed.

(** The cells read from a patch are nine bits. *)
Lemma ReadCells_bits integral cols rows :
  exists b0 b1 b2 b3 b4 b5 b6 b7 b8,
    let bit (b : bool) := if b then 0%Z else 1%Z in
    ReadCells integral cols rows
    = [bit b0; bit b1; bit b2; bit b3; bit b4; bit b5; bit b6; bit b7; bit b8].
Proof.
  unfold ReadCells. cbn [flat_map map app]. unfold CellBit.
  repeat match goal with
         | |- context [(?a <? CodeDetectionBitThreshold)%Z] =>
           generalize (a <? CodeDetectionBitThreshold)%Z; intro
         end.
  repeat eexists.
Qed.

End MarkerFacts.

(** C7, as stated, fails.  The patch with the data cells 0000, their
    complement 1111 in cells 4 to 7 and the parity cell 0 has an even number
    of 1 data bits and [parityBit = 0]; [GetCode] rejects it.  The same
    patch with the parity cell 1 is accepted with code 0. *)
Lemma GetCode_rejects_even_parity_zero :
  (let vals := [0; 0; 0; 0; 1; 1; 1; 1; 0]%Z in
   Marker.ReadCells (Marker.Integral (Marker.PatchOfCells vals))
                    Marker.WarpedSize Marker.WarpedSize = vals /\
   Marker.Complemented vals = true /\ Marker.EvenParityCell vals = true /\
   Marker.GetCode (Marker.PatchOfCells vals) = (-1)%Z)
  /\
  (let vals := [0; 0; 0; 0; 1; 1; 1; 1; 1]%Z in
   Marker.ReadCells (Marker.Integral (Marker.PatchOfCells vals))
                    Marker.WarpedSize Marker.WarpedSize = vals /\
   Marker.EvenParityCell vals = false /\
   Marker.GetCode (Marker.PatchOfCells vals) = 0%Z).
Proof.
  split; cbv zeta; repeat split; vm_compute; reflexivity.
Qed.

(** C7, amended.  [GetCode] accepts a warped patch exactly when cells 4 to
    7 are the complement of the data cells 0 to 3 and cell 8 is the
    complement of the parity of the data bits (1 for an even number of 1
    data bits, 0 for an odd number); it then returns the data bits as a
    number from 0 to 15, cell 0 first.  Every other patch is rejected
    with -1. *)
Theorem GetCode_accepts_iff_complement_and_odd_parity (img2 : Z -> Z -> Z) :
  let vals := Marker.ReadCells (Marker.Integral img2)
                               Marker.WarpedSize Marker.WarpedSize in
  (Marker.Complemented vals && Marker.OddParityCell vals = true <->
   (0 <= Marker.GetCode img2)%Z) /\
  Marker.GetCode img2
  = (if Marker.Complemented vals && Marker.OddParityCell vals
     then Marker.CodeValue vals else (-1)%Z) /\
  (0 <= Marker.CodeValue vals <= 15)%Z.
Proof.
  cbv zeta. unfold Marker.GetCode.
  destruct (MarkerFacts.ReadCells_bits (Marker.Integral img2)
              Marker.WarpedSize Marker.WarpedSize)
    as (b0 & b1 & b2 & b3 & b4 & b5 & b6 & b7 & b8 & E).
  cbv zeta in E. rewrite E.
  pose proof (MarkerFacts.DecodeCells_bits b0 b1 b2 b3 b4 b5 b6 b7 b8) as HD.
  pose proof (MarkerFacts.CodeValue_bits b0 b1 b2 b3 b4 b5 b6 b7 b8) as HC.
  cbv zeta in HD, HC. rewrite HD.
  split; [|split; [reflexivity|exact HC]].
  destruct (Marker.Complemented _ && Marker.OddParityCell _).
  - split; [intros _; apply HC|reflexivity].
  - split; [discriminate|lia].
Qed.

(* ===================================================================== *)
(** * The sync protocol *)
(* ===================================================================== *)

(** C9.  Roles are assigned as the property says, but [StartMaster] does
    not wait for the subordinates.  A client that was told to become a
    subordinate and has not answered has the state [Unknown], not
    [Subordinate], so the test [!IsStarted && CurrentSyncState ==
    Subordinate] never finds it, and [waitForSubordinateStart] is cleared
    by the first call.  With the cameras A001, A000, A002: once the master
    A000 and the subordinate A001 have confirmed, [StartMaster] is
    dispatched to A000 although A002 has not confirmed; and when A001
    confirms before the master does, [StartMaster] is never dispatched,
    whatever is confirmed later. *)
Theorem StartMaster_does_not_wait_for_subordinates :
  Sync.calls (Sync.run Examples.server3 [Sync.UserEnableSync])
  = [Sync.CallEnableSync 1 Sync.Master 0;
     Sync.CallEnableSync 0 Sync.Subordinate 1;
     Sync.CallEnableSync 2 Sync.Subordinate 2]
  /\
  (let events := [Sync.UserEnableSync;
                  Sync.ConfirmSyncState 1 Sync.Master;
                  Sync.ConfirmSyncState 0 Sync.Subordinate] in
   let s := Sync.run Examples.server3 events in
   Sync.subordinatesOf (Sync.calls s) = [0; 2]%nat /\
   Sync.subordinateAcks events = [0]%nat /\
   Sync.startMasterCalls (Sync.calls s) = [1]%nat)
  /\
  (let events := [Sync.UserEnableSync;
                  Sync.ConfirmSyncState 0 Sync.Subordinate;
                  Sync.ConfirmSyncState 1 Sync.Master;
                  Sync.ConfirmSyncState 2 Sync.Subordinate] in
   let s := Sync.run Examples.server3 events in
   Sync.subordinateAcks events = [0; 2]%nat /\
   Sync.startMasterCalls (Sync.calls s) = []).
Proof.
  split; [|split]; cbv zeta; repeat split; vm_compute; reflexivity.
Qed.

(* ===================================================================== *)
(** * The calibration file *)
(* ===================================================================== *)

(** C6.  [SaveCalibration] writes the three numbers of a row of [worldR]
    without anything between them, so [LoadCalibration] reads a row as one
    number.  For the identity rotation the file holds the rows [100],
    [010] and [001]; loading it into a fresh calibration, as [Run] does,
    gives the first row [(100, 10, 1)], takes the marker id and the
    calibrated flag for the next two entries, fails at the end of the
    file, and leaves [usedMarkerId = -1] and [isCalibrated = false]. *)
Theorem LoadCalibration_after_SaveCalibration_identity :
  let saved := mkCalibration [0; 0; 0] identity3 0 [] true 0 [] in
  let fs := CalibFile.SaveCalibration Examples.no_files saved "CL8T" in
  fs (CalibFile.fileName "CL8T")
  = Some ("0 0 0 " ++ Stream.nl ++ "100" ++ Stream.nl ++ "010" ++ Stream.nl
          ++ "001" ++ Stream.nl ++ "0" ++ Stream.nl ++ "1" ++ Stream.nl)%string
  /\ CalibFile.LoadCalibration fs Calibration_new "CL8T"
     = (true, mkCalibration [0; 0; 0] [[100; 10; 1]; [0; 1; 0]; [0; 0; 1]]
                            (-1) [] false 0 [])
  /\ CalibFile.LoadCalibration fs saved "CL8T"
     = (true, mkCalibration [0; 0; 0] [[100; 10; 1]; [0; 1; 0]; [0; 0; 1]]
                            0 [] true 0 []).
Proof.
  cbv zeta. repeat split; vm_compute; reflexivity.
Qed.

(* ===================================================================== *)
(** * The scale and the wire codec *)
(* ===================================================================== *)

Module LogFacts.
Import LogBounds.
Local Open Scope R_scope.

Lemma sq_down_le D a x :
  (0 < D)%Z -> (0 <= a)%Z -> IZR a / IZR D <= x ->
  (0 <= sq_down D a)%Z /\ IZR (sq_down D a) / IZR D <= x * x.
Proof.
  intros HD Ha Hx. unfold sq_down.
  assert (HDr : 0 < IZR D) by now apply IZR_lt.
  assert (Har : 0 <= IZR a) by now apply IZR_le.
  split; [apply Z.div_pos; nia|].
  assert (Hz : (D * (a * a / D) <= a * a)%Z) by (apply Z.mul_div_le; lia).
  apply IZR_le in Hz. rewrite !mult_IZR in Hz.
  assert (H0 : 0 <= IZR a / IZR D).
  { apply Rmult_le_pos; [exact Har|]. left. now apply Rinv_0_lt_compat. }
  assert (Hsq : IZR a / IZR D * (IZR a / IZR D) <= x * x) by Lra.nra.
  apply Rle_trans with (2 := Hsq).
  apply Rmult_le_reg_r with (IZR D * IZR D); [Lra.nra|].
  field_simplify; [|Lra.lra|Lra.lra]. Lra.nra.
Qed.

Lemma pow2_down_le D k a x :
  (0 < D)%Z -> (0 <= a)%Z -> IZR a / IZR D <= x ->
  (0 <= pow2_down D k a)%Z /\ IZR (pow2_down D k a) / IZR D <= pow2k x k.
Proof.
  intros HD Ha Hx. induction k as [|k [IH1 IH2]]; cbn; [auto|].
  now apply sq_down_le.
Qed.

Lemma pow2k_exp t k : pow2k (exp t) k = exp (2 ^ k * t).
Proof.
  induction k as [|k IH]; cbn [pow2k].
  - f_equal. simpl. ring.
  - rewrite IH, <- exp_plus. f_equal. simpl. ring.
Qed.

Lemma pow2k_le x y k : 0 <= x <= y -> 0 <= pow2k x k <= pow2k y k.
Proof.
  intros H. induction k as [|k IH]; cbn [pow2k]; [exact H|]. Lra.nra.
Qed.

Lemma exp_le_inv a b : exp a <= exp b -> a <= b.
Proof.
  intros H. destruct (Rle_or_lt a b) as [|Hlt]; [assumption|].
  apply exp_increasing in Hlt. Lra.lra.
Qed.

Lemma ln_10_upper : ln 10 <= 230259 / 100000.
Proof.
  set (t := 230259 / (100000 * 2 ^ 20)).
  assert (Ht : IZR a_up / IZR Dfix <= 1 + t).
  { unfold t. eval_const a_up. eval_const Dfix. Lra.lra. }
  assert (Ha : (0 <= a_up)%Z) by (vm_compute; discriminate).
  destruct (@pow2_down_le Dfix 20 a_up (1 + t) eq_refl Ha Ht) as [_ H1].
  assert (H2 : 10 <= IZR (pow2_down Dfix 20 a_up) / IZR Dfix).
  { assert (Hz : (10 * Dfix <= pow2_down Dfix 20 a_up)%Z) by (vm_compute; discriminate).
    apply IZR_le in Hz. rewrite mult_IZR in Hz.
    assert (0 < IZR Dfix) by (apply IZR_lt; reflexivity).
    apply Rmult_le_reg_r with (IZR Dfix); [assumption|].
    unfold Rdiv. rewrite Rmult_assoc, Rinv_l by Lra.lra. Lra.lra. }
  assert (H3 : pow2k (1 + t) 20 <= pow2k (exp t) 20).
  { apply pow2k_le. split; [unfold t; Lra.lra|apply exp_ineq1_le]. }
  rewrite pow2k_exp in H3.
  apply exp_le_inv. rewrite exp_ln by Lra.lra.
  replace (230259 / 100000) with (2 ^ 20 * t) by (unfold t; field).
  Lra.lra.
Qed.

Lemma ln_10_lower : 230258 / 100000 <= ln 10.
Proof.
  set (t := 230258 / (100000 * 2 ^ 20)).
  assert (Ht : IZR a_lo / IZR Dfix <= 1 - t).
  { unfold t. eval_const a_lo. eval_const Dfix. Lra.lra. }
  assert (Ha : (0 <= a_lo)%Z) by (vm_compute; discriminate).
  destruct (@pow2_down_le Dfix 20 a_lo (1 - t) eq_refl Ha Ht) as [_ H1].
  assert (H2 : / 10 <= IZR (pow2_down Dfix 20 a_lo) / IZR Dfix).
  { assert (Hz : (Dfix <= 10 * pow2_down Dfix 20 a_lo)%Z) by (vm_compute; discriminate).
    apply IZR_le in Hz. rewrite mult_IZR in Hz.
    assert (0 < IZR Dfix) by (apply IZR_lt; reflexivity).
    apply Rmult_le_reg_r with (IZR Dfix); [assumption|].
    unfold Rdiv. rewrite Rmult_assoc, Rinv_l by Lra.lra. Lra.lra. }
  assert (H3 : pow2k (1 - t) 20 <= pow2k (exp (- t)) 20).
  { apply pow2k_le. split; [unfold t; Lra.lra|].
    replace (1 - t) with (1 + - t) by ring. apply exp_ineq1_le. }
  rewrite pow2k_exp in H3.
  assert (H4 : exp (- ln 10) <= exp (2 ^ 20 * - t)).
  { rewrite exp_Ropp, exp_ln by Lra.lra. Lra.lra. }
  apply exp_le_inv in H4.
  replace (230258 / 100000) with (2 ^ 20 * t) by (unfold t; field).
  Lra.lra.
Qed.

Lemma ln_100_bounds : 460516 / 100000 <= ln 100 <= 460518 / 100000.
Proof.
  replace 100 with (10 * 10) by Lra.lra.
  rewrite ln_mult by Lra.lra.
  pose proof ln_10_upper. pose proof ln_10_lower. Lra.lra.
Qed.

(** The logarithm of an [int] that is at least 1. *)
Lemma ln_int_bounds N :
  (1 <= N <= 2147483647)%Z -> 0 <= ln (IZR N) <= 32.
Proof.
  intros [H1 H2]. apply IZR_le in H1, H2.
  split.
  - destruct (Rle_lt_or_eq_dec _ _ H1) as [Hlt|<-].
    + left. rewrite <- ln_1. apply ln_increasing; Lra.lra.
    + rewrite ln_1. Lra.lra.
  - apply exp_le_inv. rewrite exp_ln by Lra.lra.
    assert (H3 : pow2k 2 5 <= pow2k (exp 1) 5).
    { apply pow2k_le. pose proof (exp_ineq1_le 1). Lra.lra. }
    rewrite pow2k_exp in H3. cbn [pow2k] in H3.
    replace (2 ^ 5 * 1) with 32 in H3 by (simpl; Lra.lra).
    Lra.lra.
Qed.

End LogFacts.

Module WireFacts.
Import Wire.

Lemma Qtrunc_nonneg q : 0 <= q -> Qtrunc q = Qfloor q.
Proof.
  destruct q as [n d]. unfold Qle, Qtrunc, Qfloor. cbn. intros H.
  apply Z.quot_div_nonneg; lia.
Qed.

Lemma Qtrunc_comp a b : 0 <= a -> a == b -> Qtrunc a = Qtrunc b.
Proof.
  intros Ha E. rewrite !Qtrunc_nonneg by (rewrite <- ?E; exact Ha).
  now rewrite E.
Qed.

Lemma MaxScale_eq : MaxScale = 849%Z.
Proof. vm_compute. reflexivity. Qed.

(** Whatever the number of points, the scale is between 400 and 849. *)
Lemma DetermineScale_range N : (400 <= DetermineScale N <= 849)%Z.
Proof.
  unfold DetermineScale. rewrite MaxScale_eq. unfold MinScale.
  destruct (N <=? 0)%Z; lia.
Qed.

Lemma Qmax_0 a : 0 <= a -> Qmax a 0 == a.
Proof.
  intros H. unfold Qmax. destruct (Qle_bool a 0) eqn:E; [|reflexivity].
  apply Qle_bool_iff in E. apply Qle_antisym; assumption.
Qed.

(** One axis: with a scale from 400 to 849 nothing is clamped, the cast to
    [byte] discards less than one step, and the step is [1 / scale]. *)
Lemma axis_round_trip (S : Z) (v c : Q) :
  (400 <= S <= 849)%Z -> Qabs (v - c) <= HalfRange ->
  Qabs (DecodeByteToFloat (EncodeFloatToByte v c S) c S - v) <= 1 / inject_Z S.
Proof.
  intros HS Hv. apply Qabs_Qle_condition in Hv. destruct Hv as [Hv1 Hv2].
  set (r := (v + HalfRange - c) * inject_Z S).
  assert (HSq : 400 <= inject_Z S <= 849).
  { split; unfold Qle; cbn; lia. }
  assert (Hr0 : 0 <= r).
  { unfold r. apply Qmult_le_0_compat; Lqa.lra. }
  assert (HH : HalfRange * 2 * 849 <= 255)
    by (apply Qle_bool_iff; vm_compute; reflexivity).
  assert (Hr1 : r <= 255).
  { unfold r. Lqa.nra. }
  unfold EncodeFloatToByte. fold r.
  assert (E1 : Qmin 255 (Qmax r 0) == r).
  { unfold Qmin. destruct (Qle_bool 255 (Qmax r 0)) eqn:E.
    - apply Qle_bool_iff in E. rewrite (Qmax_0 Hr0) in E. Lqa.lra.
    - apply Qmax_0. exact Hr0. }
  assert (E2 : Qtrunc (Qmin 255 (Qmax r 0)) = Qfloor r).
  { rewrite <- (Qtrunc_nonneg Hr0). apply Qtrunc_comp; [|exact E1].
    rewrite E1. exact Hr0. }
  rewrite E2.
  pose proof (Qfloor_le r) as F1. pose proof (Qlt_floor r) as F2.
  assert (F0 : (0 <= Qfloor r)%Z).
  { change 0%Z with (Qfloor 0). apply Qfloor_resp_le. exact Hr0. }
  assert (F3 : (Qfloor r < 256)%Z).
  { apply Z.le_lt_trans with (Qfloor 255);
      [apply Qfloor_resp_le; exact Hr1|reflexivity]. }
  unfold to_byte. rewrite Z.mod_small by lia.
  unfold DecodeByteToFloat.
  set (f := inject_Z (Qfloor r)) in *.
  assert (F2' : r < f + 1).
  { unfold f. rewrite inject_Z_plus in F2. exact F2. }
  assert (Hs : 0 < inject_Z S) by Lqa.lra.
  assert (E3 : f / inject_Z S - HalfRange + c - v == (f - r) / inject_Z S).
  { unfold r. field. Lqa.lra. }
  rewrite E3. apply Qabs_Qle_condition.
  assert (Hinv : 0 < / inject_Z S) by (apply Qinv_lt_0_compat; exact Hs).
  unfold Qdiv. split.
  - setoid_replace (- (1 * / inject_Z S)) with ((-1) * / inject_Z S) by ring.
    apply Qmult_le_compat_r; Lqa.lra.
  - apply Qle_trans with (0 * / inject_Z S); [|Lqa.lra].
    apply Qmult_le_compat_r; Lqa.lra.
Qed.

Lemma Qltb_false a b : Qltb a b = false -> b <= a.
Proof.
  unfold Qltb. rewrite negb_false_iff. apply Qle_bool_iff.
Qed.

Local Open Scope R_scope.

Lemma ScaleFn_100 : 4397 + 41 / 100 <= ScaleFn 100 <= 4397 + 42 / 100.
Proof.
  unfold ScaleFn, ScaleFnOffset, ScaleFnFactor.
  pose proof LogFacts.ln_100_bounds. Lra.lra.
Qed.

Lemma Rtruncate_ScaleFn_100 : Rtruncate (ScaleFn 100) = 4397%Z.
Proof.
  pose proof ScaleFn_100 as H. unfold Rtruncate.
  destruct (Rle_dec 0 (ScaleFn 100)) as [_|Hn]; [|exfalso; apply Hn; Lra.lra].
  symmetry. apply Int_part_spec. Lra.lra.
Qed.

(** [Math.Truncate] does not leave an interval of integers around 0. *)
Lemma Rtruncate_range x lo hi :
  (lo <= 0 <= hi)%Z -> IZR lo <= x <= IZR hi -> (lo <= Rtruncate x <= hi)%Z.
Proof.
  intros [Hlo Hhi] [Hx1 Hx2]. unfold Rtruncate.
  apply IZR_le in Hlo, Hhi.
  destruct (Rle_dec 0 x) as [H0|H0].
  - destruct (base_Int_part x) as [B1 B2].
    split.
    + apply Z.le_trans with 0%Z; [apply le_IZR; exact Hlo|].
      apply Z.lt_succ_r. apply lt_IZR. rewrite succ_IZR. Lra.lra.
    + apply le_IZR. Lra.lra.
  - destruct (base_Int_part (- x)) as [B1 B2].
    split.
    + apply le_IZR. rewrite opp_IZR. Lra.lra.
    + apply Z.le_trans with 0%Z; [|apply le_IZR; exact Hhi].
      apply Z.opp_nonpos_nonneg.
      apply Z.lt_succ_r. apply lt_IZR. rewrite succ_IZR. Lra.lra.
Qed.

Lemma DetermineScale_100 : DetermineScale 100 = 849%Z.
Proof.
  unfold DetermineScale. rewrite Rtruncate_ScaleFn_100, MaxScale_eq.
  reflexivity.
Qed.

End WireFacts.

(** C3, as stated, fails: for 100 points the formula of the property gives
    4397, far below its upper bound [255 / minPrecision]; [DetermineScale]
    gives 849, because its upper bound is [(short)(1 / MinPrecision)]. *)
Lemma DetermineScale_100_is_not_4397 :
  Wire.SpecScale 100 = 4397%Z /\ Wire.DetermineScale 100 = 849%Z /\
  Wire.DetermineScale 100 <> Wire.SpecScale 100.
Proof.
  assert (E : Wire.SpecScale 100 = 4397%Z).
  { unfold Wire.SpecScale.
    assert (H : Int_part (Wire.ScaleFn 100 + / 2)%R = 4397%Z).
    { symmetry. apply Int_part_spec. pose proof WireFacts.ScaleFn_100. Lra.lra. }
    rewrite H. vm_compute. reflexivity. }
  rewrite E, WireFacts.DetermineScale_100. repeat split. discriminate.
Qed.

(** C3, amended.  For every point count [N >= 1] that an [int] holds, the
    scale is [clamp(truncate(6700 - 500 ln N), 400, MaxScale)] with
    [MaxScale = (short)(1 / MinPrecision) = 849] and
    [MinPrecision = 0.3f / 255]: the value is truncated, not rounded, and
    the upper bound is [1 / MinPrecision], not [255 / MinPrecision].  For
    [N = 100] the formula yields 4397 before the clamp and the scale
    is 849. *)
Theorem DetermineScale_truncates_and_clamps_to_849 (N : Z) :
  (1 <= N <= 2147483647)%Z ->
  Wire.DetermineScale N
  = Z.min 849 (Z.max (Wire.Rtruncate (Wire.ScaleFn N)) 400) /\
  Wire.MaxScale = Qtrunc (1 / MinPrecision) /\ Wire.MaxScale = 849%Z /\
  Wire.Rtruncate (Wire.ScaleFn 100) = 4397%Z /\
  Wire.DetermineScale 100 = 849%Z.
Proof.
  intros HN. split; [|split; [vm_compute; reflexivity|split; [|split]]].
  - unfold Wire.DetermineScale.
    destruct (N <=? 0)%Z eqn:E; [apply Z.leb_le in E; lia|].
    rewrite WireFacts.MaxScale_eq. unfold Wire.MinScale.
    assert (HR : (-32768 <= Wire.Rtruncate (Wire.ScaleFn N) <= 32767)%Z).
    { apply WireFacts.Rtruncate_range; [lia|].
      pose proof (LogFacts.ln_int_bounds HN) as HL.
      unfold Wire.ScaleFn, Wire.ScaleFnOffset, Wire.ScaleFnFactor. Lra.lra. }
    unfold to_int16. rewrite Z.mod_small by lia.
    replace (Wire.Rtruncate (Wire.ScaleFn N) + 32768 - 32768)%Z
      with (Wire.Rtruncate (Wire.ScaleFn N)) by lia.
    reflexivity.
  - exact WireFacts.MaxScale_eq.
  - exact WireFacts.Rtruncate_ScaleFn_100.
  - exact WireFacts.DetermineScale_100.
Qed.

Lemma DetermineScale_truncates_and_clamps_to_849_witness :
  (1 <= 100 <= 2147483647)%Z /\
  Wire.DetermineScale 100
  = Z.min 849 (Z.max (Wire.Rtruncate (Wire.ScaleFn 100)) 400).
Proof.
  split; [lia|].
  apply (@DetermineScale_truncates_and_clamps_to_849 100). lia.
Defined.



(* ===================================================================== *)
(** * Further properties of the voxel grid filter *)
(* ===================================================================== *)

Module VoxelSeqFacts.
Import VoxelGridFilter VoxelGridFilterFacts VoxelSeq.

Lemma InsertAll_geometry pts : forall f,
  gridSizeX (InsertAll f pts) = gridSizeX f /\ gridSizeY (InsertAll f pts) = gridSizeY f /\
  gridSizeZ (InsertAll f pts) = gridSizeZ f /\ invVoxelSize (InsertAll f pts) = invVoxelSize f /\
  minX (InsertAll f pts) = minX f /\ minY (InsertAll f pts) = minY f /\
  minZ (InsertAll f pts) = minZ f.
Proof.
  induction pts as [|[[x y] z] pts IH]; intros f; cbn; [tauto|].
  destruct (IH (snd (Insert f x y z))) as (A & B & C & D & E & F & G).
  destruct (Insert_geometry f x y z) as (A' & B' & C' & D' & E' & F' & G').
  unfold InsertAll in *. cbn in *.
  rewrite A, B, C, D, E, F, G. tauto.
Qed.

Lemma InsertAll_monotone pts : forall f idx,
  voxelGrid f idx = true -> voxelGrid (InsertAll f pts) idx = true.
Proof.
  induction pts as [|[[x y] z] pts IH]; intros f idx H; cbn; [exact H|].
  apply IH. now apply Insert_monotone.
Qed.

Lemma Qtrunc_floor q : 0 <= q -> Qtrunc q = Qfloor q.
Proof.
  destruct q as [n d]. unfold Qle, Qtrunc, Qfloor. cbn. intros H.
  apply Z.quot_div_nonneg; lia.
Qed.

(** An index computed from a coordinate inside the cube is inside the
    grid. *)
Lemma index_in_grid (v m h inv : Q) :
  0 < inv -> m <= v -> v < m + h * 2 ->
  (0 <= Qtrunc ((v - m) * inv) < Qceiling (h * 2 * inv))%Z.
Proof.
  intros Hinv H1 H2.
  assert (H0 : 0 <= (v - m) * inv).
  { apply Qmult_le_0_compat; Lqa.lra. }
  rewrite (Qtrunc_floor H0). split.
  - change 0%Z with (Qfloor 0). now apply Qfloor_resp_le.
  - assert (Hlt : (v - m) * inv < h * 2 * inv).
    { apply Qmult_lt_compat_r; Lqa.lra. }
    pose proof (Qfloor_le ((v - m) * inv)) as F.
    pose proof (Qle_ceiling (h * 2 * inv)) as C.
    assert (L : inject_Z (Qfloor ((v - m) * inv)) < inject_Z (Qceiling (h * 2 * inv)))
      by Lqa.lra.
    now rewrite <- Zlt_Qlt in L.
Qed.

End VoxelSeqFacts.

(** X1. Until [Reset] is called, [Insert] returns true at most once for a
    cell: after a call for a point returned true, and whatever points are
    inserted in between, a call for any point of the same cell returns
    false. *)
Theorem Insert_true_at_most_once_per_cell
    (f : VoxelGridFilter.t) (x y z x' y' z' : Q) (between : list (Q * Q * Q)) :
  fst (VoxelGridFilter.Insert f x y z) = true ->
  VoxelGridFilter.Cell f x' y' z' = VoxelGridFilter.Cell f x y z ->
  fst (VoxelGridFilter.Insert
         (VoxelSeq.InsertAll (snd (VoxelGridFilter.Insert f x y z)) between)
         x' y' z') = false.
Proof.
  intros Ht Hc.
  pose proof (VoxelGridFilterFacts.Insert_true f x y z Ht) as T.
  pose proof (VoxelGridFilterFacts.Insert_geometry f x y z) as G.
  pose proof (VoxelSeqFacts.InsertAll_geometry between
                (snd (VoxelGridFilter.Insert f x y z))) as GA.
  set (f1 := snd (VoxelGridFilter.Insert f x y z)) in *.
  set (f2 := VoxelSeq.InsertAll f1 between) in *.
  cbv zeta in G. destruct G as (G1 & G2 & G3 & G4 & G5 & G6 & G7).
  destruct GA as (A1 & A2 & A3 & A4 & A5 & A6 & A7).
  assert (EC : VoxelGridFilter.Cell f2 x' y' z' = VoxelGridFilter.Cell f x y z).
  { rewrite <- Hc. unfold VoxelGridFilter.Cell.
    now rewrite A4, A5, A6, A7, G4, G5, G6, G7. }
  rewrite VoxelGridFilterFacts.Insert_spec, EC.
  destruct (VoxelGridFilter.Cell f x y z) as [[ix iy] iz].
  destruct T as (_ & _ & T).
  assert (EV : VoxelGridFilter.VoxelIndex f2 ix iy iz = VoxelGridFilter.VoxelIndex f ix iy iz).
  { unfold VoxelGridFilter.VoxelIndex. now rewrite A1, A2, G1, G2. }
  assert (B : VoxelGridFilter.voxelGrid f2 (VoxelGridFilter.VoxelIndex f ix iy iz) = true).
  { apply VoxelSeqFacts.InsertAll_monotone. rewrite T.
    unfold VoxelGridFilter.set_bit. now rewrite Z.eqb_refl. }
  rewrite EV, B. apply andb_false_r.
Qed.

Lemma Insert_true_at_most_once_per_cell_witness :
  let f := VoxelGridFilter.Reset Examples.filter0 in
  fst (VoxelGridFilter.Insert f 0 0 (15 # 100)) = true /\
  fst (VoxelGridFilter.Insert
         (VoxelSeq.InsertAll (snd (VoxelGridFilter.Insert f 0 0 (15 # 100)))
                             [(1 # 100, 0, 1 # 10); (0, 0, 15 # 100)])
         (5 # 10000) (5 # 10000) (1505 # 10000)) = false.
Proof.
  cbv zeta. split; [vm_compute; reflexivity|].
  apply Insert_true_at_most_once_per_cell; vm_compute; reflexivity.
Defined.

(** X2. A filter built by the constructor covers the whole cube it was
    built for: after [Reset], whatever was inserted before, [Insert]
    returns true for every point with
    [centre - halfRange <= v < centre + halfRange] on each axis. *)
Theorem Insert_after_Reset_accepts_the_cube
    (voxelSize cx cy cz halfRange : Q) (f0 : VoxelGridFilter.t)
    (before : list (Q * Q * Q)) (x y z : Q) :
  VoxelGridFilter.create voxelSize cx cy cz halfRange = Some f0 ->
  cx - halfRange <= x /\ x < cx + halfRange ->
  cy - halfRange <= y /\ y < cy + halfRange ->
  cz - halfRange <= z /\ z < cz + halfRange ->
  fst (VoxelGridFilter.Insert
         (VoxelGridFilter.Reset (VoxelSeq.InsertAll f0 before)) x y z) = true.
Proof.
  unfold VoxelGridFilter.create.
  destruct (Qle_bool voxelSize 0) eqn:Ev; [discriminate|].
  intros [= <-] [Hx1 Hx2] [Hy1 Hy2] [Hz1 Hz2].
  assert (Hpos : 0 < voxelSize).
  { apply Qnot_le_lt. intros H. apply Qle_bool_iff in H. congruence. }
  assert (Hinv : 0 < 1 / voxelSize).
  { unfold Qdiv. rewrite Qmult_1_l. now apply Qinv_lt_0_compat. }
  match goal with |- context [VoxelSeq.InsertAll ?g before] => set (f0 := g) end.
  destruct (VoxelSeqFacts.InsertAll_geometry before f0) as (A1 & A2 & A3 & A4 & A5 & A6 & A7).
  rewrite VoxelGridFilterFacts.Insert_spec.
  unfold VoxelGridFilter.Cell, VoxelGridFilter.Reset, VoxelGridFilter.InGrid.
  cbn [VoxelGridFilter.gridSizeX VoxelGridFilter.gridSizeY VoxelGridFilter.gridSizeZ
       VoxelGridFilter.invVoxelSize VoxelGridFilter.minX VoxelGridFilter.minY
       VoxelGridFilter.minZ VoxelGridFilter.voxelGrid].
  rewrite A1, A2, A3, A4, A5, A6, A7. subst f0.
  cbn [VoxelGridFilter.gridSizeX VoxelGridFilter.gridSizeY VoxelGridFilter.gridSizeZ
       VoxelGridFilter.invVoxelSize VoxelGridFilter.minX VoxelGridFilter.minY
       VoxelGridFilter.minZ].
  pose proof (@VoxelSeqFacts.index_in_grid x (cx - halfRange) halfRange (1 / voxelSize)
                Hinv Hx1 ltac:(Lqa.lra)) as Ix.
  pose proof (@VoxelSeqFacts.index_in_grid y (cy - halfRange) halfRange (1 / voxelSize)
                Hinv Hy1 ltac:(Lqa.lra)) as Iy.
  pose proof (@VoxelSeqFacts.index_in_grid z (cz - halfRange) halfRange (1 / voxelSize)
                Hinv Hz1 ltac:(Lqa.lra)) as Iz.
  rewrite andb_true_r, negb_true_iff, !orb_false_iff.
  rewrite !Z.ltb_ge, !Z.geb_leb, !Z.leb_gt. lia.
Qed.

Lemma Insert_after_Reset_accepts_the_cube_witness :
  fst (VoxelGridFilter.Insert
         (VoxelGridFilter.Reset
            (VoxelSeq.InsertAll Examples.filter0 [(0, 0, 15 # 100)]))
         (- (15 # 100)) (149 # 1000) 0) = true.
Proof.
  apply (@Insert_after_Reset_accepts_the_cube
           MinPrecision XRangeCenter YRangeCenter ZRangeCenter HalfRange
           Examples.filter0 [(0, 0, 15 # 100)] (- (15 # 100)) (149 # 1000) 0).
  - reflexivity.
  - split; [apply Qle_bool_iff|apply Qnot_le_lt; intros H; apply Qle_bool_iff in H;
            revert H]; vm_compute; [reflexivity|discriminate].
  - split; [apply Qle_bool_iff|apply Qnot_le_lt; intros H; apply Qle_bool_iff in H;
            revert H]; vm_compute; [reflexivity|discriminate].
  - split; [apply Qle_bool_iff|apply Qnot_le_lt; intros H; apply Qle_bool_iff in H;
            revert H]; vm_compute; [reflexivity|discriminate].
Defined.

(* ===================================================================== *)
(** * Further properties of ProcessFrame *)
(* ===================================================================== *)

Module ProcessFrameMore.
Import Client VoxelGridFilter.

(** What the first loop leaves at each index: the placeholder, or the
    vertex (moved to the world frame if calibrated) inside the bounds. *)
Lemma CalibrateAndClip_shape cal b vertices : forall f,
  let r := CalibrateAndClip cal b f vertices in
  Forall2 (fun v p => p = invalidPoint \/
                      (p = (if isCalibrated cal then ApplyCalibration cal v else v) /\
                       (isCalibrated cal = true -> OutsideBounds b p = false)))
          vertices (fst (fst r)) /\
  (Z.of_nat (List.length (valid (fst (fst r)))) <= snd (fst r)
   <= Z.of_nat (List.length vertices))%Z.
Proof.
  induction vertices as [|v rest IH]; intros f; cbn [CalibrateAndClip].
  - cbn. split; [constructor|lia].
  - destruct (isCalibrated cal) eqn:Hc.
    + set (temp := ApplyCalibration cal v).
      destruct (OutsideBounds b temp) eqn:Ho.
      * specialize (IH f). cbv zeta in IH.
        destruct (CalibrateAndClip cal b f rest) as [[l n] f'].
        cbn [fst snd] in *. destruct IH as [IH1 IH2]. split.
        -- constructor; [now left|exact IH1].
        -- change (valid (invalidPoint :: l)) with (valid l).
           cbn [List.length]. lia.
      * destruct (Insert f (X temp) (Y temp) (Z_ temp)) as [inserted f1].
        specialize (IH f1). cbv zeta in IH.
        destruct (CalibrateAndClip cal b f1 rest) as [[l n] f'].
        cbn [fst snd] in *. destruct IH as [IH1 IH2].
        destruct inserted; cbn [negb fst snd]; split.
        -- constructor; [right; split; [reflexivity|intros _; exact Ho]|exact IH1].
        -- change (valid (temp :: l)) with (temp :: valid l).
           cbn [List.length]. lia.
        -- constructor; [now left|exact IH1].
        -- change (valid (invalidPoint :: l)) with (valid l).
           cbn [List.length]. lia.
    + specialize (IH f). cbv zeta in IH.
      destruct (CalibrateAndClip cal b f rest) as [[l n] f'].
      cbn [fst snd] in *. destruct IH as [IH1 IH2]. split.
      * constructor; [right; split; [reflexivity|discriminate]|exact IH1].
      * assert (Z.of_nat (List.length (valid (v :: l)))
                <= Z.of_nat (List.length (valid l)) + 1)%Z.
        { unfold valid. cbn [filter]. destruct (negb (Invalid v)); cbn [List.length]; lia. }
        cbn [List.length]. lia.
Qed.

(** [voxelCounts] after the counting loop: the number of valid vertices
    with the key. *)
Lemma CountVoxels_count l k :
  CountVoxels l k
  = Z.of_nat (List.length (filter (fun q => (VoxelKey q =? k)%Z) (valid l))).
Proof.
  unfold CountVoxels.
  assert (G : forall m,
    fold_left (fun m pt => if negb (Invalid pt) then increment m (VoxelKey pt) else m) l m k
    = (m k + Z.of_nat (List.length (filter (fun q => (VoxelKey q =? k)%Z) (valid l))))%Z).
  { induction l as [|p l IH]; intros m; cbn [fold_left].
    - cbn. lia.
    - rewrite IH. unfold valid. cbn [filter].
      destruct (negb (Invalid p)); [|reflexivity].
      cbn [filter]. unfold increment. rewrite (Z.eqb_sym k).
      destruct (VoxelKey p =? k)%Z; cbn [List.length]; lia. }
  rewrite G. reflexivity.
Qed.

Lemma filter_length_le (A : Type) (h : A -> bool) (l : list A) :
  (List.length (filter h l) <= List.length l)%nat.
Proof.
  induction l as [|a l IH]; cbn; [lia|]. destruct (h a); cbn; lia.
Qed.

(** A vertex that is valid after the density filter was valid before it,
    at the same index, in a voxel with enough points. *)
Lemma DensityFilter_nth l i p :
  nth_error (DensityFilter l) i = Some p -> Invalid p = false ->
  nth_error l i = Some p /\ (minPointsPerVoxel <= CountVoxels l (VoxelKey p))%Z.
Proof.
  unfold DensityFilter. rewrite nth_error_map.
  destruct (nth_error l i) as [q|]; [|discriminate]. cbn [option_map].
  intros [= E] Hv. destruct (negb (Invalid q)) eqn:Eq.
  - destruct (CountVoxels l (VoxelKey q) <? minPointsPerVoxel)%Z eqn:El.
    + subst p. discriminate.
    + subst p. split; [reflexivity|]. now apply Z.ltb_ge.
  - subst p. rewrite Hv in Eq. discriminate.
Qed.

Lemma CopyValid_In l : forall colors p col,
  In (p, col) (CopyValid l colors) ->
  exists i, nth_error l i = Some p /\ Invalid p = false /\ col = nth i colors RGB_default.
Proof.
  induction l as [|q l IH]; intros colors p col; cbn [CopyValid]; [intros []|].
  assert (Tl : forall i, nth i (tl colors) RGB_default = nth (S i) colors RGB_default).
  { intros i. destruct colors; [now destruct i|reflexivity]. }
  assert (Hd : hd RGB_default colors = nth 0 colors RGB_default).
  { now destruct colors. }
  destruct (negb (Invalid q)) eqn:Eq.
  - intros [[= <- <-]|H].
    + exists 0%nat. repeat split; [|exact Hd]. now apply negb_true_iff.
    + destruct (IH _ _ _ H) as (i & A & B & C). exists (S i).
      repeat split; [exact A|exact B|]. now rewrite <- Tl.
  - intros H. destruct (IH _ _ _ H) as (i & A & B & C). exists (S i).
    repeat split; [exact A|exact B|]. now rewrite <- Tl.
Qed.

Lemma CopyValid_length l colors :
  List.length (CopyValid l colors) = List.length (valid l).
Proof.
  rewrite <- (ProcessFrameFacts.CopyValid_fst l colors). now rewrite length_map.
Qed.

Lemma valid_DensityFilter_length l :
  (List.length (valid (DensityFilter l)) <= List.length (valid l))%nat.
Proof.
  unfold DensityFilter. generalize (CountVoxels l). intros cnt.
  unfold valid. induction l as [|q l IH]; cbn [map filter]; [lia|].
  destruct (negb (Invalid q)) eqn:Eq.
  - destruct (cnt (VoxelKey q) <? minPointsPerVoxel)%Z; cbn [Invalid invalidPoint negb];
      [cbn [List.length]; lia|].
    rewrite Eq. cbn [List.length]. lia.
  - rewrite Eq. exact IH.
Qed.

Lemma valid_map_all_removed (cnt : Z -> Z) l :
  (forall q, (cnt (VoxelKey q) <? minPointsPerVoxel)%Z = true) ->
  valid (map (fun pt => if negb (Invalid pt)
                        then if (cnt (VoxelKey pt) <? minPointsPerVoxel)%Z
                             then invalidPoint else pt
                        else pt) l) = [].
Proof.
  intros G. unfold valid. induction l as [|q l IH]; [reflexivity|].
  cbn [map filter]. destruct (negb (Invalid q)) eqn:Eq.
  - rewrite G. cbn. exact IH.
  - rewrite Eq. exact IH.
Qed.

(** A survivor, traced back through the three loops. *)
Lemma Surviving_trace c vertices colors p col :
  In (p, col) (SurvivingVertices c vertices colors) ->
  let all := fst (fst (CalibrateAndClip (calibration c) (bounds c)
                         (Reset (voxelGridFilter c)) vertices)) in
  exists i, nth_error all i = Some p /\ Invalid p = false /\
            col = nth i colors RGB_default /\
            (minPointsPerVoxel <= CountVoxels all (VoxelKey p))%Z.
Proof.
  unfold SurvivingVertices.
  destruct (CalibrateAndClip _ _ _ vertices) as [[l n] f']. cbn [fst].
  intros H. apply CopyValid_In in H as (i & A & B & C).
  destruct (@DensityFilter_nth _ _ _ A B) as [D E]. exists i. auto.
Qed.

Lemma Forall2_nth_error (A B : Type) (P : A -> B -> Prop) l1 l2 i b :
  Forall2 P l1 l2 -> nth_error l2 i = Some b ->
  exists a, nth_error l1 i = Some a /\ P a b.
Proof.
  intros F. revert i. induction F as [|a0 b0 l1 l2 H F IH]; intros i.
  - destruct i; discriminate.
  - destruct i as [|i]; cbn.
    + intros [= <-]. eauto.
    + apply IH.
Qed.

(** The counter of the first loop against what the copy loop copies. *)
Lemma copy_count (c : LiveScanClient) (vertices : list Point3f) (colors : list RGB) :
  let goodVerticesCount :=
    snd (fst (CalibrateAndClip (calibration c) (bounds c)
                (Reset (voxelGridFilter c)) vertices)) in
  (Z.of_nat (List.length (SurvivingVertices c vertices colors)) <= goodVerticesCount
   /\ goodVerticesCount <= Z.of_nat (List.length vertices))%Z.
Proof.
  cbv zeta. unfold SurvivingVertices.
  destruct (CalibrateAndClip_shape (calibration c) (bounds c)
              vertices (Reset (voxelGridFilter c))) as [_ H].
  destruct (CalibrateAndClip _ _ _ vertices) as [[l n] f']. cbn [fst snd] in *.
  rewrite CopyValid_length.
  pose proof (valid_DensityFilter_length l). lia.
Qed.

End ProcessFrameMore.

(** X3. With the camera calibrated, every vertex [ProcessFrame] keeps lies
    inside the box of the settings, bounds included:
    [bounds[0] <= X <= bounds[3]], [bounds[1] <= Y <= bounds[4]],
    [bounds[2] <= Z <= bounds[5]]. *)
Theorem ProcessFrame_calibrated_survivors_inside_bounds
    (c : Client.LiveScanClient) (vertices : list Point3f) (colors : list RGB)
    (p : Point3f) (col : RGB) :
  isCalibrated (Client.calibration c) = true ->
  In (p, col) (Client.SurvivingVertices c vertices colors) ->
  Client.bound (Client.bounds c) 0 <= X p /\ X p <= Client.bound (Client.bounds c) 3 /\
  Client.bound (Client.bounds c) 1 <= Y p /\ Y p <= Client.bound (Client.bounds c) 4 /\
  Client.bound (Client.bounds c) 2 <= Z_ p /\ Z_ p <= Client.bound (Client.bounds c) 5.
Proof.
  intros Hc H. apply ProcessFrameMore.Surviving_trace in H. cbv zeta in H.
  destruct H as (i & A & B & _ & _).
  destruct (ProcessFrameMore.CalibrateAndClip_shape (Client.calibration c) (Client.bounds c)
              vertices (VoxelGridFilter.Reset (Client.voxelGridFilter c))) as [F _].
  destruct (ProcessFrameMore.Forall2_nth_error i F A) as (v & _ & [E|[_ E]]).
  - subst p. discriminate.
  - specialize (E Hc). unfold Client.OutsideBounds in E.
    rewrite !orb_false_iff in E. destruct E as [[[[[E1 E2] E3] E4] E5] E6].
    repeat split; now apply WireFacts.Qltb_false.
Qed.

Lemma ProcessFrame_calibrated_survivors_inside_bounds_witness :
  let p := fst (nth 0 (Client.SurvivingVertices Examples.client_calibrated
                         Examples.frame12 Examples.colors12) (Point3f_default, RGB_default)) in
  Client.bound (Client.bounds Examples.client_calibrated) 0 <= X p /\
  X p <= Client.bound (Client.bounds Examples.client_calibrated) 3 /\
  Client.bound (Client.bounds Examples.client_calibrated) 1 <= Y p /\
  Y p <= Client.bound (Client.bounds Examples.client_calibrated) 4 /\
  Client.bound (Client.bounds Examples.client_calibrated) 2 <= Z_ p /\
  Z_ p <= Client.bound (Client.bounds Examples.client_calibrated) 5.
Proof.
  cbv zeta.
  apply (@ProcessFrame_calibrated_survivors_inside_bounds
           Examples.client_calibrated Examples.frame12 Examples.colors12
           _ (snd (nth 0 (Client.SurvivingVertices Examples.client_calibrated
                            Examples.frame12 Examples.colors12)
                         (Point3f_default, RGB_default)))).
  - reflexivity.
  - vm_compute. left. reflexivity.
Defined.



(** X5. A vertex [ProcessFrame] keeps is the captured vertex of some index
    [i], moved to the world frame if the camera is calibrated, and it is
    published with the captured colour of the same index [i]. *)
Theorem ProcessFrame_survivor_keeps_its_colour
    (c : Client.LiveScanClient) (vertices : list Point3f) (colors : list RGB)
    (p : Point3f) (col : RGB) :
  List.length colors = List.length vertices ->
  In (p, col) (Client.SurvivingVertices c vertices colors) ->
  exists (i : nat) (v : Point3f),
    nth_error vertices i = Some v /\ nth_error colors i = Some col /\
    p = if isCalibrated (Client.calibration c)
        then Client.ApplyCalibration (Client.calibration c) v else v.
Proof.
  intros Hl H. apply ProcessFrameMore.Surviving_trace in H. cbv zeta in H.
  destruct H as (i & A & B & C & _).
  destruct (ProcessFrameMore.CalibrateAndClip_shape (Client.calibration c) (Client.bounds c)
              vertices (VoxelGridFilter.Reset (Client.voxelGridFilter c))) as [F _].
  destruct (ProcessFrameMore.Forall2_nth_error i F A) as (v & Hv & [E|[E _]]).
  - subst p. discriminate.
  - exists i, v. split; [exact Hv|]. split; [|exact E].
    assert (Hi : (i < List.length colors)%nat).
    { rewrite Hl. apply nth_error_Some. congruence. }
    subst col. now apply nth_error_nth'.
Qed.

Lemma ProcessFrame_survivor_keeps_its_colour_witness :
  exists (i : nat) (v : Point3f),
    nth_error Examples.frame12 i = Some v /\
    nth_error Examples.colors12 i
    = Some (snd (nth 4 (Client.SurvivingVertices Examples.client_calibrated
                          Examples.frame12 Examples.colors12)
                       (Point3f_default, RGB_default))) /\
    fst (nth 4 (Client.SurvivingVertices Examples.client_calibrated
                  Examples.frame12 Examples.colors12) (Point3f_default, RGB_default))
    = if isCalibrated (Client.calibration Examples.client_calibrated)
      then Client.ApplyCalibration (Client.calibration Examples.client_calibrated) v else v.
Proof.
  apply (@ProcessFrame_survivor_keeps_its_colour
           Examples.client_calibrated Examples.frame12 Examples.colors12).
  - reflexivity.
  - vm_compute. do 4 right. left. reflexivity.
Defined.

(** X6. The copy loop of [ProcessFrame] stays inside the vectors it fills:
    the number of vertices it copies is at most [goodVerticesCount], the
    size [goodVertices] and [goodColorPoints] were created with, which is
    at most the number of captured vertices. *)
Theorem ProcessFrame_copy_loop_within_goodVerticesCount
    (c : Client.LiveScanClient) (vertices : list Point3f) (colors : list RGB) :
  let goodVerticesCount :=
    snd (fst (Client.CalibrateAndClip (Client.calibration c) (Client.bounds c)
                (VoxelGridFilter.Reset (Client.voxelGridFilter c)) vertices)) in
  (Z.of_nat (List.length (Client.SurvivingVertices c vertices colors)) <= goodVerticesCount
   /\ goodVerticesCount <= Z.of_nat (List.length vertices))%Z.
Proof.
  exact (ProcessFrameMore.copy_count c vertices colors).
Qed.

(** X7. Points removed by the density filter are not removed from the
    published frame.  With the camera not calibrated and the KNN filter
    disabled, a captured frame of fewer than 12 vertices is published as
    that many points [(0, 0, 0)] with the default colour. *)
Theorem ProcessFrame_small_frame_published_as_zero_points
    (Filter : list Point3f -> list RGB -> Z -> Q -> list Point3f * list RGB)
    (c : Client.LiveScanClient) (vertices : list Point3f) (colors : list RGB) :
  isCalibrated (Client.calibration c) = false ->
  Client.isFilterEnabled c = false ->
  (List.length vertices < 12)%nat ->
  Client.ProcessFrame Filter c vertices colors
  = (repeat (mkPoint3s 0 0 0) (List.length vertices),
     repeat RGB_default (List.length vertices)).
Proof.
  intros Hc Hf Hn. unfold Client.ProcessFrame, Client.ProcessFrameFloat.
  rewrite (ProcessFrameFacts.CalibrateAndClip_uncalibrated _ _ _ _ Hc), Hf.
  assert (E : Client.valid (Client.DensityFilter vertices) = []).
  { unfold Client.DensityFilter.
    assert (G : forall q, (Client.CountVoxels vertices (Client.VoxelKey q)
                           <? Client.minPointsPerVoxel)%Z = true).
    { intros q. apply Z.ltb_lt. rewrite ProcessFrameMore.CountVoxels_count.
      pose proof (ProcessFrameMore.filter_length_le
                    (fun q0 => (Client.VoxelKey q0 =? Client.VoxelKey q)%Z)
                    (Client.valid vertices)).
      pose proof (ProcessFrameMore.filter_length_le
                    (fun p => negb (Invalid p)) vertices).
      unfold Client.valid in *. unfold Client.minPointsPerVoxel. lia. }
    now apply ProcessFrameMore.valid_map_all_removed. }
  assert (EC : Client.CopyValid (Client.DensityFilter vertices) colors = []).
  { apply length_zero_iff_nil. rewrite ProcessFrameMore.CopyValid_length, E. reflexivity. }
  rewrite EC. cbn [map List.length app]. rewrite Nat.sub_0_r, Nat2Z.id.
  f_equal. rewrite map_repeat. reflexivity.
Qed.

Lemma ProcessFrame_small_frame_published_as_zero_points_witness :
  Client.ProcessFrame Examples.NoFilter Examples.client_uncalibrated
    (firstn 3 Examples.frame12) (firstn 3 Examples.colors12)
  = (repeat (mkPoint3s 0 0 0) 3, repeat RGB_default 3).
Proof.
  apply (@ProcessFrame_small_frame_published_as_zero_points
           Examples.NoFilter Examples.client_uncalibrated
           (firstn 3 Examples.frame12) (firstn 3 Examples.colors12)).
  - reflexivity.
  - reflexivity.
  - vm_compute. lia.
Defined.

(* ===================================================================== *)
(** * The KNN outlier filter *)
(* ===================================================================== *)

Module KnnFacts.
Import Knn.

Lemma assign_app (A : Type) (K : list A) w x t a :
  List.length K = w -> assign (K ++ x :: t) w a = K ++ a :: t.
Proof.
  intros <-. induction K as [|h K IH]; cbn; [reflexivity|]. now rewrite IH.
Qed.

Lemma nth_app_skipn (A : Type) (K l0 : list A) w j d :
  List.length K = w -> (w <= j)%nat ->
  nth j (K ++ skipn w l0) d = nth j l0 d.
Proof.
  intros <- H. rewrite app_nth2 by lia.
  rewrite <- (firstn_skipn (List.length K) l0) at 2.
  destruct (Nat.le_gt_cases (List.length l0) (List.length K)) as [L|L].
  - rewrite skipn_all2 by lia. rewrite app_nil_r.
    rewrite (nth_overflow (firstn _ _)); [now destruct (j - _)%nat|].
    rewrite length_firstn. lia.
  - rewrite app_nth2; rewrite length_firstn; [|lia].
    f_equal. lia.
Qed.

Lemma firstn_app_exact (A : Type) (K l : list A) w :
  List.length K = w -> firstn w (K ++ l) = K.
Proof.
  intros <-. rewrite firstn_app, Nat.sub_diag, firstn_all. cbn. apply app_nil_r.
Qed.

Lemma skipn_cons_nth (A : Type) (l : list A) w d :
  (w < List.length l)%nat -> skipn w l = nth w l d :: skipn (S w) l.
Proof.
  revert w. induction l as [|h l IH]; intros w H; cbn in H; [lia|].
  destruct w as [|w]; [reflexivity|]. cbn. apply IH. lia.
Qed.

Lemma filter_seq_ge (h : nat -> bool) i m x l :
  filter h (seq i m) = x :: l -> (i <= x)%nat.
Proof.
  intros E. assert (In x (filter h (seq i m))) by (rewrite E; now left).
  apply filter_In in H as [H _]. apply in_seq in H. lia.
Qed.

Section Loop.
Variables (vs0 : list Point3f) (cs0 : list RGB) (out : nat -> bool) (outliers : list nat).
Hypothesis Hlen : List.length cs0 = List.length vs0.

(** The compaction loop from index [i] on: what was kept so far is the
    front of the vectors, the entries from [writeIndex] on are the
    original ones, and the cursor stands at the first outlier not yet
    passed. *)
Lemma compact_loop m : forall i (K : list Point3f) (Kc : list RGB) w cur,
  (i + m = List.length vs0)%nat ->
  List.length K = w -> List.length Kc = w -> (w <= i)%nat ->
  skipn cur outliers = filter out (seq i m) ->
  let keep := filter (fun j => negb (out j)) (seq i m) in
  let '(vs', cs', w', _) :=
    fold_left (CompactStep outliers) (seq i m)
              (K ++ skipn w vs0, Kc ++ skipn w cs0, w, cur) in
  firstn w' vs' = K ++ map (fun j => nth j vs0 Point3f_default) keep /\
  firstn w' cs' = Kc ++ map (fun j => nth j cs0 RGB_default) keep /\
  (w' <= List.length vs')%nat /\ (w' <= List.length cs')%nat.
Proof.
  induction m as [|m IH]; intros i K Kc w cur Hi HK HKc Hw Hcur;
    cbn [seq fold_left filter].
  - cbn [map]. rewrite !app_nil_r.
    rewrite (@firstn_app_exact _ K _ w HK), (@firstn_app_exact _ Kc _ w HKc).
    rewrite !length_app. repeat split; lia.
  - cbn [seq filter] in Hcur. unfold CompactStep at 2.
    destruct (out i) eqn:Eo; cbn [negb].
    + assert (Hc1 : (cur < List.length outliers)%nat).
      { destruct (Nat.lt_ge_cases cur (List.length outliers)) as [L|L]; [exact L|].
        rewrite skipn_all2 in Hcur by lia. discriminate. }
      assert (Hc2 : nth cur outliers 0%nat = i).
      { rewrite (@skipn_cons_nth _ outliers cur 0%nat Hc1) in Hcur. now injection Hcur. }
      apply Nat.ltb_lt in Hc1 as Hc1'. rewrite Hc1', Hc2, Nat.eqb_refl. cbn [andb].
      apply IH; [lia|exact HK|exact HKc|lia|].
      rewrite (@skipn_cons_nth _ outliers cur 0%nat Hc1) in Hcur. now injection Hcur.
    + assert (Ht : (cur <? List.length outliers)%nat
                   && (i =? nth cur outliers 0)%nat = false).
      { destruct (cur <? List.length outliers)%nat eqn:L; [|reflexivity].
        apply Nat.ltb_lt in L. cbn [andb]. apply Nat.eqb_neq.
        rewrite (@skipn_cons_nth _ outliers cur 0%nat L) in Hcur.
        symmetry in Hcur. apply filter_seq_ge in Hcur. lia. }
      rewrite Ht.
      assert (Lv : (w < List.length vs0)%nat) by lia.
      assert (Lc : (w < List.length cs0)%nat) by lia.
      rewrite (@nth_app_skipn _ K vs0 w i Point3f_default HK Hw).
      rewrite (@nth_app_skipn _ Kc cs0 w i RGB_default HKc Hw).
      rewrite (@skipn_cons_nth _ vs0 w Point3f_default Lv), (@assign_app _ K w _ _ _ HK).
      rewrite (@skipn_cons_nth _ cs0 w RGB_default Lc), (@assign_app _ Kc w _ _ _ HKc).
      specialize (IH (S i) (K ++ [nth i vs0 Point3f_default])
                     (Kc ++ [nth i cs0 RGB_default]) (S w) cur).
      specialize (IH ltac:(lia)
                     ltac:(rewrite length_app; cbn; lia)
                     ltac:(rewrite length_app; cbn; lia) ltac:(lia) Hcur).
      cbv zeta in IH. rewrite <- !app_assoc in IH. cbn [app] in IH.
      cbn [map]. exact IH.
Qed.

End Loop.

Lemma resize_firstn (A : Type) (d : A) l n :
  (n <= List.length l)%nat -> resize d l n = firstn n l.
Proof.
  intros H. unfold resize. replace (n - List.length l)%nat with 0%nat by lia.
  cbn. apply app_nil_r.
Qed.

End KnnFacts.

(** X8. The in-place compaction of [Filter] keeps exactly the points whose
    k-th neighbour distance is at most [maxDist * maxDist], in their
    order, and keeps for each the colour of the same index: vertices and
    colours after the call are the entries of the same increasing list of
    indices. *)
Theorem Filter_keeps_the_inliers_with_their_colours
    (KthNeighbourDistance : list Point3f -> Z -> nat -> Q)
    (vertices : list Point3f) (colors : list RGB) (k : Z) (maxDist : Q) :
  List.length colors = List.length vertices ->
  (0 < k)%Z -> 0 < maxDist ->
  let kept :=
    filter (fun i => Qle_bool (KthNeighbourDistance vertices k i) (maxDist * maxDist))
           (seq 0 (List.length vertices)) in
  Knn.Filter KthNeighbourDistance vertices colors k maxDist
  = (map (fun i => nth i vertices Point3f_default) kept,
     map (fun i => nth i colors RGB_default) kept).
Proof.
  intros Hl Hk Hd. cbv zeta. unfold Knn.Filter.
  assert (E1 : (k <=? 0)%Z = false) by (apply Z.leb_gt; lia).
  assert (E2 : Qleb maxDist 0 = false).
  { unfold Qleb. destruct (Qle_bool maxDist 0) eqn:E; [|reflexivity].
    apply Qle_bool_iff in E. Lqa.lra. }
  rewrite E1, E2. cbn [orb]. cbv zeta.
  pose proof (@KnnFacts.compact_loop vertices colors
                (fun i => Qltb (maxDist * maxDist) (KthNeighbourDistance vertices k i))
                (Knn.OutlierIndices KthNeighbourDistance vertices k maxDist) Hl
                (List.length vertices) 0%nat [] [] 0%nat 0%nat
                eq_refl eq_refl eq_refl (Nat.le_refl _) eq_refl) as L.
  cbv zeta in L. cbn [List.length skipn app] in L.
  destruct (fold_left _ _ _) as [[[vs' cs'] w'] cur'].
  destruct L as (A & B & C & D).
  rewrite (@KnnFacts.resize_firstn _ _ _ _ C), (@KnnFacts.resize_firstn _ _ _ _ D), A, B.
  assert (F : forall l, filter (fun j => negb (Qltb (maxDist * maxDist)
                                             (KthNeighbourDistance vertices k j))) l
              = filter (fun i => Qle_bool (KthNeighbourDistance vertices k i)
                                          (maxDist * maxDist)) l).
  { intros l. apply filter_ext. intros j. unfold Qltb. apply negb_involutive. }
  rewrite F. reflexivity.
Qed.

Lemma Filter_keeps_the_inliers_with_their_colours_witness :
  let kth := fun (_ : list Point3f) (_ : Z) (i : nat) =>
               if Nat.even i then 1 # 100 else 4 # 1 in
  Knn.Filter kth (firstn 5 Examples.frame12) (firstn 5 Examples.colors12) 3 1
  = (map (fun i => nth i (firstn 5 Examples.frame12) Point3f_default) [0; 2; 4]%nat,
     map (fun i => nth i (firstn 5 Examples.colors12) RGB_default) [0; 2; 4]%nat).
Proof.
  cbv zeta.
  apply (@Filter_keeps_the_inliers_with_their_colours
           (fun (_ : list Point3f) (_ : Z) (i : nat) =>
              if Nat.even i then 1 # 100 else 4 # 1)
           (firstn 5 Examples.frame12) (firstn 5 Examples.colors12) 3 1).
  - reflexivity.
  - lia.
  - reflexivity.
Defined.

Module ProcessFrameKnn.

(** The lengths of the two vectors [ProcessFrame] publishes. *)
Lemma ProcessFrame_lengths
    (KthNeighbourDistance : list Point3f -> Z -> nat -> Q)
    (c : Client.LiveScanClient) (vertices : list Point3f) (colors : list RGB) :
  let out := Client.ProcessFrame (Knn.Filter KthNeighbourDistance) c vertices colors in
  List.length (snd out) = List.length (fst out) /\
  (List.length (fst out) <= List.length vertices)%nat.
Proof.
  cbv zeta. unfold Client.ProcessFrame, Client.ProcessFrameFloat.
  pose proof (ProcessFrameMore.copy_count c vertices colors) as H.
  cbv zeta in H. unfold Client.SurvivingVertices in H.
  destruct (Client.CalibrateAndClip _ _ _ vertices) as [[l n] f']. cbn [fst snd] in H.
  set (copied := Client.CopyValid (Client.DensityFilter l) colors) in *.
  set (gv := map fst copied ++ repeat Point3f_default (Z.to_nat n - List.length copied)).
  set (gc := map snd copied ++ repeat RGB_default (Z.to_nat n - List.length copied)).
  assert (Lv : List.length gv = Z.to_nat n).
  { unfold gv. rewrite length_app, length_map, repeat_length. lia. }
  assert (Lc : List.length gc = List.length gv).
  { unfold gv, gc. now rewrite !length_app, !length_map, !repeat_length. }
  destruct (Client.isFilterEnabled c).
  - unfold Knn.Filter.
    destruct ((Client.numFilterNeighbors c <=? 0)%Z || Qleb (Client.filterThreshold c) 0).
    + cbn [fst snd]. rewrite length_map. split; [exact Lc|lia].
    + pose proof (@KnnFacts.compact_loop gv gc
                (fun i => Qltb (Client.filterThreshold c * Client.filterThreshold c)
                               (KthNeighbourDistance gv (Client.numFilterNeighbors c) i))
                (Knn.OutlierIndices KthNeighbourDistance gv (Client.numFilterNeighbors c)
                                    (Client.filterThreshold c)) Lc
                (List.length gv) 0%nat [] [] 0%nat 0%nat
                eq_refl eq_refl eq_refl (Nat.le_refl _) eq_refl) as L.
      cbv zeta in L. cbn [List.length skipn app] in L.
      destruct (fold_left _ _ _) as [[[vs' cs'] w'] cur'].
      destruct L as (A & B & C & D). cbn [fst snd].
      rewrite (@KnnFacts.resize_firstn _ _ _ _ C), (@KnnFacts.resize_firstn _ _ _ _ D), A, B.
      rewrite !length_map. split; [reflexivity|].
      pose proof (ProcessFrameMore.filter_length_le
                    (fun j => negb (Qltb (Client.filterThreshold c * Client.filterThreshold c)
                               (KthNeighbourDistance gv (Client.numFilterNeighbors c) j)))
                    (seq 0 (List.length gv))) as F.
      rewrite length_seq in F. lia.
  - cbn [fst snd]. rewrite length_map. split; [exact Lc|lia].
Qed.

End ProcessFrameKnn.

(** X9. Whatever the settings and whatever the KNN search returns,
    [ProcessFrame] with the KNN filter publishes as many colours as
    vertices, and at most as many as were captured. *)
Theorem ProcessFrame_publishes_as_many_colours_as_vertices
    (KthNeighbourDistance : list Point3f -> Z -> nat -> Q)
    (c : Client.LiveScanClient) (vertices : list Point3f) (colors : list RGB) :
  let out := Client.ProcessFrame (Knn.Filter KthNeighbourDistance) c vertices colors in
  List.length (snd out) = List.length (fst out) /\
  (List.length (fst out) <= List.length vertices)%nat.
Proof.
  apply ProcessFrameKnn.ProcessFrame_lengths.
Qed.

(* ===================================================================== *)
(** * The recording file *)
(* ===================================================================== *)

Module FrameIOFacts.
Import Stream FrameIO.

Lemma read_digits_uint d : forall l acc cnt,
  no_digit_head l ->
  exists n, (cnt <= n)%Z /\ (d <> Decimal.Nil -> (cnt < n)%Z) /\
    read_digits (list_ascii_of_string (DecimalString.NilEmpty.string_of_uint d) ++ l) acc cnt
    = (uval d acc, n, l).
Proof.
  induction d; intros l acc cnt Hl;
    cbn [DecimalString.NilEmpty.string_of_uint list_ascii_of_string app uval].
  1: { exists cnt. split; [lia|]. split; [congruence|].
       destruct l as [|c l]; cbn [read_digits]; [reflexivity|].
       cbn in Hl. now rewrite Hl. }
  all: cbn [read_digits]; eval_digit;
    match goal with
    | |- context [read_digits _ ?a ?k] => destruct (IHd l a k Hl) as (n & A & _ & C)
    end;
    exists n; split; [lia|]; split; [lia|]; exact C.
Qed.

Lemma of_uint_acc_uval d : forall acc,
  Zpos (Pos.of_uint_acc d acc) = uval d (Zpos acc).
Proof.
  induction d; intros acc; cbn [Pos.of_uint_acc uval]; [reflexivity| ..];
    rewrite IHd; f_equal; lia.
Qed.

Lemma of_uint_uval d : Z.of_N (Pos.of_uint d) = uval d 0.
Proof.
  induction d; cbn [Pos.of_uint uval]; [reflexivity|exact IHd| ..];
    cbn [Z.of_N]; rewrite of_uint_acc_uval; reflexivity.
Qed.

Lemma uval_to_uint p : uval (Pos.to_uint p) 0 = Zpos p.
Proof.
  rewrite <- of_uint_uval, DecimalPos.Unsigned.of_to. reflexivity.
Qed.

Lemma uint_head_not_sign d l :
  d <> Decimal.Nil ->
  read_sign (list_ascii_of_string (DecimalString.NilEmpty.string_of_uint d) ++ l)
  = (false, list_ascii_of_string (DecimalString.NilEmpty.string_of_uint d) ++ l) /\
  skipws (list_ascii_of_string (DecimalString.NilEmpty.string_of_uint d) ++ l)
  = list_ascii_of_string (DecimalString.NilEmpty.string_of_uint d) ++ l.
Proof.
  destruct d; [congruence| ..]; intros _; split; reflexivity.
Qed.

Lemma NilZero_nonnil d :
  d <> Decimal.Nil ->
  DecimalString.NilZero.string_of_uint d = DecimalString.NilEmpty.string_of_uint d.
Proof. destruct d; [congruence| ..]; reflexivity. Qed.

(** A printed [int] followed by something that is not a digit is read
    back as the same number, and reading stops where the number ends. *)
Lemma parse_print_int z l :
  no_digit_head l ->
  parse_int (list_ascii_of_string (print_int z) ++ l) = Some (z, l) /\
  skipws (list_ascii_of_string (print_int z) ++ l)
  = list_ascii_of_string (print_int z) ++ l.
Proof.
  intros Hl. unfold print_int, string_of_Z, parse_int.
  destruct z as [|p|p]; cbn [Z.to_int DecimalString.NilZero.string_of_int].
  - change (list_ascii_of_string (DecimalString.NilZero.string_of_uint (Pos.to_uint 1%positive)))
      with (list_ascii_of_string "1") || idtac.
    cbn. destruct l as [|c l]; cbn; [split; reflexivity|].
    cbn in Hl. rewrite Hl. split; reflexivity.
  - pose proof (DecimalPos.Unsigned.to_uint_nonnil p) as Hn.
    rewrite (NilZero_nonnil Hn).
    destruct (uint_head_not_sign l Hn) as [E1 E2]. rewrite E1, E2.
    destruct (read_digits_uint (Pos.to_uint p) l 0%Z 0%Z Hl) as (n & A & B & C).
    rewrite C. specialize (B Hn).
    destruct (n =? 0)%Z eqn:E; [apply Z.eqb_eq in E; lia|].
    rewrite uval_to_uint. split; reflexivity.
  - pose proof (DecimalPos.Unsigned.to_uint_nonnil p) as Hn.
    rewrite (NilZero_nonnil Hn).
    cbn [list_ascii_of_string app read_sign skipws].
    change (is_space "-"%char) with false. cbv iota.
    destruct (read_digits_uint (Pos.to_uint p) l 0%Z 0%Z Hl) as (n & A & B & C).
    rewrite C. specialize (B Hn).
    destruct (n =? 0)%Z eqn:E; [apply Z.eqb_eq in E; lia|].
    rewrite uval_to_uint. split; reflexivity.
Qed.

Lemma unbyte_byte z : unbyte (byte z) = (z mod 256)%Z.
Proof.
  unfold unbyte, byte. rewrite nat_ascii_embedding.
  - rewrite Z2Nat.id; [reflexivity|]. apply Z.mod_pos_bound. lia.
  - pose proof (Z.mod_pos_bound z 256 ltac:(lia)). lia.
Qed.

Lemma short_round_trip s :
  short_range s -> short_of_bytes (byte s) (byte (s / 256)) = s.
Proof.
  unfold short_range, short_of_bytes, to_int16. intros H. rewrite !unbyte_byte.
  Z.div_mod_to_equations. lia.
Qed.

Lemma byte_round_trip b : byte_range b -> unbyte (byte b) = b.
Proof.
  unfold byte_range. intros H. rewrite unbyte_byte. apply Z.mod_small. lia.
Qed.

Lemma read_points_bytes points : forall l,
  Forall (fun p => short_range (Xs p) /\ short_range (Ys p) /\ short_range (Zs p)) points ->
  read_points (List.length points) (flat_map bytes_of_Point3s points ++ l) = (points, l).
Proof.
  induction points as [|[x y z] points IH]; intros l H; [reflexivity|].
  inversion H as [|? ? (Hx & Hy & Hz) H']; subst. cbn in Hx, Hy, Hz.
  cbn [List.length flat_map bytes_of_Point3s bytes_of_short Xs Ys Zs app read_points].
  rewrite (IH l H').
  now rewrite !short_round_trip.
Qed.

Lemma read_colors_bytes colors : forall l,
  Forall (fun c => byte_range (Blue c) /\ byte_range (Green c) /\ byte_range (Red c)) colors ->
  read_colors (List.length colors) (flat_map bytes_of_RGB colors ++ l) = (colors, l).
Proof.
  induction colors as [|[b g r] colors IH]; intros l H; [reflexivity|].
  inversion H as [|? ? (Hb & Hg & Hr) H']; subst. cbn in Hb, Hg, Hr.
  cbn [List.length flat_map bytes_of_RGB Blue Green Red app read_colors].
  rewrite (IH l H'). now rewrite !byte_round_trip.
Qed.

Lemma skipws_blank pre l : blank pre -> skipws (pre ++ l) = skipws l.
Proof.
  induction 1 as [|c pre Hc _ IH]; [reflexivity|]. cbn [app skipws]. now rewrite Hc.
Qed.

Lemma skipws_all_blank l : blank l -> skipws l = [].
Proof.
  intros H. rewrite <- (app_nil_r l). now rewrite skipws_blank.
Qed.

Lemma skip_word_app w c l :
  Forall (fun x => is_space x = false) w -> is_space c = true ->
  skip_word (w ++ c :: l) = c :: l.
Proof.
  intros Hw Hc. induction Hw as [|x w Hx _ IH]; cbn [app skip_word].
  - now rewrite Hc.
  - now rewrite Hx.
Qed.

(** [%s] on a word followed by white space. *)
Lemma scan_string_word pre x w c l :
  blank pre -> Forall (fun x => is_space x = false) (x :: w) -> is_space c = true ->
  scan_string (pre ++ (x :: w) ++ c :: l) = Some (c :: l).
Proof.
  intros Hpre Hw Hc. unfold scan_string. rewrite (skipws_blank _ Hpre).
  inversion Hw as [|? ? Hx Hw']; subst.
  cbn [app skipws]. rewrite Hx.
  change (x :: w ++ c :: l) with ((x :: w) ++ c :: l).
  now rewrite (@skip_word_app (x :: w) c l Hw Hc).
Qed.

(** [%d] on white space, a printed number and a new line. *)
Lemma scan_int_printed c z l :
  is_space c = true ->
  scan_int (c :: list_ascii_of_string (print_int z) ++ newline :: l)
  = Some (z, newline :: l).
Proof.
  intros Hc. unfold scan_int. cbn [skipws]. rewrite Hc.
  assert (Hnl : no_digit_head (newline :: l)) by reflexivity.
  destruct (@parse_print_int z _ Hnl) as [P S]. now rewrite S, P.
Qed.

(** The header [WriteFrame] prints is read back by the [fscanf_s] of
    [ReadFrame]: four items, the number of points, and the file left at
    the new line that ends the header. *)
Lemma scan_header_written pre numPoints timestamp l :
  blank pre ->
  scan_header (pre ++ list_ascii_of_string "n_points= "
                   ++ list_ascii_of_string (print_int numPoints) ++ [newline]
                   ++ list_ascii_of_string "frame_timestamp= "
                   ++ list_ascii_of_string (print_int timestamp) ++ [newline] ++ l)
  = (4%Z, numPoints, newline :: l).
Proof.
  intros Hpre. unfold scan_header.
  change (list_ascii_of_string "n_points= ")
    with (list_ascii_of_string "n_points=" ++ [" "%char]).
  change (list_ascii_of_string "frame_timestamp= ")
    with (list_ascii_of_string "frame_timestamp=" ++ [" "%char]).
  rewrite <- !app_assoc. cbn [app].
  change (list_ascii_of_string "n_points=")
    with ("n"%char :: list_ascii_of_string "_points=").
  rewrite (@scan_string_word pre _ _ " "%char _ Hpre);
    [|repeat constructor|reflexivity].
  rewrite scan_int_printed by reflexivity.
  change (newline :: list_ascii_of_string "frame_timestamp=" ++ ?t)
    with ([newline] ++ list_ascii_of_string "frame_timestamp=" ++ t).
  change (list_ascii_of_string "frame_timestamp=")
    with ("f"%char :: list_ascii_of_string "rame_timestamp=").
  rewrite (@scan_string_word [newline] _ _ " "%char _);
    [|repeat constructor|repeat constructor|reflexivity].
  rewrite scan_int_printed by reflexivity. reflexivity.
Qed.

Lemma to_int32_small z : (0 <= z < 2 ^ 31)%Z -> to_int32 z = z.
Proof.
  intros H. unfold to_int32. rewrite Z.mod_small; lia.
Qed.

Lemma ReadFrame_WriteFrame pre points colors timestamp post :
  blank pre -> WellFormed points colors ->
  ReadFrame (pre ++ WriteFrame points colors timestamp ++ post)
  = Some (true, points, colors,
          match points with [] => newline :: newline :: post | _ => post end).
Proof.
  intros Hpre (Hl & Hn & Hp & Hc). unfold WriteFrame, ReadFrame.
  rewrite to_int32_small by lia. rewrite Nat2Z.id.
  rewrite <- !app_assoc. rewrite (scan_header_written _ _ _ Hpre).
  change (4 <? 4)%Z with false. cbv iota.
  destruct points as [|p points].
  - destruct colors; [|discriminate]. cbn. reflexivity.
  - set (pts := p :: points) in *.
    assert (E0 : (Z.of_nat (List.length pts) =? 0)%Z = false)
      by (apply Z.eqb_neq; cbn [List.length pts]; lia).
    assert (E1 : (Z.of_nat (List.length pts) <? 0)%Z = false)
      by (apply Z.ltb_ge; lia).
    assert (E2 : (0 <? Z.of_nat (List.length pts))%Z = true)
      by (apply Z.ltb_lt; cbn [List.length pts]; lia).
    rewrite E0, E1, E2. cbn [tl]. rewrite ?firstn_all, ?Nat2Z.id.
    replace (firstn (List.length pts) colors) with colors
      by (rewrite <- Hl; symmetry; apply firstn_all).
    rewrite <- !app_assoc.
    rewrite (read_points_bytes _ Hp). rewrite <- Hl.
    rewrite (read_colors_bytes _ Hc). reflexivity.
Qed.

End FrameIOFacts.

(** X10. A frame written by [WriteFrame] is read back by [ReadFrame]: for
    a frame with as many colours as points, read at the start of the
    frame or after white space and whatever follows it in the file,
    [ReadFrame] returns true with the points and the colours that were
    written.  After a frame with points the file is left at the end of
    the frame; after an empty frame two new lines are left unread. *)
Theorem ReadFrame_reads_back_WriteFrame
    (pre : list ascii) (points : list Point3s) (colors : list RGB) (timestamp : Z)
    (post : list ascii) :
  FrameIO.blank pre -> FrameIO.WellFormed points colors ->
  FrameIO.ReadFrame (pre ++ FrameIO.WriteFrame points colors timestamp ++ post)
  = Some (true, points, colors,
          match points with
          | [] => FrameIO.newline :: FrameIO.newline :: post
          | _ => post
          end).
Proof.
  apply FrameIOFacts.ReadFrame_WriteFrame.
Qed.

Lemma ReadFrame_reads_back_WriteFrame_witness :
  FrameIO.ReadFrame
    ([FrameIO.newline] ++
     FrameIO.WriteFrame [mkPoint3s 12 (-7) 1500; mkPoint3s (-32768) 32767 0]
                        [mkRGB 1 2 3; mkRGB 255 0 10] 123456789012
     ++ list_ascii_of_string "n_points= 0")
  = Some (true, [mkPoint3s 12 (-7) 1500; mkPoint3s (-32768) 32767 0],
          [mkRGB 1 2 3; mkRGB 255 0 10], list_ascii_of_string "n_points= 0").
Proof.
  apply (@ReadFrame_reads_back_WriteFrame [FrameIO.newline]
           [mkPoint3s 12 (-7) 1500; mkPoint3s (-32768) 32767 0]
           [mkRGB 1 2 3; mkRGB 255 0 10] 123456789012
           (list_ascii_of_string "n_points= 0")).
  - repeat constructor.
  - unfold FrameIO.WellFormed, FrameIO.short_range, FrameIO.byte_range.
    split; [reflexivity|]. split; [cbn; lia|].
    split; repeat constructor; cbn; lia.
Defined.

(** X11. Playing back a recording: after [WriteFrame] was called for each
    frame of a list, as many calls of [RequestRecordedFrame] hand the
    frames to [SendRecordedFrame] in the order they were written, each
    with [noMoreFrames] false, and the next [ReadFrame] returns false
    with no points. *)
Theorem RequestRecordedFrames_replays_the_recording
    (frames : list (list Point3s * list RGB * Z)) :
  Forall (fun f => FrameIO.WellFormed (fst (fst f)) (snd (fst f))) frames ->
  exists rest : list ascii,
    FrameIO.RequestRecordedFrames (List.length frames) (FrameIO.WriteFrames frames)
    = Some (map (fun f => (fst (fst f), snd (fst f), false)) frames, rest) /\
    FrameIO.ReadFrame rest = Some (false, [], [], []).
Proof.
  intros H.
  assert (G : forall pre, FrameIO.blank pre ->
    exists rest, FrameIO.blank rest /\
      FrameIO.RequestRecordedFrames (List.length frames) (pre ++ FrameIO.WriteFrames frames)
      = Some (map (fun f => (fst (fst f), snd (fst f), false)) frames, rest)).
  { induction H as [|[[points colors] ts] frames Hf _ IH]; intros pre Hpre.
    - exists pre. split; [exact Hpre|]. cbn. now rewrite app_nil_r.
    - cbn [fst snd] in Hf. cbn [List.length FrameIO.RequestRecordedFrames map fst snd].
      unfold FrameIO.WriteFrames. cbn [flat_map]. fold (FrameIO.WriteFrames frames).
      rewrite (FrameIOFacts.ReadFrame_WriteFrame ts (FrameIO.WriteFrames frames) Hpre Hf).
      destruct points as [|p points].
      + destruct (IH [FrameIO.newline; FrameIO.newline]) as (rest & Hr & E).
        { repeat constructor. }
        cbn [app] in E. rewrite E. exists rest. split; [exact Hr|reflexivity].
      + destruct (IH []) as (rest & Hr & E); [constructor|].
        cbn [app] in E. rewrite E. exists rest. split; [exact Hr|reflexivity]. }
  destruct (G [] (Forall_nil _)) as (rest & Hr & E). exists rest. split; [exact E|].
  unfold FrameIO.ReadFrame, FrameIO.scan_header, FrameIO.scan_string.
  rewrite (FrameIOFacts.skipws_all_blank Hr). reflexivity.
Qed.

Lemma RequestRecordedFrames_replays_the_recording_witness :
  exists rest : list ascii,
    FrameIO.RequestRecordedFrames 3
      (FrameIO.WriteFrames [([mkPoint3s 1 2 3], [mkRGB 4 5 6], 10%Z);
                            ([], [], 20%Z);
                            ([mkPoint3s (-1) 0 9; mkPoint3s 48 32 10],
                             [mkRGB 0 0 0; mkRGB 10 32 48], 30%Z)])
    = Some ([([mkPoint3s 1 2 3], [mkRGB 4 5 6], false);
             ([], [], false);
             ([mkPoint3s (-1) 0 9; mkPoint3s 48 32 10],
              [mkRGB 0 0 0; mkRGB 10 32 48], false)], rest) /\
    FrameIO.ReadFrame rest = Some (false, [], [], []).
Proof.
  apply (@RequestRecordedFrames_replays_the_recording
           [([mkPoint3s 1 2 3], [mkRGB 4 5 6], 10%Z);
            ([], [], 20%Z);
            ([mkPoint3s (-1) 0 9; mkPoint3s 48 32 10],
             [mkRGB 0 0 0; mkRGB 10 32 48], 30%Z)]).
  unfold FrameIO.WellFormed, FrameIO.short_range, FrameIO.byte_range.
  repeat constructor; cbn; lia.
Defined.

(* ===================================================================== *)
(** * A point cloud on the wire *)
(* ===================================================================== *)

Module TransferFacts.
Import Wire Transfer.

Lemma triple_ind (A : Type) (P : list A -> Prop) :
  P [] -> (forall x, P [x]) -> (forall x y, P [x; y]) ->
  (forall x y z l, P l -> P (x :: y :: z :: l)) ->
  forall l, P l.
Proof.
  intros H0 H1 H2 H3.
  assert (G : forall l, P l /\ (forall x, P (x :: l)) /\ (forall x y, P (x :: y :: l))).
  { induction l as [|a l (I0 & I1 & I2)]; [auto|].
    split; [apply I1|]. split; [intros x; apply I2|]. intros x y. now apply H3. }
  intros l. apply G.
Qed.

Lemma triple_eqb_eq a b : triple_eqb a b = true <-> a = b.
Proof.
  destruct a as [[a0 a1] a2], b as [[b0 b1] b2]. unfold triple_eqb.
  rewrite !andb_true_iff, !Z.eqb_eq. split.
  - intros [[-> ->] ->]. reflexivity.
  - intros [= -> -> ->]. auto.
Qed.

Lemma Contains_false_cons s p c :
  Contains (p :: s) c = false -> c <> p /\ Contains s c = false.
Proof.
  unfold Contains. cbn [existsb]. rewrite orb_false_iff. intros [E1 E2].
  split; [|exact E2]. intros ->.
  assert (T : triple_eqb p p = true) by now apply triple_eqb_eq.
  congruence.
Qed.

(** The loop of [SendPointCloud] from index [i] on: what it adds to the
    two lists are the bytes and the colours of vertices of the list, each
    in range, with codes that are pairwise distinct and not in
    [uniquePoints]. *)
Lemma FilterPoints_kept scale colors vs0 vertices :
  forall i uniquePoints fv fc,
  (forall j, nth_error vertices j = nth_error vs0 (i + j)) ->
  FilterPoints scale vertices colors i uniquePoints = Some (fv, fc) ->
  exists kept,
    fv = flat_map (fun k => bytes3 (code k)) kept /\
    fc = flat_map (fun k => bytes3 (colour k)) kept /\
    Forall (KeptFrom scale vs0 colors) kept /\
    NoDup (map code kept) /\
    Forall (fun k => Contains uniquePoints (code k) = false) kept /\
    (3 * List.length kept <= List.length vertices)%nat.
Proof.
  induction vertices as [|x|x y|x y z rest IH] using triple_ind;
    intros i uniq fv fc Hs; cbn [FilterPoints]; try discriminate.
  - intros [= <- <-]. exists []. cbn. repeat split; constructor.
  - assert (Hs' : forall j, nth_error rest j = nth_error vs0 (i + 3 + j)).
    { intros j. replace (i + 3 + j)%nat with (i + (3 + j))%nat by lia.
      rewrite <- Hs. reflexivity. }
    assert (Le : forall kept : list Kept,
               (3 * List.length kept <= List.length rest)%nat ->
               (3 * List.length kept <= List.length (x :: y :: z :: rest))%nat).
    { intros kept. cbn [List.length]. lia. }
    destruct (OutOfRange x y z) eqn:Eo.
    { intros H. destruct (IH _ _ _ _ Hs' H) as (kept & A & B & C & D & E & F).
      exists kept. auto 10. }
    cbv zeta.
    set (point := (EncodeFloatToByte x XRangeCenter scale,
                   EncodeFloatToByte y YRangeCenter scale,
                   EncodeFloatToByte z ZRangeCenter scale)).
    destruct (Contains uniq point) eqn:Ec.
    { intros H. destruct (IH _ _ _ _ Hs' H) as (kept & A & B & C & D & E & F).
      exists kept. auto 10. }
    destruct (nth_error colors i) as [c0|] eqn:E0; [|discriminate].
    destruct (nth_error colors (i + 1)) as [c1|] eqn:E1; [|discriminate].
    destruct (nth_error colors (i + 2)) as [c2|] eqn:E2; [|discriminate].
    destruct (FilterPoints scale rest colors (i + 3) (point :: uniq))
      as [[fv' fc']|] eqn:Er; [|discriminate].
    intros [= <- <-].
    destruct (IH _ _ _ _ Hs' Er) as (kept & A & B & C & D & E & F).
    exists (mkKept i point (c0, c1, c2) :: kept). subst fv' fc'.
    split; [reflexivity|]. split; [reflexivity|].
    assert (E' : Forall (fun k => code k <> point /\ Contains uniq (code k) = false) kept).
    { eapply Forall_impl; [|exact E]. intros k. apply Contains_false_cons. }
    split; [|split; [|split]].
    + constructor; [|exact C].
      exists x, y, z. cbn [index code colour fst snd].
      pose proof (Hs 0%nat) as H0. pose proof (Hs 1%nat) as H1.
      pose proof (Hs 2%nat) as H2. cbn [nth_error] in H0, H1, H2.
      rewrite Nat.add_0_r in H0. auto 10.
    + cbn [map code]. constructor; [|exact D].
      intros Hin. apply in_map_iff in Hin as (k & Ek & Hk).
      rewrite Forall_forall in E'. destruct (E' k Hk) as [Hne _]. congruence.
    + constructor; [exact Ec|].
      eapply Forall_impl; [|exact E']. intros k [_ Hk]. exact Hk.
    + cbn [List.length]. cbn [List.length] in F. lia.
Qed.

Lemma div3 n : (Z.of_nat (3 * n) / 3 = Z.of_nat n)%Z.
Proof.
  rewrite Nat2Z.inj_mul. change (Z.of_nat 3) with 3%Z.
  rewrite Z.mul_comm, Z.div_mul; lia.
Qed.

Lemma chunks3_flat_map (A : Type) (f : A -> Z * Z * Z) l :
  chunks3 (flat_map (fun k => bytes3 (f k)) l) = map f l.
Proof.
  induction l as [|a l IH]; [reflexivity|]. cbn [flat_map map].
  destruct (f a) as [[b0 b1] b2]. cbn. now rewrite IH.
Qed.

Lemma length_flat_map3 (A : Type) (f : A -> Z * Z * Z) l :
  List.length (flat_map (fun k => bytes3 (f k)) l) = (3 * List.length l)%nat.
Proof.
  induction l as [|a l IH]; [reflexivity|]. cbn [flat_map].
  destruct (f a) as [[b0 b1] b2]. cbn [bytes3 app List.length]. rewrite IH. lia.
Qed.

Lemma nth_flat_map3 (A : Type) (f : A -> Z * Z * Z) (d : A) l : forall i,
  (i < List.length l)%nat ->
  (nth (i * 3) (flat_map (fun k => bytes3 (f k)) l) 0%Z,
   nth (i * 3 + 1) (flat_map (fun k => bytes3 (f k)) l) 0%Z,
   nth (i * 3 + 2) (flat_map (fun k => bytes3 (f k)) l) 0%Z)
  = f (nth i l d).
Proof.
  induction l as [|a l IH]; intros i Hi; cbn [List.length] in Hi; [lia|].
  cbn [flat_map]. destruct i as [|i].
  - cbn [nth]. destruct (f a) as [[b0 b1] b2]. reflexivity.
  - specialize (IH i ltac:(lia)). cbn [nth]. rewrite <- IH.
    destruct (f a) as [[b0 b1] b2]. cbn [bytes3 app].
    replace (S i * 3)%nat with (S (S (S (i * 3)))) by lia.
    replace (S (S (S (i * 3))) + 1)%nat with (S (S (S (i * 3 + 1)))) by lia.
    replace (S (S (S (i * 3))) + 2)%nat with (S (S (S (i * 3 + 2)))) by lia.
    reflexivity.
Qed.

Lemma map_seq_nth (A B : Type) (h : A -> B) (d : A) l :
  map (fun i => h (nth i l d)) (seq 0 (List.length l)) = map h l.
Proof.
  induction l as [|a l IH]; [reflexivity|].
  cbn [List.length seq map nth]. f_equal.
  rewrite <- seq_shift, map_map. exact IH.
Qed.

Lemma DeserializePointCloud_kept scale (kept : list Kept) :
  DeserializePointCloud (List.length kept) scale
    (flat_map (fun k => bytes3 (code k)) kept)
    (flat_map (fun k => bytes3 (colour k)) kept)
  = (map (fun k => DecodePoint scale (code k)) kept,
     map (fun k => Color32 (colour k)) kept).
Proof.
  unfold DeserializePointCloud, PointXYZDataSize, PointRGBDataSize. cbv zeta.
  set (d := mkKept 0 (0, 0, 0)%Z (0, 0, 0)%Z).
  f_equal.
  - rewrite <- (map_seq_nth (fun k => DecodePoint scale (code k)) d kept).
    apply map_ext_in. intros i Hi. apply in_seq in Hi.
    pose proof (nth_flat_map3 code d kept (i := i) ltac:(lia)) as E.
    destruct (code (nth i kept d)) as [[b0 b1] b2].
    injection E as -> -> ->. reflexivity.
  - rewrite <- (map_seq_nth (fun k => Color32 (colour k)) d kept).
    apply map_ext_in. intros i Hi. apply in_seq in Hi.
    pose proof (nth_flat_map3 colour d kept (i := i) ltac:(lia)) as E.
    destruct (colour (nth i kept d)) as [[b0 b1] b2].
    injection E as -> -> ->. reflexivity.
Qed.

Lemma ReadShort_GetBytes16 v l :
  (-32768 <= v <= 32767)%Z -> ReadShort (GetBytes16 v ++ l) = Some (v, l).
Proof.
  intros H. unfold ReadShort, GetBytes16. cbn [app]. f_equal. f_equal.
  unfold to_int16. Z.div_mod_to_equations. lia.
Qed.

Lemma ReadInt_GetBytes32 v l :
  (- 2 ^ 31 <= v < 2 ^ 31)%Z -> ReadInt (GetBytes32 v ++ l) = Some (v, l).
Proof.
  intros H. unfold ReadInt, GetBytes32. cbn [app]. f_equal. f_equal.
  unfold FrameIO.to_int32.
  change (2 ^ 31)%Z with 2147483648%Z in *. change (2 ^ 32)%Z with 4294967296%Z.
  Z.div_mod_to_equations. lia.
Qed.

Lemma ReadBytes_app n l r :
  List.length l = n -> ReadBytes n (l ++ r) = Some (l, r).
Proof.
  intros <-. unfold ReadBytes. rewrite length_app.
  assert (E : (List.length l <=? List.length l + List.length r)%nat = true)
    by (apply Nat.leb_le; lia).
  rewrite E. rewrite (@KnnFacts.firstn_app_exact _ l r _ eq_refl).
  rewrite skipn_app, Nat.sub_diag, skipn_all. reflexivity.
Qed.

(** What the receiver reads from an answer of the sender. *)
Lemma Receive_of_kept scale (kept : list Kept) post :
  (400 <= scale <= 849)%Z -> (Z.of_nat (List.length kept) < 2 ^ 31)%Z ->
  ReceivePointCloud
    (GetBytes16 scale
     ++ GetBytes32 (Z.of_nat (List.length (flat_map (fun k => bytes3 (code k)) kept)) / 3)
     ++ flat_map (fun k => bytes3 (code k)) kept
     ++ flat_map (fun k => bytes3 (colour k)) kept ++ post)
  = Some (scale, map (fun k => DecodePoint scale (code k)) kept,
          map (fun k => Color32 (colour k)) kept, post).
Proof.
  intros Hs Hn. unfold ReceivePointCloud.
  rewrite ReadShort_GetBytes16 by lia.
  rewrite length_flat_map3, div3.
  rewrite ReadInt_GetBytes32 by lia.
  assert (E : (Z.of_nat (List.length kept) <? 0)%Z = false) by (apply Z.ltb_ge; lia).
  rewrite E, Nat2Z.id. unfold PointXYZDataSize, PointRGBDataSize.
  rewrite ReadBytes_app by apply length_flat_map3.
  rewrite ReadBytes_app by apply length_flat_map3.
  rewrite DeserializePointCloud_kept. reflexivity.
Qed.

Local Open Scope R_scope.

Lemma ln_100000_upper : ln 100000 <= 1151295 / 100000.
Proof.
  replace 100000 with (10 ^ 5) by (simpl; Lra.lra).
  rewrite ln_pow by Lra.lra. simpl INR.
  pose proof LogFacts.ln_10_upper. Lra.lra.
Qed.

(** Up to 100000 points the scale is [MaxScale]. *)
Lemma DetermineScale_upto_100000 N : (N <= 100000)%Z -> DetermineScale N = 849%Z.
Proof.
  intros HN. unfold DetermineScale. rewrite WireFacts.MaxScale_eq.
  destruct (N <=? 0)%Z eqn:E0; [reflexivity|]. apply Z.leb_gt in E0.
  assert (H1 : (1 <= N <= 2147483647)%Z) by lia.
  pose proof (LogFacts.ln_int_bounds H1) as [L0 _].
  assert (L1 : ln (IZR N) <= ln 100000).
  { assert (HN' : IZR N <= 100000) by (apply IZR_le in HN; exact HN).
    assert (HN0 : 0 < IZR N) by (apply IZR_lt; lia).
    destruct (Rle_lt_or_eq_dec _ _ HN') as [Hlt | ->]; [|Lra.lra].
    left. now apply ln_increasing. }
  pose proof ln_100000_upper as L2.
  assert (B : 943 <= ScaleFn N <= 6700).
  { unfold ScaleFn, ScaleFnOffset, ScaleFnFactor. Lra.lra. }
  assert (T : (943 <= Rtruncate (ScaleFn N) <= 6700)%Z).
  { unfold Rtruncate.
    destruct (Rle_dec 0 (ScaleFn N)) as [_|Hn]; [|exfalso; apply Hn; Lra.lra].
    destruct (base_Int_part (ScaleFn N)) as [B1 B2]. split.
    - apply Z.lt_succ_r. apply lt_IZR. rewrite succ_IZR. Lra.lra.
    - apply le_IZR. Lra.lra. }
  cbv zeta. unfold to_int16, MinScale.
  rewrite Z.mod_small by lia. lia.
Qed.

Local Close Scope R_scope.

End TransferFacts.

(** X12. [SendPointCloud] never sends two vertices with the same three
    bytes: the vertex bytes of its answer, cut into triples, are pairwise
    distinct.  It sends three colour bytes for each vertex and at most as
    many vertices as it was given. *)
Theorem SendPointCloud_sends_distinct_byte_triples
    (vertices : list Q) (colors : list Z) (msg : list Z) :
  Transfer.SendPointCloud vertices colors = Some msg ->
  exists filteredVertices filteredColors : list Z,
    msg = Transfer.GetBytes16 (Wire.DetermineScale (Z.of_nat (List.length vertices) / 3))
          ++ Transfer.GetBytes32 (Z.of_nat (List.length (Transfer.chunks3 filteredVertices)))
          ++ filteredVertices ++ filteredColors /\
    NoDup (Transfer.chunks3 filteredVertices) /\
    List.length filteredVertices = (3 * List.length (Transfer.chunks3 filteredVertices))%nat /\
    List.length filteredColors = List.length filteredVertices /\
    (List.length filteredVertices <= List.length vertices)%nat.
Proof.
  unfold Transfer.SendPointCloud. cbv zeta.
  destruct (Transfer.FilterPoints _ vertices colors 0 []) as [[fv fc]|] eqn:E;
    [|discriminate].
  destruct (@TransferFacts.FilterPoints_kept _ colors vertices vertices 0%nat [] fv fc
              (fun j => eq_refl) E) as (kept & A & B & C & D & _ & F).
  subst fv fc. rewrite TransferFacts.length_flat_map3, TransferFacts.div3.
  intros H. injection H as <-.
  exists (flat_map (fun k => Transfer.bytes3 (Transfer.code k)) kept),
         (flat_map (fun k => Transfer.bytes3 (Transfer.colour k)) kept).
  rewrite TransferFacts.chunks3_flat_map, !TransferFacts.length_flat_map3, length_map.
  split; [reflexivity|]. auto.
Qed.

Lemma SendPointCloud_sends_distinct_byte_triples_witness :
  exists filteredVertices filteredColors : list Z,
    [81; 3; 1; 0; 0; 0; 127; 127; 127; 10; 20; 30]%Z
    = Transfer.GetBytes16 (Wire.DetermineScale (Z.of_nat 9 / 3))
      ++ Transfer.GetBytes32 (Z.of_nat (List.length (Transfer.chunks3 filteredVertices)))
      ++ filteredVertices ++ filteredColors /\
    NoDup (Transfer.chunks3 filteredVertices) /\
    List.length filteredVertices = (3 * List.length (Transfer.chunks3 filteredVertices))%nat /\
    List.length filteredColors = List.length filteredVertices /\
    (List.length filteredVertices <= 9)%nat.
Proof.
  apply (@SendPointCloud_sends_distinct_byte_triples
           [0; 0; 15 # 100; 1 # 10000; 0; 15 # 100; 1; 1; 1]
           [10; 20; 30; 40; 50; 60; 70; 80; 90]%Z).
  unfold Transfer.SendPointCloud.
  rewrite TransferFacts.DetermineScale_upto_100000 by (vm_compute; discriminate).
  vm_compute. reflexivity.
Defined.

(** X13. The scale [DetermineScale] gives is [MaxScale] = 849 for every
    cloud of at most 100000 points: the logarithmic reduction of the
    resolution only starts above [exp(11.7)], about 120000 points. *)
Theorem DetermineScale_is_MaxScale_up_to_100000_points (vertexCount : Z) :
  (vertexCount <= 100000)%Z -> Wire.DetermineScale vertexCount = Wire.MaxScale.
Proof.
  intros H. rewrite WireFacts.MaxScale_eq.
  now apply TransferFacts.DetermineScale_upto_100000.
Qed.

Lemma DetermineScale_is_MaxScale_up_to_100000_points_witness :
  Wire.DetermineScale 30000 = Wire.MaxScale.
Proof.
  apply (@DetermineScale_is_MaxScale_up_to_100000_points 30000).
  vm_compute. discriminate.
Defined.



(* ===================================================================== *)
(** * Further properties of the synchronisation protocol *)
(* ===================================================================== *)

Module SyncFacts.
Import Sync SyncCount.
Import Permutation Sorted.

Lemma startMasterCalls_app a b :
  startMasterCalls (a ++ b) = startMasterCalls a ++ startMasterCalls b.
Proof. unfold startMasterCalls. apply flat_map_app. Qed.

Lemma fold_Client_EnableSync (A : Type) (ix : A -> nat) (st : SyncState) (off : A -> Z) l :
  forall s,
  let s' := fold_left (fun s x => Client_EnableSync s (ix x) st (off x)) l s in
  calls s' = calls s ++ map (fun x => CallEnableSync (ix x) st (off x)) l /\
  waitForSubordinateStart s' = waitForSubordinateStart s /\
  allDevicesInitialized s' = allDevicesInitialized s.
Proof.
  induction l as [|x l IH]; intros s; cbn [fold_left map].
  - now rewrite app_nil_r.
  - destruct (IH (Client_EnableSync s (ix x) st (off x))) as (A1 & A2 & A3).
    cbv zeta. rewrite A1, A2, A3. cbn. now rewrite <- app_assoc.
Qed.

Lemma fold_Client_DisableSync l : forall s,
  let s' := fold_left Client_DisableSync l s in
  calls s' = calls s ++ map CallDisableSync l /\
  waitForSubordinateStart s' = waitForSubordinateStart s.
Proof.
  induction l as [|x l IH]; intros s; cbn [fold_left map].
  - now rewrite app_nil_r.
  - destruct (IH (Client_DisableSync s x)) as (A1 & A2).
    cbv zeta. rewrite A1, A2. cbn. now rewrite <- app_assoc.
Qed.

Lemma startMasterCalls_EnableSync_calls (A : Type) (f : A -> NativeCall) l :
  (forall x, match f x with CallStartMaster _ => False | _ => True end) ->
  startMasterCalls (map f l) = [].
Proof.
  intros H. induction l as [|x l IH]; [reflexivity|]. cbn.
  specialize (H x). destruct (f x); [exact IH|exact IH|contradiction].
Qed.

(** The calls [EnableSync] dispatches. *)
Lemma EnableSync_calls s :
  calls (EnableSync s)
  = calls s ++
    match sortedClients (liveScanClients s) with
    | [] => []
    | masterClient :: others =>
      CallEnableSync masterClient Master 0
      :: map (fun io => CallEnableSync (snd io) Subordinate (fst io))
             (combine (map Z.of_nat (seq 1 (List.length others))) others)
      ++ map (fun c => CallEnableSync c Standalone 0)
             (standaloneClients (liveScanClients s))
    end
  /\ waitForSubordinateStart (EnableSync s) = true.
Proof.
  unfold EnableSync. cbn [liveScanClients].
  destruct (sortedClients (liveScanClients s)) as [|m others].
  - cbn. now rewrite app_nil_r.
  - cbv zeta.
    match goal with
    | |- context [fold_left ?f ?l (fold_left ?g ?l2 ?s0)] =>
      destruct (fold_Client_EnableSync (fun c : nat => c) Standalone (fun _ => 0%Z) l
                  (fold_left g l2 s0)) as (A1 & A2 & _);
      destruct (fold_Client_EnableSync (fun io : Z * nat => snd io) Subordinate
                  (fun io => fst io) l2 s0) as (B1 & B2 & _)
    end.
    cbv zeta in A1, A2, B1, B2. rewrite A1, A2, B1, B2. cbn.
    rewrite <- !app_assoc. cbn. split; reflexivity.
Qed.

Lemma EnableSync_startMasterCalls s :
  startMasterCalls (calls (EnableSync s)) = startMasterCalls (calls s).
Proof.
  destruct (EnableSync_calls s) as [E _]. rewrite E, startMasterCalls_app.
  destruct (sortedClients (liveScanClients s)) as [|m others]; [apply app_nil_r|].
  cbn [startMasterCalls flat_map]. fold (startMasterCalls). cbn [app].
  change (flat_map _ ?l) with (startMasterCalls l).
  rewrite startMasterCalls_app, !startMasterCalls_EnableSync_calls; [apply app_nil_r| |];
    intros x; exact I.
Qed.

Lemma DisableSync_startMasterCalls s :
  startMasterCalls (calls (DisableSync s)) = startMasterCalls (calls s) /\
  waitForSubordinateStart (DisableSync s) = waitForSubordinateStart s.
Proof.
  unfold DisableSync. cbn [liveScanClients].
  match goal with
  | |- context [fold_left Client_DisableSync ?l ?s0] =>
    destruct (fold_Client_DisableSync l s0) as (A1 & A2)
  end.
  cbv zeta in A1, A2. rewrite A1, A2, startMasterCalls_app. cbn [calls waitForSubordinateStart].
  rewrite startMasterCalls_EnableSync_calls; [|intros x; exact I].
  now rewrite app_nil_r.
Qed.

(** [StartMaster] clears [waitForSubordinateStart] and dispatches at most
    one call, and none when it was not waiting. *)
Lemma StartMaster_effect s :
  waitForSubordinateStart (StartMaster s) = false /\
  (waitForSubordinateStart s = false -> calls (StartMaster s) = calls s) /\
  (calls (StartMaster s) = calls s \/
   exists i, calls (StartMaster s) = calls s ++ [CallStartMaster i] /\
             firstMaster (liveScanClients s) 0 = Some i).
Proof.
  unfold StartMaster. destruct (waitForSubordinateStart s) eqn:Ew; cbn [negb].
  - destruct (negb (existsb _ _)); cbn [liveScanClients].
    + destruct (firstMaster (liveScanClients s) 0) as [i|]; cbn.
      * split; [reflexivity|]. split; [discriminate|]. right. eauto.
      * split; [reflexivity|]. split; [discriminate|]. now left.
    + cbn. split; [reflexivity|]. split; [discriminate|]. now left.
  - split; [exact Ew|]. split; [reflexivity|]. now left.
Qed.

Lemma ConfirmSyncDisabled_effect s :
  calls (ConfirmSyncDisabled s) = calls s /\
  waitForSubordinateStart (ConfirmSyncDisabled s) = waitForSubordinateStart s /\
  liveScanClients (ConfirmSyncDisabled s) = liveScanClients s.
Proof.
  unfold ConfirmSyncDisabled. destruct (waitForSubordinateStart s) eqn:E; [auto|].
  destruct (forallb _ _); cbn; auto.
Qed.

Lemma OnConfirmSyncState_budget s i st :
  (budget (OnConfirmSyncState s i st) <= budget s)%nat /\
  (st <> Subordinate ->
   startMasterCalls (calls (OnConfirmSyncState s i st)) = startMasterCalls (calls s) /\
   waitForSubordinateStart (OnConfirmSyncState s i st) = waitForSubordinateStart s).
Proof.
  unfold OnConfirmSyncState, budget.
  destruct (List.length (liveScanClients s) <=? i)%nat; [split; [apply Nat.le_refl|auto]|].
  destruct st.
  - split; [|congruence].
    match goal with |- context [StartMaster ?t] => set (s1 := t) end.
    destruct (StartMaster_effect s1) as (W & K & [C|(m & C & _)]); rewrite W, C.
    + subst s1. cbn [calls]. destruct (waitForSubordinateStart s); lia.
    + rewrite startMasterCalls_app, length_app. subst s1. cbn [calls].
      destruct (waitForSubordinateStart s) eqn:Ew.
      * cbn. lia.
      * specialize (K eq_refl). rewrite K in C. cbn [calls] in C.
        apply (f_equal (@List.length _)) in C. rewrite length_app in C. cbn in C. lia.
  - cbn [calls waitForSubordinateStart]. split; [apply Nat.le_refl|auto].
  - match goal with |- context [ConfirmSyncDisabled ?t] => set (s1 := t) end.
    destruct (ConfirmSyncDisabled_effect s1) as (C & W & _). rewrite C, W.
    subst s1. cbn [calls waitForSubordinateStart]. split; [apply Nat.le_refl|auto].
  - cbn [calls waitForSubordinateStart]. split; [apply Nat.le_refl|auto].
Qed.

Lemma step_budget s e :
  e <> UserEnableSync -> (budget (step s e) <= budget s)%nat.
Proof.
  destruct e as [| |i st|i]; intros He; cbn [step]; [congruence| | |].
  - unfold budget. destruct (DisableSync_startMasterCalls s) as [A B].
    rewrite A, B. apply Nat.le_refl.
  - apply OnConfirmSyncState_budget.
  - unfold budget, OnConfirmMasterRestart. cbn [calls waitForSubordinateStart].
    apply Nat.le_refl.
Qed.

Lemma run_budget events : forall s,
  ~ In UserEnableSync events -> (budget (run s events) <= budget s)%nat.
Proof.
  unfold run. induction events as [|e events IH]; intros s H; cbn [fold_left]; [lia|].
  assert (He : e <> UserEnableSync) by (intros ->; apply H; now left).
  assert (Hr : ~ In UserEnableSync events) by (intros Hi; apply H; now right).
  pose proof (@step_budget s e He). specialize (IH (step s e) Hr). lia.
Qed.

Lemma step_no_subordinate_ack s e :
  (forall i, e <> ConfirmSyncState i Subordinate) ->
  startMasterCalls (calls (step s e)) = startMasterCalls (calls s).
Proof.
  destruct e as [| |i st|i]; intros He; cbn [step].
  - apply EnableSync_startMasterCalls.
  - apply DisableSync_startMasterCalls.
  - apply OnConfirmSyncState_budget. intros ->. now apply (He i).
  - reflexivity.
Qed.

Lemma run_no_subordinate_ack s events :
  subordinateAcks events = [] ->
  startMasterCalls (calls (run s events)) = startMasterCalls (calls s).
Proof.
  unfold run. revert s. induction events as [|e events IH]; intros s H;
    cbn [fold_left]; [reflexivity|].
  cbn [subordinateAcks flat_map] in H. apply app_eq_nil in H as [He Hr].
  rewrite (IH _ Hr). apply step_no_subordinate_ack.
  intros i ->. discriminate He.
Qed.

Lemma run_app_cons s a e b : run s (a ++ e :: b) = run (step (run s a) e) b.
Proof. unfold run. now rewrite fold_left_app. Qed.

Lemma update_length l : forall i g, List.length (update l i g) = List.length l.
Proof.
  induction l as [|c l IH]; intros [|i] g; cbn; auto.
Qed.

Lemma nth_update l : forall i g j d,
  (j < List.length l)%nat ->
  nth j (update l i g) d = if (j =? i)%nat then g (nth j l d) else nth j l d.
Proof.
  induction l as [|c l IH]; intros i g j d Hj; cbn in Hj; [lia|].
  destruct i as [|i], j as [|j]; cbn; try reflexivity.
  apply IH. lia.
Qed.

Lemma Forall_update (P : CameraClient -> Prop) l : forall i g,
  Forall P l -> (forall c, P c -> P (g c)) -> Forall P (update l i g).
Proof.
  induction l as [|c l IH]; intros [|i] g H Hg; cbn; [constructor|constructor| |];
    inversion H; subst; constructor; auto.
Qed.

(** The clients after a series of [EnableSync] calls: the clients called
    have the state [Unknown], and so have those that had it. *)
Lemma fold_Client_EnableSync_clients (A : Type) (ix : A -> nat) (st : SyncState)
    (off : A -> Z) l : forall s,
  let s' := fold_left (fun s x => Client_EnableSync s (ix x) st (off x)) l s in
  List.length (liveScanClients s') = List.length (liveScanClients s) /\
  forall j, (j < List.length (liveScanClients s))%nat ->
    In j (map ix l)
    \/ CurrentSyncState (nth j (liveScanClients s) CameraClient_new) = Unknown ->
    CurrentSyncState (nth j (liveScanClients s') CameraClient_new) = Unknown.
Proof.
  induction l as [|x l IH]; intros s; cbn [fold_left map].
  - split; [reflexivity|]. intros j _ [[]|H]. exact H.
  - destruct (IH (Client_EnableSync s (ix x) st (off x))) as [L H]. cbv zeta.
    cbn [liveScanClients Client_EnableSync] in L, H. rewrite update_length in L, H.
    split; [exact L|]. intros j Hj Hc. apply H; [exact Hj|].
    rewrite nth_update by exact Hj.
    destruct (j =? ix x)%nat eqn:E; [now right|].
    apply Nat.eqb_neq in E. destruct Hc as [[Hc|Hc]|Hc]; [congruence|now left|now right].
Qed.

Lemma map_snd_combine_offsets (others : list nat) :
  map snd (combine (map Z.of_nat (seq 1 (List.length others))) others) = others.
Proof.
  generalize 1%nat. induction others as [|o others IH]; intros k; [reflexivity|].
  cbn. now rewrite IH.
Qed.

Lemma standaloneClients_In clients j :
  In j (standaloneClients clients)
  <-> (j < List.length clients)%nat /\ ~ In j (sortedClients clients).
Proof.
  unfold standaloneClients. rewrite filter_In, in_seq, negb_true_iff.
  split; intros [H1 H2]; (split; [lia|]).
  - intros Hin. assert (E : existsb (Nat.eqb j) (sortedClients clients) = true).
    { apply existsb_exists. exists j. split; [exact Hin|apply Nat.eqb_refl]. }
    congruence.
  - destruct (existsb _ _) eqn:E; [|reflexivity].
    apply existsb_exists in E as (x & Hx & Ex). apply Nat.eqb_eq in Ex. subst x.
    contradiction.
Qed.

(** After [EnableSync] on a server with a client that has a serial number,
    every client has the state [Unknown]. *)
Lemma EnableSync_all_Unknown s :
  sortedClients (liveScanClients s) <> [] ->
  List.length (liveScanClients (EnableSync s)) = List.length (liveScanClients s) /\
  Forall (fun c => CurrentSyncState c = Unknown) (liveScanClients (EnableSync s)).
Proof.
  intros Hs. unfold EnableSync. cbn [liveScanClients].
  pose proof (standaloneClients_In (liveScanClients s)) as Hst.
  destruct (sortedClients (liveScanClients s)) as [|m others]; [congruence|].
  cbv zeta.
  set (s0 := mkCameraServer (liveScanClients s) true false (calls s)).
  set (s1 := Client_EnableSync s0 m Master 0).
  match goal with
  | |- context [fold_left ?f ?l (fold_left ?g ?l2 s1)] =>
    destruct (fold_Client_EnableSync_clients (fun io : Z * nat => snd io) Subordinate
                (fun io => fst io) l2 s1) as (L2 & H2);
    destruct (fold_Client_EnableSync_clients (fun c : nat => c) Standalone
                (fun _ => 0%Z) l (fold_left g l2 s1)) as (L3 & H3)
  end.
  cbv zeta in L2, H2, L3, H3.
  assert (L1 : List.length (liveScanClients s1) = List.length (liveScanClients s))
    by (subst s1 s0; cbn; apply update_length).
  split; [congruence|].
  apply (Forall_nth (fun c => CurrentSyncState c = Unknown)). intros j d Hj.
  rewrite (nth_indep _ d CameraClient_new Hj).
  rewrite L3, L2, L1 in Hj.
  apply H3; [rewrite L2, L1; exact Hj|].
  rewrite map_id.
  destruct (in_dec Nat.eq_dec j (m :: others)) as [[Hm|Ho]|Hn].
  - right. apply H2; [rewrite L1; exact Hj|]. right.
    subst s1 s0. cbn [liveScanClients Client_EnableSync].
    rewrite nth_update by exact Hj. subst j. now rewrite Nat.eqb_refl.
  - right. apply H2; [rewrite L1; exact Hj|]. left.
    now rewrite map_snd_combine_offsets.
  - left. apply Hst. split; assumption.
Qed.

(** The state that lets a [Subordinate] confirmation clear
    [waitForSubordinateStart] without a [StartMaster] call: the server is
    waiting and no client is a master or a subordinate. *)
Lemma quiet_step s e :
  Quiet s -> e <> UserEnableSync ->
  (forall i, e <> ConfirmSyncState i Subordinate) ->
  (forall i, e <> ConfirmSyncState i Master) ->
  Quiet (step s e) /\
  List.length (liveScanClients (step s e)) = List.length (liveScanClients s).
Proof.
  intros [Hw Hc] He Hs Hm. destruct e as [| |i st|i]; cbn [step]; [congruence| | |].
  - unfold DisableSync. cbn [liveScanClients].
    set (s0 := mkCameraServer _ _ _ _).
    assert (G : forall l t, waitForSubordinateStart t = true ->
               Forall (fun c => CurrentSyncState c <> Master
                                /\ CurrentSyncState c <> Subordinate)
                      (liveScanClients t) ->
               Quiet (fold_left Client_DisableSync l t) /\
               List.length (liveScanClients (fold_left Client_DisableSync l t))
               = List.length (liveScanClients t)).
    { induction l as [|x l IH]; intros t Ht Hf; cbn [fold_left].
      - split; [split; assumption|reflexivity].
      - destruct (IH (Client_DisableSync t x)) as [Q L].
        + exact Ht.
        + cbn [liveScanClients Client_DisableSync]. apply Forall_update; [exact Hf|].
          intros c _. cbn. split; discriminate.
        + split; [exact Q|]. rewrite L. cbn. apply update_length. }
    destruct (G (seq 0 (List.length (liveScanClients s))) s0 Hw Hc) as [Q L].
    split; [exact Q|exact L].
  - unfold OnConfirmSyncState.
    destruct (List.length (liveScanClients s) <=? i)%nat; [split; [split; assumption|reflexivity]|].
    destruct st; [exfalso; now apply (Hs i)|exfalso; now apply (Hm i)| |].
    + match goal with |- context [ConfirmSyncDisabled ?t] => set (s1 := t) end.
      destruct (ConfirmSyncDisabled_effect s1) as (_ & W & C).
      unfold Quiet. rewrite W, C. subst s1. cbn [waitForSubordinateStart liveScanClients].
      split; [split; [exact Hw|]|apply update_length].
      apply Forall_update; [exact Hc|]. intros c _. cbn. split; discriminate.
    + cbn [liveScanClients]. unfold Quiet. cbn [waitForSubordinateStart liveScanClients].
      split; [split; [exact Hw|]|apply update_length].
      apply Forall_update; [exact Hc|]. intros c _. cbn. split; discriminate.
  - unfold OnConfirmMasterRestart, Quiet. cbn [waitForSubordinateStart liveScanClients].
    split; [split; [exact Hw|]|apply update_length].
    apply Forall_update; [exact Hc|]. intros c H. exact H.
Qed.

Lemma quiet_run events : forall s,
  Quiet s -> ~ In UserEnableSync events ->
  subordinateAcks events = [] -> masterAcks events = [] ->
  Quiet (run s events) /\
  List.length (liveScanClients (run s events)) = List.length (liveScanClients s).
Proof.
  unfold run. induction events as [|e events IH]; intros s Q He Hs Hm; cbn [fold_left].
  - split; [exact Q|reflexivity].
  - cbn [subordinateAcks masterAcks flat_map] in Hs, Hm.
    apply app_eq_nil in Hs as [Hs1 Hs2]. apply app_eq_nil in Hm as [Hm1 Hm2].
    destruct (@quiet_step s e Q) as [Q' L'].
    + intros ->. apply He. now left.
    + intros i ->. discriminate Hs1.
    + intros i ->. discriminate Hm1.
    + destruct (IH (step s e) Q') as [Q'' L'']; [|exact Hs2|exact Hm2|].
      * intros Hi. apply He. now right.
      * split; [exact Q''|congruence].
Qed.

Lemma firstMaster_None l : forall k,
  Forall (fun c => CurrentSyncState c <> Master) l -> firstMaster l k = None.
Proof.
  induction l as [|c l IH]; intros k H; [reflexivity|].
  inversion H as [|? ? Hc Hl]; subst. cbn [firstMaster].
  destruct (CurrentSyncState c); try (apply IH; exact Hl). congruence.
Qed.

(** A [Subordinate] confirmation in a quiet state: the server stops
    waiting and dispatches nothing. *)
Lemma quiet_subordinate_ack s i :
  Quiet s -> (i < List.length (liveScanClients s))%nat ->
  calls (OnConfirmSyncState s i Subordinate) = calls s /\
  waitForSubordinateStart (OnConfirmSyncState s i Subordinate) = false.
Proof.
  intros [Hw Hc] Hi. unfold OnConfirmSyncState.
  assert (E : (List.length (liveScanClients s) <=? i)%nat = false)
    by (apply Nat.leb_gt; exact Hi).
  rewrite E.
  match goal with |- context [StartMaster ?t] => set (s1 := t) end.
  destruct (StartMaster_effect s1) as (W & _ & [C|(m & _ & C)]).
  - split; [exact C|exact W].
  - exfalso. subst s1. cbn [liveScanClients] in C.
    rewrite firstMaster_None in C; [discriminate|].
    apply Forall_update.
    + eapply Forall_impl; [|exact Hc]. intros c [H _]. exact H.
    + intros c _. cbn. discriminate.
Qed.

Lemma step_calls_prefix s e : exists l, calls (step s e) = calls s ++ l.
Proof.
  destruct e as [| |i st|i]; cbn [step].
  - destruct (EnableSync_calls s) as [E _]. eauto.
  - unfold DisableSync. cbn [liveScanClients].
    match goal with
    | |- context [fold_left Client_DisableSync ?l ?s0] =>
      destruct (fold_Client_DisableSync l s0) as (A1 & _)
    end. cbv zeta in A1. cbn [calls] in A1. eauto.
  - unfold OnConfirmSyncState.
    destruct (_ <=? _)%nat; [exists []; now rewrite app_nil_r|].
    destruct st.
    + match goal with |- context [StartMaster ?t] => set (s1 := t) end.
      destruct (StartMaster_effect s1) as (_ & _ & [C|(m & C & _)]); rewrite C;
        subst s1; cbn [calls]; [exists []; now rewrite app_nil_r|eauto].
    + exists []. now rewrite app_nil_r.
    + match goal with |- context [ConfirmSyncDisabled ?t] => set (s1 := t) end.
      destruct (ConfirmSyncDisabled_effect s1) as (C & _ & _). rewrite C.
      exists []. subst s1. cbn [calls]. now rewrite app_nil_r.
    + exists []. now rewrite app_nil_r.
  - exists []. cbn. now rewrite app_nil_r.
Qed.

Lemma run_calls_prefix events : forall s, exists l, calls (run s events) = calls s ++ l.
Proof.
  unfold run. induction events as [|e events IH]; intros s; cbn [fold_left].
  - exists []. now rewrite app_nil_r.
  - destruct (step_calls_prefix s e) as (l1 & E1).
    destruct (IH (step s e)) as (l2 & E2). exists (l1 ++ l2).
    now rewrite E2, E1, app_assoc.
Qed.

(** Once the server has stopped waiting, no [StartMaster] call is added
    until [EnableSync] is called again. *)
Lemma run_not_waiting s events :
  waitForSubordinateStart s = false -> ~ In UserEnableSync events ->
  startMasterCalls (calls (run s events)) = startMasterCalls (calls s).
Proof.
  intros Hw He. pose proof (@run_budget events s He) as B. unfold budget in B.
  rewrite Hw in B. destruct (run_calls_prefix events s) as (l & El).
  rewrite El, startMasterCalls_app in *. rewrite length_app in B.
  assert (L : List.length (startMasterCalls l) = 0%nat).
  { destruct (waitForSubordinateStart (run s events)); lia. }
  apply length_zero_iff_nil in L. rewrite L. apply app_nil_r.
Qed.

Lemma ascii_compare_lt_trans a b c :
  Ascii.compare a b = Lt -> Ascii.compare b c = Lt -> Ascii.compare a c = Lt.
Proof.
  unfold Ascii.compare. rewrite !N.compare_lt_iff. lia.
Qed.

Lemma string_compare_lt_trans a : forall b c,
  String.compare a b = Lt -> String.compare b c = Lt -> String.compare a c = Lt.
Proof.
  induction a as [|x a IH]; intros [|y b] [|z c]; cbn; try congruence.
  destruct (Ascii.compare x y) eqn:Exy; destruct (Ascii.compare y z) eqn:Eyz;
    try congruence.
  - apply Ascii.compare_eq_iff in Exy, Eyz. subst y z.
    assert (E : Ascii.compare x x = Eq) by (unfold Ascii.compare; apply N.compare_refl).
    rewrite E. apply IH.
  - apply Ascii.compare_eq_iff in Exy. subst y. now rewrite Eyz.
  - apply Ascii.compare_eq_iff in Eyz. subst z. now rewrite Exy.
  - now rewrite (ascii_compare_lt_trans _ _ _ Exy Eyz).
Qed.

Lemma ltb_trans a b c :
  String.ltb a b = true -> String.ltb b c = true -> String.ltb a c = true.
Proof.
  unfold String.ltb.
  destruct (String.compare a b) eqn:E1; try discriminate.
  destruct (String.compare b c) eqn:E2; try discriminate.
  now rewrite (string_compare_lt_trans _ _ _ E1 E2).
Qed.

Lemma ltb_asym a b : String.ltb a b = true -> String.ltb b a = false.
Proof.
  unfold String.ltb. rewrite (String.compare_antisym b a).
  destruct (String.compare a b); cbn; congruence.
Qed.

Lemma insert_by_serial_perm x l : Permutation (insert_by_serial x l) (x :: l).
Proof.
  induction l as [|y l IH]; cbn [insert_by_serial]; [reflexivity|].
  destruct (String.ltb _ _); [reflexivity|].
  rewrite IH. apply perm_swap.
Qed.

Lemma OrderBySerial_perm l : Permutation (OrderBySerial l) l.
Proof.
  unfold OrderBySerial.
  assert (G : forall acc, Permutation (fold_left (fun acc x => insert_by_serial x acc) l acc)
                                      (acc ++ l)).
  { induction l as [|x l IH]; intros acc; cbn [fold_left].
    - now rewrite app_nil_r.
    - rewrite IH, insert_by_serial_perm. apply Permutation_middle. }
  apply (G []).
Qed.

Lemma insert_by_serial_sorted x l :
  StronglySorted SerialLe l -> StronglySorted SerialLe (insert_by_serial x l).
Proof.
  induction 1 as [|y l Hl IH Hy]; cbn [insert_by_serial].
  - constructor; constructor.
  - destruct (String.ltb (SerialNumber (snd x)) (SerialNumber (snd y))) eqn:E.
    + constructor; [constructor; assumption|]. constructor.
      * unfold SerialLe. now apply ltb_asym.
      * eapply Forall_impl; [|exact Hy]. unfold SerialLe. intros z Hz.
        destruct (String.ltb (SerialNumber (snd z)) (SerialNumber (snd x))) eqn:Ez;
          [|reflexivity].
        now rewrite (ltb_trans _ _ _ Ez E) in Hz.
    + constructor; [exact IH|].
      rewrite (insert_by_serial_perm x l). constructor; assumption.
Qed.

Lemma OrderBySerial_sorted l : StronglySorted SerialLe (OrderBySerial l).
Proof.
  unfold OrderBySerial.
  assert (G : forall acc, StronglySorted SerialLe acc ->
               StronglySorted SerialLe (fold_left (fun acc x => insert_by_serial x acc) l acc)).
  { induction l as [|x l IH]; intros acc H; cbn [fold_left]; [exact H|].
    apply IH. now apply insert_by_serial_sorted. }
  apply G. constructor.
Qed.

Lemma In_combine_seq (l : list CameraClient) : forall k i c,
  In (i, c) (combine (seq k (List.length l)) l)
  <-> (k <= i < k + List.length l)%nat /\ nth (i - k) l CameraClient_new = c.
Proof.
  induction l as [|a l IH]; intros k i c; cbn [List.length seq combine In].
  - split; [tauto|lia].
  - rewrite IH. split.
    + intros [[= <- <-]|[H1 H2]].
      * split; [lia|]. now rewrite Nat.sub_diag.
      * split; [lia|]. replace (i - k)%nat with (S (i - S k)) by lia. exact H2.
    + intros [H1 H2]. destruct (Nat.eq_dec i k) as [->|Hne].
      * left. rewrite Nat.sub_diag in H2. cbn in H2. now subst.
      * right. split; [lia|].
        replace (i - k)%nat with (S (i - S k)) in H2 by lia. exact H2.
Qed.

Lemma map_fst_combine_seq (l : list CameraClient) : forall k,
  map fst (combine (seq k (List.length l)) l) = seq k (List.length l).
Proof.
  induction l as [|a l IH]; intros k; [reflexivity|]. cbn. now rewrite IH.
Qed.

Lemma NoDup_map_filter (A B : Type) (f : A -> B) (p : A -> bool) l :
  NoDup (map f l) -> NoDup (map f (filter p l)).
Proof.
  induction l as [|a l IH]; cbn [map filter]; [auto|].
  intros H. inversion H as [|? ? Hn Hd]; subst.
  destruct (p a); [|auto]. cbn [map]. constructor; [|auto].
  intros Hin. apply Hn. apply in_map_iff in Hin as (x & Ex & Hx).
  apply filter_In in Hx as [Hx _]. rewrite <- Ex. now apply in_map.
Qed.

Lemma StronglySorted_map_fst (R : nat -> nat -> Prop) (l : list (nat * CameraClient)) :
  (forall x y, In x l -> In y l -> SerialLe x y -> R (fst x) (fst y)) ->
  StronglySorted SerialLe l -> StronglySorted R (map fst l).
Proof.
  intros HR H. induction H as [|x l Hl IH Hx]; cbn [map]; constructor.
  - apply IH. intros a b Ha Hb. apply HR; now right.
  - rewrite Forall_forall in *. intros j Hj.
    apply in_map_iff in Hj as (y & <- & Hy). apply HR; [now left|now right|auto].
Qed.

(** [sortedClients]: the clients that have a serial number, each once, in
    the order of their serial numbers. *)
Lemma sortedClients_spec clients :
  (forall i, In i (sortedClients clients)
             <-> (i < List.length clients)%nat /\ serial clients i <> ""%string) /\
  NoDup (sortedClients clients) /\
  StronglySorted (fun i j => String.ltb (serial clients j) (serial clients i) = false)
                 (sortedClients clients).
Proof.
  unfold sortedClients.
  set (L := filter (fun ic => negb (String.eqb (SerialNumber (snd ic)) ""))
                   (combine (seq 0 (List.length clients)) clients)).
  assert (HL : forall i c, In (i, c) L <->
             (i < List.length clients)%nat /\ nth i clients CameraClient_new = c
             /\ SerialNumber c <> ""%string).
  { intros i c. unfold L. rewrite filter_In, In_combine_seq, Nat.sub_0_r.
    cbn [snd]. rewrite negb_true_iff, String.eqb_neq. split; intros H; repeat split;
      try tauto; lia. }
  pose proof (OrderBySerial_perm L) as P.
  split; [|split].
  - intros i. rewrite (Permutation_in' eq_refl (Permutation_map fst P)).
    rewrite in_map_iff. unfold serial. split.
    + intros ([j c] & <- & H). apply HL in H as (H1 & H2 & H3). cbn [fst].
      rewrite H2. auto.
    + intros [H1 H2]. exists (i, nth i clients CameraClient_new). split; [reflexivity|].
      apply HL. auto.
  - apply (Permutation_NoDup (Permutation_sym (Permutation_map fst P))).
    unfold L. apply NoDup_map_filter. rewrite map_fst_combine_seq. apply seq_NoDup.
  - apply StronglySorted_map_fst; [|apply OrderBySerial_sorted].
    intros [i c] [j d] Hi Hj. unfold SerialLe, serial. cbn [fst snd].
    apply (Permutation_in _ P), HL in Hi. apply (Permutation_in _ P), HL in Hj.
    destruct Hi as (_ & -> & _), Hj as (_ & -> & _). auto.
Qed.

End SyncFacts.



(** X16. [StartMaster] is only dispatched when a client confirms the role
    [Subordinate]: over events without such a confirmation no
    [StartMaster] call is added.  A camera that is alone, and so becomes
    the master, is not started by the server. *)
Theorem StartMaster_needs_a_subordinate_confirmation
    (s : Sync.CameraServer) (events : list Sync.Event) :
  Sync.subordinateAcks events = [] ->
  Sync.startMasterCalls (Sync.calls (Sync.run s events))
  = Sync.startMasterCalls (Sync.calls s).
Proof.
  apply SyncFacts.run_no_subordinate_ack.
Qed.

Lemma StartMaster_needs_a_subordinate_confirmation_witness :
  Sync.startMasterCalls
    (Sync.calls (Sync.run (Sync.CameraServer_new [Sync.mkCameraClient "A000" false Sync.Standalone])
                   [Sync.UserEnableSync; Sync.ConfirmSyncState 0 Sync.Master;
                    Sync.ConfirmMasterRestart 0]))
  = Sync.startMasterCalls
      (Sync.calls (Sync.CameraServer_new [Sync.mkCameraClient "A000" false Sync.Standalone])).
Proof.
  apply (@StartMaster_needs_a_subordinate_confirmation
           (Sync.CameraServer_new [Sync.mkCameraClient "A000" false Sync.Standalone])
           [Sync.UserEnableSync; Sync.ConfirmSyncState 0 Sync.Master;
            Sync.ConfirmMasterRestart 0]).
  reflexivity.
Defined.



(** X18. The roles [EnableSync] hands out.  The clients with a serial
    number are taken in the order of their serial numbers (ordinal
    comparison): the first is told to be the master with offset 0, the
    k-th after it to be a subordinate with offset k; the clients without
    a serial number are then told to be standalone.  When a client has a
    serial number, every client is called exactly once. *)
Theorem EnableSync_assigns_roles_in_serial_order (s : Sync.CameraServer) :
  let clients := Sync.liveScanClients s in
  let sorted := Sync.sortedClients clients in
  Sync.calls (Sync.EnableSync s)
  = Sync.calls s ++
    match sorted with
    | [] => []
    | masterClient :: others =>
      Sync.CallEnableSync masterClient Sync.Master 0
      :: map (fun io => Sync.CallEnableSync (snd io) Sync.Subordinate (fst io))
             (combine (map Z.of_nat (seq 1 (List.length others))) others)
      ++ map (fun c => Sync.CallEnableSync c Sync.Standalone 0)
             (Sync.standaloneClients clients)
    end
  /\ (forall i, In i sorted
                <-> (i < List.length clients)%nat /\ SyncCount.serial clients i <> ""%string)
  /\ Sorted.StronglySorted
       (fun i j => String.ltb (SyncCount.serial clients j) (SyncCount.serial clients i) = false)
       sorted
  /\ Permutation.Permutation (sorted ++ Sync.standaloneClients clients)
                             (seq 0 (List.length clients)).
Proof.
  cbv zeta. destruct (SyncFacts.sortedClients_spec (Sync.liveScanClients s)) as (A & B & C).
  split; [apply SyncFacts.EnableSync_calls|]. split; [exact A|]. split; [exact C|].
  pose proof (SyncFacts.standaloneClients_In (Sync.liveScanClients s)) as Hst.
  apply Permutation.NoDup_Permutation.
  - apply NoDup_app; [exact B| |].
    + unfold Sync.standaloneClients. apply NoDup_filter, seq_NoDup.
    + intros i Hi Hj. apply Hst in Hj. tauto.
  - apply seq_NoDup.
  - intros i. rewrite in_app_iff, in_seq, Hst. split.
    + intros [H|H]; [apply A in H|]; lia.
    + intros Hi.
      destruct (in_dec Nat.eq_dec i (Sync.sortedClients (Sync.liveScanClients s)))
        as [H|H]; [now left|].
      right. split; [lia|exact H].
Qed.

(* ===================================================================== *)
(** * Further properties of the calibration *)
(* ===================================================================== *)

Module CalibSeqFacts.
Import Calib CalibSeq.

Section WithOpenCV.
Variable DetectMarkersInImage : list RGB -> Z -> Z -> option MarkerInfo.
Variable SVDRotation : list (list Q) -> list (list Q).

(** One call that cannot reach the required number of samples. *)
Lemma Calibrate_below_required c colorFrame depthFrame w h :
  (numSamples c + 1 < NumRequiredSamples)%Z ->
  let r := Calibrate DetectMarkersInImage SVDRotation c colorFrame depthFrame w h in
  fst r = false /\
  worldT (snd r) = worldT c /\ worldR (snd r) = worldR c /\
  isCalibrated (snd r) = isCalibrated c /\
  markerPoses (snd r) = markerPoses c /\
  (numSamples c <= numSamples (snd r) <= numSamples c + 1)%Z.
Proof.
  intros Hn. unfold Calibrate.
  destruct colorFrame as [cf|]; [|cbn; repeat split; lia].
  destruct depthFrame as [df|]; [|cbn; repeat split; lia].
  destruct (DetectMarkersInImage cf h w) as [marker|]; [|cbn; repeat split; lia].
  destruct (FindPose (Id marker) (markerPoses c)) as [pose|]; [|cbn; repeat split; lia].
  cbn [numSamples markerSamplePositions worldT worldR usedMarkerId markerPoses isCalibrated].
  destruct (Get3DMarkerCorners (Corners marker) df w) as [m3|]; [|cbn; repeat split; lia].
  cbv zeta.
  assert (E : (numSamples c + 1 <? NumRequiredSamples)%Z = true) by now apply Z.ltb_lt.
  rewrite E. cbn. repeat split; lia.
Qed.

Lemma CalibrateFrames_below_required frames : forall c,
  (numSamples c + Z.of_nat (List.length frames) < NumRequiredSamples)%Z ->
  let r := CalibrateFrames DetectMarkersInImage SVDRotation c frames in
  Forall (fun res => res = false) (fst r) /\
  worldT (snd r) = worldT c /\ worldR (snd r) = worldR c /\
  isCalibrated (snd r) = isCalibrated c.
Proof.
  induction frames as [|[[[cf df] w] h] frames IH]; intros c Hn; cbn [CalibrateFrames].
  - cbn. auto.
  - cbn [List.length] in Hn.
    pose proof (@Calibrate_below_required c (Some cf) (Some df) w h ltac:(lia)) as H.
    cbv zeta in H.
    destruct (Calibrate DetectMarkersInImage SVDRotation c (Some cf) (Some df) w h)
      as [res c1].
    cbn [fst snd] in H. destruct H as (H1 & H2 & H3 & H4 & H5 & H6).
    specialize (IH c1 ltac:(lia)). cbv zeta in IH.
    destruct (CalibrateFrames DetectMarkersInImage SVDRotation c1 frames) as [results c2].
    cbn [fst snd] in *. destruct IH as (I1 & I2 & I3 & I4).
    split; [constructor; assumption|]. split; [congruence|]. split; congruence.
Qed.

End WithOpenCV.

Lemma interp_positive (dx dy a b c d : Q) :
  0 <= dx -> dx < 1 -> 0 <= dy -> dy < 1 -> 0 < a -> 0 < b -> 0 < c -> 0 < d ->
  0 < (1 - dx) * (1 - dy) * a + dx * (1 - dy) * b + (1 - dx) * dy * c + dx * dy * d.
Proof.
  intros H1 H2 H3 H4 Ha Hb Hc Hd.
  assert (P1 : 0 < (1 - dx) * (1 - dy) * a).
  { apply Qmult_lt_0_compat; [apply Qmult_lt_0_compat; Lqa.lra|exact Ha]. }
  assert (P2 : 0 <= dx * (1 - dy) * b).
  { apply Qmult_le_0_compat; [apply Qmult_le_0_compat; Lqa.lra|Lqa.lra]. }
  assert (P3 : 0 <= (1 - dx) * dy * c).
  { apply Qmult_le_0_compat; [apply Qmult_le_0_compat; Lqa.lra|Lqa.lra]. }
  assert (P4 : 0 <= dx * dy * d).
  { apply Qmult_le_0_compat; [apply Qmult_le_0_compat; Lqa.lra|Lqa.lra]. }
  Lqa.lra.
Qed.

Lemma Qtrunc_fraction q : 0 <= q -> 0 <= q - inject_Z (Qtrunc q) /\ q - inject_Z (Qtrunc q) < 1.
Proof.
  intros H. rewrite (WireFacts.Qtrunc_nonneg H).
  pose proof (Qfloor_le q). pose proof (Qlt_floor q) as L.
  rewrite inject_Z_plus in L. change (inject_Z 1) with 1 in L. split; Lqa.lra.
Qed.

Lemma Qleb_false a : Qleb a 0 = false -> 0 < a.
Proof.
  unfold Qleb. intros H. apply Qnot_le_lt. intros L. apply Qle_bool_iff in L. congruence.
Qed.

Lemma Corner3D_positive corner depthFrame w p :
  0 <= X2 corner -> 0 <= Y2 corner ->
  Corner3D corner depthFrame w = Some p -> 0 < Z_ p.
Proof.
  intros Hx Hy. unfold Corner3D. cbv zeta.
  destruct (Qleb _ 0 || Qleb _ 0 || Qleb _ 0 || Qleb _ 0) eqn:E; [discriminate|].
  rewrite !orb_false_iff in E. destruct E as [[[E1 E2] E3] E4].
  apply Qleb_false in E1, E2, E3, E4.
  intros [= <-]. cbn [Z_].
  destruct (Qtrunc_fraction Hx) as [A1 A2]. destruct (Qtrunc_fraction Hy) as [B1 B2].
  now apply interp_positive.
Qed.

End CalibSeqFacts.

(** X19. A calibration needs [NumRequiredSamples] = 20 accepted samples:
    when [Calibrate] is called on fewer frames than are missing to reach
    20 samples, whatever the frames show, every call returns false and
    [worldT], [worldR] and [isCalibrated] stay as they were. *)
Theorem Calibrate_needs_twenty_samples
    (DetectMarkersInImage : list RGB -> Z -> Z -> option MarkerInfo)
    (SVDRotation : list (list Q) -> list (list Q))
    (c : Calibration) (frames : list (list RGB * list Point3f * Z * Z)) :
  (numSamples c + Z.of_nat (List.length frames) < Calib.NumRequiredSamples)%Z ->
  let r := CalibSeq.CalibrateFrames DetectMarkersInImage SVDRotation c frames in
  Forall (fun res => res = false) (fst r) /\
  worldT (snd r) = worldT c /\ worldR (snd r) = worldR c /\
  isCalibrated (snd r) = isCalibrated c.
Proof.
  apply CalibSeqFacts.CalibrateFrames_below_required.
Qed.

Lemma Calibrate_needs_twenty_samples_witness :
  let frames := repeat (Examples.colors4x4, Examples.depth4x4, 4%Z, 4%Z) 19 in
  let r := CalibSeq.CalibrateFrames Examples.detect_marker3 Examples.svd_identity
             Examples.calibration_fresh frames in
  Forall (fun res => res = false) (fst r) /\
  worldT (snd r) = worldT Examples.calibration_fresh /\
  worldR (snd r) = worldR Examples.calibration_fresh /\
  isCalibrated (snd r) = isCalibrated Examples.calibration_fresh.
Proof.
  cbv zeta.
  apply (@Calibrate_needs_twenty_samples Examples.detect_marker3 Examples.svd_identity
           Examples.calibration_fresh
           (repeat (Examples.colors4x4, Examples.depth4x4, 4%Z, 4%Z) 19)).
  vm_compute. reflexivity.
Defined.

(** X20. When [Get3DMarkerCorners] succeeds for corners with non-negative
    pixel coordinates, it gives one 3D point for each corner, and each has
    a positive depth: the interpolation weights are in [0, 1] and the four
    depths it mixes are positive. *)
Theorem Get3DMarkerCorners_gives_positive_depth
    (corners : list Point2f) (depthFrame : list Point3f) (frameWidth : Z)
    (marker3D : list Point3f) :
  Forall (fun corner => 0 <= X2 corner /\ 0 <= Y2 corner) corners ->
  Calib.Get3DMarkerCorners corners depthFrame frameWidth = Some marker3D ->
  List.length marker3D = List.length corners /\
  Forall (fun p => 0 < Z_ p) marker3D.
Proof.
  intros H. revert marker3D.
  induction H as [|corner corners [Hx Hy] _ IH]; intros marker3D;
    cbn [Calib.Get3DMarkerCorners].
  - intros [= <-]. split; [reflexivity|constructor].
  - destruct (Calib.Corner3D corner depthFrame frameWidth) as [p|] eqn:Ep; [|discriminate].
    destruct (Calib.Get3DMarkerCorners corners depthFrame frameWidth) as [ps|];
      [|discriminate].
    intros [= <-]. destruct (IH ps eq_refl) as [L F]. split; [cbn; now rewrite L|].
    constructor; [|exact F].
    exact (@CalibSeqFacts.Corner3D_positive corner depthFrame frameWidth p Hx Hy Ep).
Qed.

(** X21. [InverseRotatePoint] undoes [RotatePoint] of calibration.cpp when
    the columns of [R] are orthonormal. *)
Theorem InverseRotatePoint_undoes_RotatePoint (p0 p1 p2 : Q) (R : list (list Q)) :
  CalibSeq.Orthonormal R ->
  let q := InverseRotatePoint (CalibSeq.RotatePointVec [p0; p1; p2] R) R in
  nth 0 q 0 == p0 /\ nth 1 q 0 == p1 /\ nth 2 q 0 == p2 /\ List.length q = 3%nat.
Proof.
  intros H. cbv zeta. unfold InverseRotatePoint, CalibSeq.RotatePointVec. cbn [nth List.length].
  pose proof (H 0%nat 0%nat ltac:(lia) ltac:(lia)) as H00.
  pose proof (H 0%nat 1%nat ltac:(lia) ltac:(lia)) as H01.
  pose proof (H 0%nat 2%nat ltac:(lia) ltac:(lia)) as H02.
  pose proof (H 1%nat 1%nat ltac:(lia) ltac:(lia)) as H11.
  pose proof (H 1%nat 2%nat ltac:(lia) ltac:(lia)) as H12.
  pose proof (H 2%nat 2%nat ltac:(lia) ltac:(lia)) as H22.
  cbn [Nat.eqb] in *.
  set (a := at2 R 0 0) in *. set (b := at2 R 0 1) in *. set (c := at2 R 0 2) in *.
  set (d := at2 R 1 0) in *. set (e := at2 R 1 1) in *. set (f := at2 R 1 2) in *.
  set (g := at2 R 2 0) in *. set (h := at2 R 2 1) in *. set (k := at2 R 2 2) in *.
  repeat split.
  - setoid_replace ((p0 * a + p1 * b + p2 * c) * a + (p0 * d + p1 * e + p2 * f) * d
                    + (p0 * g + p1 * h + p2 * k) * g)
      with (p0 * (a * a + d * d + g * g) + p1 * (a * b + d * e + g * h)
            + p2 * (a * c + d * f + g * k)) by ring.
    rewrite H00, H01, H02. ring.
  - setoid_replace ((p0 * a + p1 * b + p2 * c) * b + (p0 * d + p1 * e + p2 * f) * e
                    + (p0 * g + p1 * h + p2 * k) * h)
      with (p0 * (a * b + d * e + g * h) + p1 * (b * b + e * e + h * h)
            + p2 * (b * c + e * f + h * k)) by ring.
    rewrite H01, H11, H12. ring.
  - setoid_replace ((p0 * a + p1 * b + p2 * c) * c + (p0 * d + p1 * e + p2 * f) * f
                    + (p0 * g + p1 * h + p2 * k) * k)
      with (p0 * (a * c + d * f + g * k) + p1 * (b * c + e * f + h * k)
            + p2 * (c * c + f * f + k * k)) by ring.
    rewrite H02, H12, H22. ring.
Qed.

Lemma InverseRotatePoint_undoes_RotatePoint_witness :
  let R := [[3 # 5; - (4 # 5); 0]; [4 # 5; 3 # 5; 0]; [0; 0; 1]] in
  let q := InverseRotatePoint (CalibSeq.RotatePointVec [1; 2; 3] R) R in
  nth 0 q 0 == 1 /\ nth 1 q 0 == 2 /\ nth 2 q 0 == 3 /\ List.length q = 3%nat.
Proof.
  cbv zeta.
  apply (@InverseRotatePoint_undoes_RotatePoint 1 2 3
           [[3 # 5; - (4 # 5); 0]; [4 # 5; 3 # 5; 0]; [0; 0; 1]]).
  intros i j Hi Hj.
  destruct i as [|[|[|i]]]; [| | |lia]; destruct j as [|[|[|j]]]; try lia;
    vm_compute; reflexivity.
Defined.

Lemma Get3DMarkerCorners_gives_positive_depth_witness :
  exists marker3D : list Point3f,
    Calib.Get3DMarkerCorners (Corners Examples.marker3) Examples.depth4x4 4 = Some marker3D /\
    List.length marker3D = List.length (Corners Examples.marker3) /\
    Forall (fun p => 0 < Z_ p) marker3D.
Proof.
  eexists. split; [vm_compute; reflexivity|].
  apply (@Get3DMarkerCorners_gives_positive_depth
           (Corners Examples.marker3) Examples.depth4x4 4).
  - repeat constructor; apply Qle_bool_iff; reflexivity.
  - vm_compute. reflexivity.
Defined.

(* ===================================================================== *)
(** * The point cloud of the capture manager *)
(* ===================================================================== *)

Module OrbbecFacts.
Import Orbbec.

(** The two vectors after the loops: one entry for each pixel, in order. *)
Lemma UpdatePointCloud_vectors p b :
  fst (fst (UpdatePointCloud p b)) = map (fun vu => fst (fst (Pixel p b (fst vu) (snd vu)))) (Pixels b) /\
  snd (fst (UpdatePointCloud p b)) = map (fun vu => snd (fst (Pixel p b (fst vu) (snd vu)))) (Pixels b).
Proof.
  unfold UpdatePointCloud.
  assert (G : forall l vs cs al,
    let r := fold_left (fun st vu =>
               let '(vertices, colors, aligned) := st in
               let '(vertex, color, offer) := Pixel p b (fst vu) (snd vu) in
               (vertices ++ [vertex], colors ++ [color], Offer aligned offer))
            l (vs, cs, al) in
    fst (fst r) = vs ++ map (fun vu => fst (fst (Pixel p b (fst vu) (snd vu)))) l /\
    snd (fst r) = cs ++ map (fun vu => snd (fst (Pixel p b (fst vu) (snd vu)))) l).
  { induction l as [|vu l IH]; intros vs cs al; cbn [fold_left map].
    - cbn. now rewrite !app_nil_r.
    - destruct (Pixel p b (fst vu) (snd vu)) as [[vertex color] offer] eqn:E.
      specialize (IH (vs ++ [vertex]) (cs ++ [color]) (Offer al offer)).
      cbv zeta in IH. destruct IH as [I1 I2]. cbv zeta. rewrite I1, I2.
      cbn [fst snd]. now rewrite <- !app_assoc. }
  apply (G (Pixels b) [] [] (fun _ _ => 0%Z)).
Qed.

Lemma Pixels_length b :
  (0 <= depthFrameWidth b)%Z -> (0 <= depthFrameHeight b)%Z ->
  Z.of_nat (List.length (Pixels b)) = (depthFrameWidth b * depthFrameHeight b)%Z.
Proof.
  intros Hw Hh. unfold Pixels.
  assert (G : forall l : list nat,
    List.length (flat_map (fun v => map (fun u => (Z.of_nat v, Z.of_nat u))
                                        (seq 0 (Z.to_nat (depthFrameWidth b)))) l)
    = (List.length l * Z.to_nat (depthFrameWidth b))%nat).
  { induction l as [|a l IH]; [reflexivity|]. cbn [flat_map List.length].
    rewrite length_app, length_map, length_seq, IH. lia. }
  rewrite G, length_seq. lia.
Qed.

Lemma Pixel_vertex p b v u :
  let '(vertex, color, _) := Pixel p b v u in
  Invalid vertex = false /\
  ((X vertex = 0 /\ Y vertex = 0 /\ Z_ vertex = 0 /\ color = mkRGB 0 0 0)
   \/ 0 < Z_ vertex).
Proof.
  unfold Pixel. cbv zeta.
  destruct (_ =? 0)%Z; [split; [reflexivity|left; auto]|].
  match goal with |- context [Qleb ?z 0] => destruct (Qleb z 0) eqn:E end.
  - split; [reflexivity|left; auto].
  - split; [reflexivity|right]. cbn [Z_]. now apply CalibSeqFacts.Qleb_false.
Qed.

(** [alignedDepthFrame] only depends on the depths that are offered. *)
Lemma UpdatePointCloud_aligned p b :
  snd (UpdatePointCloud p b)
  = fold_left Offer (map (fun vu => snd (Pixel p b (fst vu) (snd vu))) (Pixels b))
              (fun _ _ => 0%Z).
Proof.
  unfold UpdatePointCloud.
  assert (G : forall l vs cs al,
    snd (fold_left (fun st vu =>
               let '(vertices, colors, aligned) := st in
               let '(vertex, color, offer) := Pixel p b (fst vu) (snd vu) in
               (vertices ++ [vertex], colors ++ [color], Offer aligned offer))
            l (vs, cs, al))
    = fold_left Offer (map (fun vu => snd (Pixel p b (fst vu) (snd vu))) l) al).
  { induction l as [|vu l IH]; intros vs cs al; cbn [fold_left map]; [reflexivity|].
    destruct (Pixel p b (fst vu) (snd vu)) as [[vertex color] offer]. cbn [snd].
    apply IH. }
  apply G.
Qed.

Lemma Pixel_offer_positive p b v u r c depth :
  Forall (fun d => (0 <= d)%Z) (depthData b) ->
  snd (Pixel p b v u) = Some (r, c, depth) -> (0 < depth)%Z.
Proof.
  intros Hd. unfold Pixel. cbv zeta.
  set (d0 := at_index 0%Z (depthData b) (v * depthFrameWidth b + u)).
  assert (H0 : (0 <= d0)%Z).
  { unfold d0, at_index. destruct (_ <? 0)%Z; [lia|].
    destruct (nth_in_or_default (Z.to_nat (v * depthFrameWidth b + u)) (depthData b) 0%Z)
      as [Hin | ->]; [|lia].
    rewrite Forall_forall in Hd. now apply Hd. }
  destruct (d0 =? 0)%Z eqn:E; [discriminate|]. apply Z.eqb_neq in E.
  match goal with |- context [Qleb ?z 0] => destruct (Qleb z 0) end; [discriminate|].
  cbn [snd]. destruct (_ && _ && _ && _); [|discriminate].
  intros [= _ _ <-]. lia.
Qed.

(** The depth buffer after a series of offers of positive depths. *)
Lemma fold_Offer offers : forall al,
  Forall (fun o => match o with Some (_, _, d) => (0 < d)%Z | None => True end) offers ->
  (forall r c, (0 <= al r c)%Z) ->
  let final := fold_left Offer offers al in
  forall r c,
    (0 <= final r c)%Z /\
    ((0 < al r c)%Z -> (0 < final r c <= al r c)%Z) /\
    (forall d, In (Some (r, c, d)) offers -> (0 < final r c <= d)%Z) /\
    (final r c = al r c \/ In (Some (r, c, final r c)) offers).
Proof.
  induction offers as [|o offers IH]; intros al Hp Hal; cbn [fold_left].
  - intros r c. split; [apply Hal|]. split; [lia|]. split; [intros d []|now left].
  - inversion Hp as [|? ? Ho Hp']; subst.
    assert (Hal' : forall r c, (0 <= Offer al o r c)%Z).
    { intros r c. unfold Offer. destruct o as [[[ov ou] d]|]; [|apply Hal].
      destruct (_ || _); [|apply Hal].
      destruct (_ && _); [lia|apply Hal]. }
    specialize (IH (Offer al o) Hp' Hal'). cbv zeta in IH. intros r c.
    destruct (IH r c) as (I0 & I1 & I2 & I3).
    assert (Hstep : ((0 < al r c)%Z -> (0 < Offer al o r c <= al r c)%Z) /\
                    (forall d, o = Some (r, c, d) -> (0 < Offer al o r c <= d)%Z) /\
                    (Offer al o r c = al r c \/ o = Some (r, c, Offer al o r c))).
    { unfold Offer. destruct o as [[[ov ou] d0]|].
      - pose proof (Hal ov ou) as Hex.
        destruct ((al ov ou =? 0)%Z || (d0 <? al ov ou)%Z) eqn:E.
        + destruct ((r =? ov) && (c =? ou))%Z eqn:Erc.
          * apply andb_true_iff in Erc as [Er Ec]. apply Z.eqb_eq in Er, Ec. subst ov ou.
            apply orb_true_iff in E. rewrite Z.eqb_eq, Z.ltb_lt in E.
            split; [lia|]. split; [intros d' [= <-]; lia|now right].
          * split; [lia|]. split; [|now left].
            intros d' [= <- <- <-]. rewrite !Z.eqb_refl in Erc. discriminate.
        + apply orb_false_iff in E. rewrite Z.eqb_neq, Z.ltb_ge in E.
          split; [lia|]. split; [|now left].
          intros d' [= <- <- <-]. lia.
      - split; [lia|]. split; [discriminate|now left]. }
    destruct Hstep as (S1 & S2 & S3).
    split; [exact I0|]. split; [|split].
    + intros H. specialize (S1 H). specialize (I1 ltac:(lia)). lia.
    + intros d [-> | Hin].
      * specialize (S2 d eq_refl). specialize (I1 ltac:(lia)). lia.
      * now apply I2.
    + destruct I3 as [I3|I3]; [|right; now right].
      destruct S3 as [S3|S3]; [left; congruence|].
      right. left. rewrite I3. exact S3.
Qed.

End OrbbecFacts.

(** X22. [UpdatePointCloud] appends one vertex and one colour for each
    depth pixel, so both vectors have [depthFrameWidth * depthFrameHeight]
    entries.  Every vertex is valid and is either the zero vertex with the
    colour black (no depth, or a point behind the colour camera), or has a
    positive Z. *)
Theorem UpdatePointCloud_one_vertex_per_depth_pixel
    (p : Orbbec.CameraParam) (b : Orbbec.Buffers) :
  (0 <= Orbbec.depthFrameWidth b)%Z -> (0 <= Orbbec.depthFrameHeight b)%Z ->
  let '(vertices, colors, _) := Orbbec.UpdatePointCloud p b in
  Z.of_nat (List.length vertices) = (Orbbec.depthFrameWidth b * Orbbec.depthFrameHeight b)%Z /\
  List.length colors = List.length vertices /\
  Forall2 (fun vertex color =>
             Invalid vertex = false /\
             ((X vertex = 0 /\ Y vertex = 0 /\ Z_ vertex = 0 /\ color = mkRGB 0 0 0)
              \/ 0 < Z_ vertex))
          vertices colors.
Proof.
  intros Hw Hh. destruct (OrbbecFacts.UpdatePointCloud_vectors p b) as [E1 E2].
  destruct (Orbbec.UpdatePointCloud p b) as [[vertices colors] aligned].
  cbn [fst snd] in E1, E2. subst vertices colors.
  rewrite !length_map. split; [now apply OrbbecFacts.Pixels_length|].
  split; [reflexivity|].
  induction (Orbbec.Pixels b) as [|vu l IH]; cbn [map]; constructor; [|exact IH].
  pose proof (OrbbecFacts.Pixel_vertex p b (fst vu) (snd vu)) as H.
  destruct (Orbbec.Pixel p b (fst vu) (snd vu)) as [[vertex color] offer]. exact H.
Qed.

Lemma UpdatePointCloud_one_vertex_per_depth_pixel_witness :
  let '(vertices, colors, _) :=
    Orbbec.UpdatePointCloud OrbbecExamples.param0 OrbbecExamples.buffers0 in
  Z.of_nat (List.length vertices)
  = (Orbbec.depthFrameWidth OrbbecExamples.buffers0
     * Orbbec.depthFrameHeight OrbbecExamples.buffers0)%Z /\
  List.length colors = List.length vertices /\
  Forall2 (fun vertex color =>
             Invalid vertex = false /\
             ((X vertex = 0 /\ Y vertex = 0 /\ Z_ vertex = 0 /\ color = mkRGB 0 0 0)
              \/ 0 < Z_ vertex))
          vertices colors.
Proof.
  apply (@UpdatePointCloud_one_vertex_per_depth_pixel
           OrbbecExamples.param0 OrbbecExamples.buffers0); vm_compute; discriminate.
Defined.

(** X23. [alignedDepthFrame] keeps the nearest depth: after
    [UpdatePointCloud], a cell holds a depth that is positive and at most
    the depth of every pixel that was projected into it, and a cell that
    is not zero holds the depth of one of the pixels projected into it. *)
Theorem UpdatePointCloud_aligned_depth_is_nearest
    (p : Orbbec.CameraParam) (b : Orbbec.Buffers) (r c : Z) :
  Forall (fun d => (0 <= d)%Z) (Orbbec.depthData b) ->
  let alignedDepthFrame := snd (Orbbec.UpdatePointCloud p b) in
  (forall v u d, In (v, u) (Orbbec.Pixels b) ->
                 snd (Orbbec.Pixel p b v u) = Some (r, c, d) ->
                 (0 < alignedDepthFrame r c <= d)%Z) /\
  (alignedDepthFrame r c <> 0%Z ->
   exists v u, In (v, u) (Orbbec.Pixels b) /\
               snd (Orbbec.Pixel p b v u) = Some (r, c, alignedDepthFrame r c)).
Proof.
  intros Hd. cbv zeta. rewrite OrbbecFacts.UpdatePointCloud_aligned.
  set (offers := map (fun vu => snd (Orbbec.Pixel p b (fst vu) (snd vu))) (Orbbec.Pixels b)).
  assert (Hp : Forall (fun o => match o with
                                | Some (_, _, d) => (0 < d)%Z
                                | None => True
                                end) offers).
  { apply Forall_forall. intros o Ho. apply in_map_iff in Ho as ([v u] & <- & _).
    cbn [fst snd]. destruct (snd (Orbbec.Pixel p b v u)) as [[[r' c'] d]|] eqn:E; [|exact I].
    exact (@OrbbecFacts.Pixel_offer_positive p b v u r' c' d Hd E). }
  destruct (@OrbbecFacts.fold_Offer offers (fun _ _ => 0%Z) Hp ltac:(intros; lia) r c)
    as (_ & _ & A & B).
  split.
  - intros v u d Hin E. apply A. apply in_map_iff. exists (v, u). auto.
  - intros Hne. destruct B as [B|B]; [congruence|].
    apply in_map_iff in B as ([v u] & E & Hin). exists v, u. auto.
Qed.

Lemma UpdatePointCloud_aligned_depth_is_nearest_witness :
  let alignedDepthFrame :=
    snd (Orbbec.UpdatePointCloud OrbbecExamples.param0 OrbbecExamples.buffers0) in
  (forall v u d, In (v, u) (Orbbec.Pixels OrbbecExamples.buffers0) ->
                 snd (Orbbec.Pixel OrbbecExamples.param0 OrbbecExamples.buffers0 v u)
                 = Some (1, 1, d)%Z ->
                 (0 < alignedDepthFrame 1 1 <= d)%Z) /\
  (alignedDepthFrame 1%Z 1%Z <> 0%Z ->
   exists v u, In (v, u) (Orbbec.Pixels OrbbecExamples.buffers0) /\
               snd (Orbbec.Pixel OrbbecExamples.param0 OrbbecExamples.buffers0 v u)
               = Some (1, 1, alignedDepthFrame 1 1)%Z).
Proof.
  apply (@UpdatePointCloud_aligned_depth_is_nearest
           OrbbecExamples.param0 OrbbecExamples.buffers0 1 1).
  repeat constructor; vm_compute; discriminate.
Defined.

(* ===================================================================== *)
(** * From the client to the server *)
(* ===================================================================== *)

Module ServerFrameFacts.
Import ServerFrame Transfer.

Lemma FilterPoints_triples scale (A : Type) (a b c : A -> Q) colors (l : list A) :
  forall i uniquePoints,
  (i + 3 * List.length l <= List.length colors)%nat ->
  exists r, FilterPoints scale (flat_map (fun t => [a t; b t; c t]) l) colors i uniquePoints
            = Some r.
Proof.
  induction l as [|t l IH]; intros i uniq Hl; cbn [flat_map app FilterPoints].
  - eauto.
  - cbn [List.length] in Hl.
    destruct (Wire.OutOfRange (a t) (b t) (c t)); [apply IH; lia|]. cbv zeta.
    destruct (Contains uniq _); [apply IH; lia|].
    destruct (nth_error colors i) as [c0|] eqn:E0;
      [|apply nth_error_None in E0; lia].
    destruct (nth_error colors (i + 1)) as [c1|] eqn:E1;
      [|apply nth_error_None in E1; lia].
    destruct (nth_error colors (i + 2)) as [c2|] eqn:E2;
      [|apply nth_error_None in E2; lia].
    match goal with
    | |- context [FilterPoints scale ?v colors (i + 3) ?u] =>
      destruct (IH (i + 3)%nat u ltac:(lia)) as ([fv fc] & E)
    end.
    rewrite E. eauto.
Qed.

Lemma length_flat_map_3 (A B : Type) (f : A -> list B) (l : list A) :
  (forall x, List.length (f x) = 3%nat) ->
  List.length (flat_map f l) = (3 * List.length l)%nat.
Proof.
  intros H. induction l as [|x l IH]; [reflexivity|].
  cbn [flat_map List.length]. rewrite length_app, H, IH. lia.
Qed.

(** The short of a coordinate, read back in metres. *)
Lemma millimetre_round_trip (f : Q) :
  -32768 < 1000 * f -> 1000 * f < 32768 ->
  let back := inject_Z (to_int16 (Qtrunc (1000 * f))) / 1000 in
  Qabs (back - f) < 1 # 1000 /\ Qabs back <= Qabs f.
Proof.
  intros H1 H2. cbv zeta. unfold Qdiv. change (/ 1000) with (1 # 1000).
  set (q := 1000 * f) in *.
  destruct (Qlt_le_dec q 0) as [Hneg|Hpos].
  - assert (Ht : Qtrunc q = (- Qfloor (- q))%Z).
    { assert (Hq : 0 <= - q) by Lqa.lra.
      rewrite <- (WireFacts.Qtrunc_nonneg Hq).
      destruct q as [n d]. unfold Qtrunc, Qopp. cbn. now rewrite Z.quot_opp_l, Z.opp_involutive by lia. }
    pose proof (Qfloor_le (- q)) as F1. pose proof (Qlt_floor (- q)) as F2.
    rewrite inject_Z_plus in F2. change (inject_Z 1) with 1 in F2.
    assert (Hr : (0 <= Qfloor (- q) <= 32768)%Z).
    { split.
      - change 0%Z with (Qfloor 0). apply Qfloor_resp_le. Lqa.lra.
      - apply Z.lt_succ_r. rewrite Zlt_Qlt. rewrite <- Z.add_1_r, inject_Z_plus.
        change (inject_Z 32768) with 32768. change (inject_Z 1) with 1. Lqa.lra. }
    assert (Hr' : (Qfloor (- q) < 32768)%Z \/ Qfloor (- q) = 32768%Z) by lia.
    destruct Hr' as [Hr'|Hr'].
    2:{ exfalso. rewrite Hr' in F1. change (inject_Z 32768) with 32768 in F1. Lqa.lra. }
    assert (E16 : to_int16 (Qtrunc q) = (- Qfloor (- q))%Z).
    { rewrite Ht. unfold to_int16. Z.div_mod_to_equations. lia. }
    rewrite E16, inject_Z_opp. set (m := inject_Z (Qfloor (- q))) in *.
    assert (Hm : 0 <= m) by (unfold m; change 0 with (inject_Z 0); rewrite <- Zle_Qle; lia).
    split.
    + apply Qabs_Qlt_condition. unfold q in *. split; Lqa.lra.
    + unfold q in *. rewrite (Qabs_neg f) by Lqa.lra. rewrite Qabs_neg; Lqa.lra.
  - rewrite (WireFacts.Qtrunc_nonneg Hpos).
    pose proof (Qfloor_le q) as F1. pose proof (Qlt_floor q) as F2.
    rewrite inject_Z_plus in F2. change (inject_Z 1) with 1 in F2.
    assert (Hr : (0 <= Qfloor q < 32768)%Z).
    { split.
      - change 0%Z with (Qfloor 0). now apply Qfloor_resp_le.
      - rewrite Zlt_Qlt. change (inject_Z 32768) with 32768. Lqa.lra. }
    assert (E16 : to_int16 (Qfloor q) = Qfloor q).
    { unfold to_int16. Z.div_mod_to_equations. lia. }
    rewrite E16. set (m := inject_Z (Qfloor q)) in *.
    assert (Hm : 0 <= m) by (unfold m; change 0 with (inject_Z 0); rewrite <- Zle_Qle; lia).
    split.
    + apply Qabs_Qlt_condition. unfold q in *. split; Lqa.lra.
    + unfold q in *. rewrite (Qabs_pos f) by Lqa.lra. rewrite Qabs_pos; Lqa.lra.
Qed.

Lemma flat_map_seq_nth (A B : Type) (g : A -> list B) (d : A) l :
  flat_map (fun i => g (nth i l d)) (seq 0 (List.length l)) = flat_map g l.
Proof.
  rewrite !flat_map_concat_map.
  now rewrite (TransferFacts.map_seq_nth g d l).
Qed.

End ServerFrameFacts.



(** X25. A frame published by [ProcessFrame] reaches the socket: the
    client passes the common size of its two vectors to the callback, the
    server stores three floats and three colour bytes for each vertex,
    and [SendPointCloud] finds every index it reads and answers the
    request. *)
Theorem published_frame_is_sent
    (KthNeighbourDistance : list Point3f -> Z -> nat -> Q)
    (c : Client.LiveScanClient) (vertices : list Point3f) (colors : list RGB) :
  (Z.of_nat (List.length vertices) < 2 ^ 31)%Z ->
  let '(lastFrameVertices, lastFrameColors) :=
    Client.ProcessFrame (Knn.Filter KthNeighbourDistance) c vertices colors in
  let count := ServerFrame.SendLatestFrame_count lastFrameVertices lastFrameColors in
  count = Z.of_nat (List.length lastFrameVertices) /\
  count = Z.of_nat (List.length lastFrameColors) /\
  let '(FrameVertices, FrameColors) :=
    ServerFrame.LatestFrame lastFrameVertices lastFrameColors (Z.to_nat count) in
  List.length FrameVertices = (3 * List.length lastFrameVertices)%nat /\
  List.length FrameColors = (3 * List.length lastFrameVertices)%nat /\
  exists msg, Transfer.SendPointCloud FrameVertices FrameColors = Some msg.
Proof.
  intros Hn.
  pose proof (ProcessFrameKnn.ProcessFrame_lengths KthNeighbourDistance c vertices colors)
    as [L1 L2]. cbv zeta in L1, L2.
  destruct (Client.ProcessFrame (Knn.Filter KthNeighbourDistance) c vertices colors)
    as [pts cols]. cbn [fst snd] in L1, L2. cbv zeta.
  assert (Ec : ServerFrame.SendLatestFrame_count pts cols = Z.of_nat (List.length pts)).
  { unfold ServerFrame.SendLatestFrame_count. rewrite L1.
    rewrite FrameIOFacts.to_int32_small by lia. now rewrite Z.eqb_refl. }
  rewrite Ec, Nat2Z.id. split; [reflexivity|]. split; [now rewrite L1|].
  unfold ServerFrame.LatestFrame.
  assert (LV : forall n, List.length (flat_map (fun i =>
                 let v := nth i pts (mkPoint3s 0 0 0) in
                 [inject_Z (Xs v) / 1000; inject_Z (Ys v) / 1000; inject_Z (Zs v) / 1000])
                 (seq 0 n)) = (3 * n)%nat).
  { intros n. rewrite ServerFrameFacts.length_flat_map_3 by reflexivity.
    now rewrite length_seq. }
  assert (LC : forall n, List.length (flat_map (fun i =>
                 let c := nth i cols RGB_default in [Red c; Green c; Blue c])
                 (seq 0 n)) = (3 * n)%nat).
  { intros n. rewrite ServerFrameFacts.length_flat_map_3 by reflexivity.
    now rewrite length_seq. }
  split; [apply LV|]. split; [apply LC|].
  unfold Transfer.SendPointCloud. cbv zeta.
  match goal with
  | |- context [Transfer.FilterPoints ?s ?v ?cs 0 []] =>
    destruct (@ServerFrameFacts.FilterPoints_triples s nat
                (fun i => inject_Z (Xs (nth i pts (mkPoint3s 0 0 0))) / 1000)
                (fun i => inject_Z (Ys (nth i pts (mkPoint3s 0 0 0))) / 1000)
                (fun i => inject_Z (Zs (nth i pts (mkPoint3s 0 0 0))) / 1000)
                cs (seq 0 (List.length pts)) 0%nat []) as ([fv fc] & E)
  end.
  { rewrite LC, length_seq. lia. }
  cbv zeta in E |- *. rewrite E. eauto.
Qed.

Lemma published_frame_is_sent_witness :
  let '(lastFrameVertices, lastFrameColors) :=
    Client.ProcessFrame (Knn.Filter (fun _ _ _ => 0)) Examples.client_calibrated
                        Examples.frame12 Examples.colors12 in
  let count := ServerFrame.SendLatestFrame_count lastFrameVertices lastFrameColors in
  count = Z.of_nat (List.length lastFrameVertices) /\
  count = Z.of_nat (List.length lastFrameColors) /\
  let '(FrameVertices, FrameColors) :=
    ServerFrame.LatestFrame lastFrameVertices lastFrameColors (Z.to_nat count) in
  List.length FrameVertices = (3 * List.length lastFrameVertices)%nat /\
  List.length FrameColors = (3 * List.length lastFrameVertices)%nat /\
  exists msg, Transfer.SendPointCloud FrameVertices FrameColors = Some msg.
Proof.
  apply (@published_frame_is_sent (fun _ _ _ => 0) Examples.client_calibrated
           Examples.frame12 Examples.colors12).
  vm_compute. reflexivity.
Defined.

(* ===================================================================== *)
(** * The player's reader on a recording of the client *)
(* ===================================================================== *)

Module PlayerFacts.
Import Stream FrameIO Player.

(** Neither a new line nor a space. *)
Lemma uint_chars d :
  Forall (fun c => Ascii.eqb c newline = false /\ Ascii.eqb c " " = false)
         (list_ascii_of_string (DecimalString.NilEmpty.string_of_uint d)).
Proof.
  induction d; cbn [DecimalString.NilEmpty.string_of_uint list_ascii_of_string];
    constructor; try exact IHd; split; reflexivity.
Qed.

Lemma print_int_chars z :
  Forall (fun c => Ascii.eqb c newline = false /\ Ascii.eqb c " " = false)
         (list_ascii_of_string (print_int z)).
Proof.
  unfold print_int, string_of_Z.
  destruct (Z.to_int z) as [d|d]; cbn [DecimalString.NilZero.string_of_int].
  - destruct d; try apply (uint_chars (_ d)).
    + repeat constructor.
  - cbn [list_ascii_of_string]. constructor; [split; reflexivity|].
    destruct d; try apply (uint_chars (_ d)).
    + repeat constructor.
Qed.

Lemma ReadLine_app w r :
  Forall (fun c => Ascii.eqb c newline = false) w ->
  ReadLine (w ++ newline :: r) = Some (w, r).
Proof.
  induction 1 as [|c w Hc _ IH]; cbn [app ReadLine].
  - now rewrite Ascii.eqb_refl.
  - now rewrite Hc, IH.
Qed.

Lemma Split_no_sep sep w :
  Forall (fun c => Ascii.eqb c sep = false) w -> Split sep w = [w].
Proof.
  induction 1 as [|c w Hc _ IH]; cbn [Split]; [reflexivity|]. now rewrite Hc, IH.
Qed.

Lemma Split_app sep w1 w2 :
  Forall (fun c => Ascii.eqb c sep = false) w1 ->
  Forall (fun c => Ascii.eqb c sep = false) w2 ->
  Split sep (w1 ++ sep :: w2) = [w1; w2].
Proof.
  intros H1 H2. induction H1 as [|c w Hc _ IH]; cbn [app Split].
  - now rewrite Ascii.eqb_refl, (@Split_no_sep sep w2 H2).
  - now rewrite Hc, IH.
Qed.

Lemma Int32_Parse_print z :
  (- 2 ^ 31 <= z < 2 ^ 31)%Z ->
  Int32_Parse (list_ascii_of_string (print_int z)) = Some z.
Proof.
  intros Hz. unfold Int32_Parse.
  destruct (@FrameIOFacts.parse_print_int z [] I) as [P S].
  rewrite app_nil_r in P, S. rewrite S, P. cbn [forallb andb].
  assert (E1 : (- 2 ^ 31 <=? z)%Z = true) by (apply Z.leb_le; lia).
  assert (E2 : (z <? 2 ^ 31)%Z = true) by (apply Z.ltb_lt; lia).
  now rewrite E1, E2.
Qed.

(** A header line of the recording, read and parsed by the player. *)
Lemma header_line (label : list ascii) z r :
  Forall (fun c => Ascii.eqb c newline = false /\ Ascii.eqb c " " = false) label ->
  (- 2 ^ 31 <= z < 2 ^ 31)%Z ->
  exists line,
    ReadLine (label ++ " "%char :: list_ascii_of_string (print_int z) ++ newline :: r)
    = Some (line, r) /\
    nth_error (Split " " line) 1 = Some (list_ascii_of_string (print_int z)).
Proof.
  intros Hl Hz. exists (label ++ " "%char :: list_ascii_of_string (print_int z)).
  pose proof (print_int_chars z) as Hc. split.
  - replace (label ++ " "%char :: list_ascii_of_string (print_int z) ++ newline :: r)
      with ((label ++ " "%char :: list_ascii_of_string (print_int z)) ++ newline :: r)
      by (now rewrite <- app_assoc).
    apply ReadLine_app. apply Forall_app. split.
    + eapply Forall_impl; [|exact Hl]. intros c [H _]. exact H.
    + constructor; [reflexivity|].
      eapply Forall_impl; [|exact Hc]. intros c [H _]. exact H.
  - rewrite Split_app; [reflexivity| |].
    + eapply Forall_impl; [|exact Hl]. intros c [_ H]. exact H.
    + eapply Forall_impl; [|exact Hc]. intros c [_ H]. exact H.
Qed.

Lemma to_int32_range z : (- 2 ^ 31 <= to_int32 z < 2 ^ 31)%Z.
Proof.
  unfold to_int32. pose proof (Z.mod_pos_bound (z + 2 ^ 31) (2 ^ 32) ltac:(lia)). lia.
Qed.

Lemma length_bytes_of_points points :
  List.length (flat_map bytes_of_Point3s points) = (6 * List.length points)%nat.
Proof.
  induction points as [|p l IH]; [reflexivity|].
  cbn [flat_map List.length]. rewrite length_app, IH. cbn. lia.
Qed.

Lemma length_bytes_of_colors colors :
  List.length (flat_map bytes_of_RGB colors) = (3 * List.length colors)%nat.
Proof.
  induction colors as [|p l IH]; [reflexivity|].
  cbn [flat_map List.length]. rewrite length_app, IH. cbn. lia.
Qed.

Lemma ReadFrame_rewinds_for_ever points colors timestamp :
  WellFormed points colors -> (2 <= List.length points)%nat ->
  let file := WriteFrame points colors timestamp in
  forall fuel vertices cols idx, ReadFrame fuel file file vertices cols idx = Unfinished.
Proof.
  intros (Hl & Hn & _ & _) H2. cbv zeta.
  assert (Hfile : exists c l, WriteFrame points colors timestamp = c :: l).
  { unfold WriteFrame. cbn [list_ascii_of_string app]. eauto. }
  destruct Hfile as (c0 & l0 & Hfile).
  induction fuel as [|fuel IH]; intros vertices cols idx; [reflexivity|].
  cbn [ReadFrame].
  replace (match WriteFrame points colors timestamp with
           | [] => (WriteFrame points colors timestamp, 0%Z)
           | _ :: _ => (WriteFrame points colors timestamp, idx)
           end)
    with (WriteFrame points colors timestamp, idx) by (rewrite Hfile; reflexivity).
  unfold WriteFrame at 1.
  rewrite FrameIOFacts.to_int32_small by lia.
  change (list_ascii_of_string "n_points= ")
    with (list_ascii_of_string "n_points=" ++ [" "%char]).
  change (list_ascii_of_string "frame_timestamp= ")
    with (list_ascii_of_string "frame_timestamp=" ++ [" "%char]).
  rewrite <- !app_assoc. cbn [app].
  match goal with
  | |- context [ReadLine (?lab ++ " "%char :: ?s ++ newline :: ?r)] =>
    destruct (@header_line lab (Z.of_nat (List.length points)) r) as (line1 & R1 & S1);
      [repeat constructor|lia|]
  end.
  rewrite R1, S1. rewrite Int32_Parse_print by lia.
  match goal with
  | |- context [ReadLine (?lab ++ " "%char :: ?s ++ newline :: ?r)] =>
    destruct (@header_line lab (to_int32 timestamp) r) as (line2 & R2 & S2);
      [repeat constructor|apply to_int32_range|]
  end.
  rewrite R2, S2. rewrite Int32_Parse_print by apply to_int32_range.
  assert (E0 : (Z.of_nat (List.length points) <? 0)%Z = false) by (apply Z.ltb_ge; lia).
  assert (E1 : (0 <? Z.of_nat (List.length points))%Z = true) by (apply Z.ltb_lt; lia).
  rewrite E0, E1, Nat2Z.id. rewrite firstn_all.
  replace (firstn (List.length points) colors) with colors
    by (rewrite <- Hl; symmetry; apply firstn_all).
  match goal with
  | |- context [firstn ?k ?r] =>
    assert (Lr : List.length r = (9 * List.length points + 1)%nat)
  end.
  { rewrite !length_app, length_bytes_of_points, length_bytes_of_colors, Hl. cbn. lia. }
  rewrite length_firstn, Lr. unfold bytesPerPoint, bytesPerVertexPoint, bytesPerColorPoint.
  assert (E2 : (Nat.min ((6 + 4) * List.length points) (9 * List.length points + 1)
                <? (6 + 4) * List.length points)%nat = true)
    by (apply Nat.ltb_lt; lia).
  rewrite E2. apply IH.
Qed.

End PlayerFacts.

(** X26. The player reads 10 bytes for each point of a frame (three
    shorts and four colour bytes); [WriteFrame] of the client writes 9
    (three shorts and the three bytes of an [RGB]).  On a recording that
    holds one frame of two or more points, [ReadFrame] of the player finds
    the frame incomplete, rewinds and calls itself again, without end:
    however many nested calls are allowed, it does not return. *)
Theorem player_ReadFrame_never_returns_on_a_recorded_frame
    (points : list Point3s) (colors : list RGB) (timestamp : Z)
    (fuel : nat) (vertices : list Q) (cols : list Z) (currentFrameIdx : Z) :
  FrameIO.WellFormed points colors -> (2 <= List.length points)%nat ->
  let file := FrameIO.WriteFrame points colors timestamp in
  Player.ReadFrame fuel file file vertices cols currentFrameIdx = Player.Unfinished.
Proof.
  intros H1 H2. apply PlayerFacts.ReadFrame_rewinds_for_ever; assumption.
Qed.

Lemma player_ReadFrame_never_returns_on_a_recorded_frame_witness :
  let file := FrameIO.WriteFrame [mkPoint3s 1 2 3; mkPoint3s (-4) 5 600]
                                 [mkRGB 10 20 30; mkRGB 40 50 60] 1234 in
  Player.ReadFrame 50 file file [] [] 0 = Player.Unfinished.
Proof.
  apply (@player_ReadFrame_never_returns_on_a_recorded_frame
           [mkPoint3s 1 2 3; mkPoint3s (-4) 5 600]
           [mkRGB 10 20 30; mkRGB 40 50 60] 1234 50 [] [] 0).
  - unfold FrameIO.WellFormed, FrameIO.short_range, FrameIO.byte_range.
    split; [reflexivity|]. split; [cbn; lia|]. split; repeat constructor; cbn; lia.
  - cbn. lia.
Defined.

(* ===================================================================== *)
(** * The pose update of RefineCameraPoses *)
(* ===================================================================== *)

(** X27. The rotation [RefineCameraPoses] stores is computed in place:
    each entry is stored before the next one is computed, so the rows
    after the first are computed from rows that were already overwritten.
    The first row is the row of the product of the ICP rotation
    (transposed) and the old rotation; row 1 is the row of the product
    plus [Rs[1]] times the change of row 0, and row 2 is the row of the
    product plus [Rs[2]] times the change of row 0 plus [Rs[5]] times the
    change of row 1. *)
Theorem RefineCameraPoses_rotation_uses_overwritten_rows
    (Rs : list Q) (worldR : list (list Q)) (k : nat) :
  (k < 3)%nat ->
  let R' := Refine.RotationUpdate Rs worldR in
  at2 R' 0 k == Refine.Product Rs worldR 0 k /\
  at2 R' 1 k == Refine.Product Rs worldR 1 k
                + nth 1 Rs 0 * (at2 R' 0 k - at2 worldR 0 k) /\
  at2 R' 2 k == Refine.Product Rs worldR 2 k
                + nth 2 Rs 0 * (at2 R' 0 k - at2 worldR 0 k)
                + nth 5 Rs 0 * (at2 R' 1 k - at2 worldR 1 k).
Proof.
  intros Hk. cbv zeta. unfold Refine.Product.
  destruct k as [|[|[|k]]]; [| | |lia];
    unfold Refine.RotationUpdate, Refine.set2, at2;
    cbn [fold_left map nth Nat.eqb andb Nat.mul Nat.add];
    repeat split; ring.
Qed.

Lemma RefineCameraPoses_rotation_uses_overwritten_rows_witness :
  let Rs := [0; - (1); 0; 1; 0; 0; 0; 0; 1] in
  let R' := Refine.RotationUpdate Rs identity3 in
  (at2 R' 0 0 == Refine.Product Rs identity3 0 0 /\
   at2 R' 1 0 == Refine.Product Rs identity3 1 0
                 + nth 1 Rs 0 * (at2 R' 0 0 - at2 identity3 0 0) /\
   at2 R' 2 0 == Refine.Product Rs identity3 2 0
                 + nth 2 Rs 0 * (at2 R' 0 0 - at2 identity3 0 0)
                 + nth 5 Rs 0 * (at2 R' 1 0 - at2 identity3 1 0)) /\
  Refine.Product Rs identity3 1 0 == - (1) /\ at2 R' 1 0 == 0 /\ at2 R' 1 1 == - (1).
Proof.
  cbv zeta. split.
  - apply (@RefineCameraPoses_rotation_uses_overwritten_rows
             [0; - (1); 0; 1; 0; 0; 0; 0; 1] identity3 0). lia.
  - repeat split; vm_compute; reflexivity.
Defined.

(* ===================================================================== *)
(** * The correspondences of ICP *)
(* ===================================================================== *)

Module ICPFacts.
Import ICP.

Local Open Scope R_scope.

Lemma fold_Rplus_repeat d n : forall acc, fold_left Rplus (repeat d n) acc = acc + INR n * d.
Proof.
  induction n as [|n IH]; intros acc.
  - cbn. Lra.lra.
  - cbn [repeat fold_left]. rewrite IH, S_INR. Lra.lra.
Qed.

Lemma fold_variance_repeat d n : forall acc,
  fold_left (fun acc value => acc + (value - d) * (value - d)) (repeat d n) acc = acc.
Proof.
  induction n as [|n IH]; intros acc; [reflexivity|].
  cbn [repeat fold_left]. rewrite IH. Lra.lra.
Qed.

Lemma GetStandardDeviation_repeat d n : GetStandardDeviation (repeat d n) = 0.
Proof.
  destruct n as [|n]; [reflexivity|].
  unfold GetStandardDeviation. change (repeat d (S n)) with (d :: repeat d n) at 1.
  cbv zeta. rewrite repeat_length.
  assert (Hn : INR (S n) <> 0) by (apply not_0_INR; discriminate).
  assert (Em : fold_left Rplus (repeat d (S n)) 0 / INR (S n) = d).
  { rewrite fold_Rplus_repeat. field. exact Hn. }
  rewrite Em, fold_variance_repeat.
  unfold Rdiv. rewrite Rmult_0_l. apply sqrt_0.
Qed.

Local Close Scope R_scope.

Lemma assign_length (A : Type) (l : list A) : forall i a,
  List.length (Knn.assign l i a) = List.length l.
Proof.
  induction l as [|x l IH]; intros [|i] a; cbn; auto.
Qed.

Lemma nth_assign (A : Type) (l : list A) : forall i a j d,
  (i < List.length l)%nat ->
  nth j (Knn.assign l i a) d = if (j =? i)%nat then a else nth j l d.
Proof.
  induction l as [|x l IH]; intros i a j d Hi; cbn in Hi; [lia|].
  destruct i as [|i], j as [|j]; cbn; try reflexivity.
  apply IH. lia.
Qed.

Lemma nth_assign_other (A : Type) (l : list A) : forall i a j d,
  j <> i -> nth j (Knn.assign l i a) d = nth j l d.
Proof.
  induction l as [|x l IH]; intros i a j d Hne; [now destruct i|].
  destruct i as [|i], j as [|j]; cbn; try reflexivity; try congruence.
  apply IH. congruence.
Qed.

Lemma nth_snoc (A : Type) (l : list A) a d : nth (List.length l) (l ++ [a]) d = a.
Proof.
  rewrite app_nth2 by lia. now rewrite Nat.sub_diag.
Qed.

Lemma Qltb_true a b : Qltb a b = true -> a < b.
Proof.
  unfold Qltb. rewrite negb_true_iff. intros H. apply Qnot_le_lt. intros L.
  apply Qle_bool_iff in L. congruence.
Qed.

Section Match.
Variables (targetVerts sourceVerts : list Point3f) (indices : list nat) (distances : list Q).

Lemma MatchInv_start :
  MatchInv targetVerts sourceVerts indices distances 0
           ([], [], [], repeat (-1)%Z (List.length targetVerts)).
Proof.
  unfold MatchInv. rewrite repeat_length.
  repeat split; try reflexivity.
  - intros t Ht. left. now apply nth_repeat_lt.
  - intros t t' Ht Ht' _ H. rewrite nth_repeat_lt in H by exact Ht. congruence.
  - intros i Hi. lia.
Qed.

Lemma MatchInv_step k st :
  (nth k indices 0 < List.length targetVerts)%nat ->
  MatchInv targetVerts sourceVerts indices distances k st ->
  MatchInv targetVerts sourceVerts indices distances (S k)
           (MatchStep targetVerts sourceVerts indices distances st k).
Proof.
  destruct st as [[[mt ms] md] mm]. intros Ht0 (L1 & L2 & L3 & B & C & E).
  unfold MatchStep.
  set (t0 := nth k indices 0%nat) in *.
  set (cur := nth k distances 0).
  destruct (B t0 Ht0) as [Hex|(p0 & Hex & Hp0 & Hmt0 & i0 & Hi0 & Hind0 & Hmd0 & Hms0)].
  - (* the target has no match yet *)
    rewrite Hex. change (-1 =? -1)%Z with true. cbn [negb andb]. cbv iota.
    rewrite length_app. cbn [List.length].
    replace (Z.of_nat (List.length ms + 1) - 1)%Z with (Z.of_nat (List.length md)) by lia.
    unfold MatchInv. cbv beta iota. rewrite !length_app, assign_length. cbn [List.length].
    split; [lia|]. split; [lia|]. split; [exact L3|].
    assert (Hnew : forall t, nth t (Knn.assign mm t0 (Z.of_nat (List.length md))) (-1)%Z
                             = if (t =? t0)%nat then Z.of_nat (List.length md)
                               else nth t mm (-1)%Z).
    { intros t. apply nth_assign. lia. }
    split; [|split].
    + intros t Ht. rewrite Hnew. destruct (t =? t0)%nat eqn:Et.
      * apply Nat.eqb_eq in Et. subst t. right. exists (List.length md).
        split; [reflexivity|]. split; [lia|]. split.
        { rewrite <- L1. apply nth_snoc. }
        exists k. split; [lia|]. split; [reflexivity|]. split.
        { apply nth_snoc. }
        { rewrite <- L2. apply nth_snoc. }
      * destruct (B t Ht) as [H|(p & H & Hp & Hmt & i' & Hi' & Hind & Hmd & Hms)];
          [now left|].
        right. exists p. split; [exact H|]. split; [lia|].
        split; [rewrite app_nth1 by lia; exact Hmt|].
        exists i'. split; [lia|]. split; [exact Hind|].
        split; rewrite app_nth1 by lia; assumption.
    + intros t t' Ht Ht'. rewrite !Hnew.
      destruct (t =? t0)%nat eqn:Et, (t' =? t0)%nat eqn:Et'.
      * apply Nat.eqb_eq in Et, Et'. congruence.
      * intros H _. exfalso.
        destruct (B t' Ht') as [H'|(p & H' & Hp & _)]; rewrite H' in H; lia.
      * intros H _. exfalso.
        destruct (B t Ht) as [H'|(p & H' & Hp & _)]; rewrite H' in H; lia.
      * apply C; assumption.
    + intros i Hi. destruct (Nat.eq_dec i k) as [->|Hne].
      * exists (List.length md). fold t0. rewrite Hnew, Nat.eqb_refl.
        split; [reflexivity|]. split; [lia|]. rewrite nth_snoc. apply Qle_refl.
      * destruct (E i ltac:(lia)) as (p & H & Hp & Hle). exists p.
        rewrite nth_assign_other; [|intros Heq; rewrite Heq, Hex in H; lia].
        split; [exact H|]. split; [lia|]. now rewrite app_nth1 by lia.
  - (* the target has a match at [p0] *)
    rewrite Hex, Nat2Z.id.
    assert (Ene : (Z.of_nat p0 =? -1)%Z = false) by (apply Z.eqb_neq; lia).
    rewrite Ene. cbn [negb andb].
    destruct (Qltb (nth p0 md 0) cur) eqn:Elt.
    + (* the old match is closer: nothing changes *)
      unfold MatchInv. cbv beta iota. split; [exact L1|]. split; [exact L2|]. split; [exact L3|].
      split; [|split; [exact C|]].
      * intros t Ht.
        destruct (B t Ht) as [H|(p & H & Hp & Hmt & i' & Hi' & Hind & Hmd & Hms)];
          [now left|].
        right. exists p. split; [exact H|]. split; [exact Hp|]. split; [exact Hmt|].
        exists i'. split; [lia|]. auto.
      * intros i Hi. destruct (Nat.eq_dec i k) as [->|Hne].
        -- exists p0. fold t0. split; [exact Hex|]. split; [exact Hp0|].
           apply Qlt_le_weak. now apply Qltb_true.
        -- apply E. lia.
    + (* the new source point is at least as close: it replaces the old one *)
      apply WireFacts.Qltb_false in Elt.
      unfold MatchInv. cbv beta iota. rewrite !assign_length.
      split; [exact L1|]. split; [exact L2|]. split; [exact L3|].
      split; [|split; [exact C|]].
      * intros t Ht.
        destruct (B t Ht) as [H|(p & H & Hp & Hmt & i' & Hi' & Hind & Hmd & Hms)];
          [now left|].
        right. exists p. split; [exact H|]. split; [exact Hp|]. split; [exact Hmt|].
        destruct (Nat.eq_dec p p0) as [->|Hne].
        -- assert (Et : t = t0) by (apply C; [exact Ht|exact Ht0|congruence|lia]).
           exists k. split; [lia|]. split; [symmetry; exact Et|].
           rewrite !nth_assign by lia. now rewrite Nat.eqb_refl.
        -- exists i'. split; [lia|]. split; [exact Hind|].
           rewrite !nth_assign_other by exact Hne. auto.
      * intros i Hi. destruct (Nat.eq_dec i k) as [->|Hne].
        -- exists p0. fold t0. split; [exact Hex|]. split; [exact Hp0|].
           rewrite nth_assign by exact Hp0. rewrite Nat.eqb_refl. apply Qle_refl.
        -- destruct (E i ltac:(lia)) as (p & H & Hp & Hle). exists p.
           split; [exact H|]. split; [exact Hp|].
           destruct (Nat.eq_dec p p0) as [->|Hnp].
           ++ rewrite nth_assign by exact Hp0. rewrite Nat.eqb_refl.
              eapply Qle_trans; [exact Elt|exact Hle].
           ++ now rewrite nth_assign_other by exact Hnp.
Qed.

Lemma MatchInv_fold m : forall k st,
  (forall i, (k <= i < k + m)%nat -> (nth i indices 0 < List.length targetVerts)%nat) ->
  MatchInv targetVerts sourceVerts indices distances k st ->
  MatchInv targetVerts sourceVerts indices distances (k + m)
           (fold_left (MatchStep targetVerts sourceVerts indices distances) (seq k m) st).
Proof.
  induction m as [|m IH]; intros k st Hidx H; cbn [seq fold_left].
  - now rewrite Nat.add_0_r.
  - replace (k + S m)%nat with (S k + m)%nat by lia. apply IH.
    + intros i Hi. apply Hidx. lia.
    + apply MatchInv_step; [apply Hidx; lia|exact H].
Qed.

End Match.

End ICPFacts.

(** X28. [RejectOutlierMatches] compares each distance with
    [maxStdDev] times the standard deviation, not with a distance from
    the mean: when all matches have the same non-zero distance (a single
    match, for one), the standard deviation is 0 and every match is
    rejected. *)
Theorem RejectOutlierMatches_rejects_equal_distances
    (matches1 matches2 : list Point3f) (d maxStdDev : R) :
  (0 < d)%R ->
  ICP.RejectOutlierMatches matches1 matches2 (repeat d (List.length matches1)) maxStdDev
  = ([], []).
Proof.
  intros Hd. unfold ICP.RejectOutlierMatches. cbv zeta.
  rewrite ICPFacts.GetStandardDeviation_repeat, Rmult_0_r.
  assert (E : filter (fun i => if Rgt_dec (nth i (repeat d (List.length matches1)) 0%R) 0
                               then false else true)
                     (seq 0 (List.length matches1)) = []).
  { assert (G : forall l, Forall (fun i => (i < List.length matches1)%nat) l ->
              filter (fun i => if Rgt_dec (nth i (repeat d (List.length matches1)) 0%R) 0
                               then false else true) l = []).
    { induction 1 as [|i l Hi _ IH]; [reflexivity|]. cbn [filter].
      rewrite (@nth_repeat_lt _ d (List.length matches1) i 0%R Hi).
      destruct (Rgt_dec d 0) as [_|Hn]; [exact IH|]. exfalso. apply Hn. exact Hd. }
    apply G. apply Forall_forall. intros i Hi. apply in_seq in Hi. lia. }
  rewrite E. reflexivity.
Qed.

Lemma RejectOutlierMatches_rejects_equal_distances_witness :
  ICP.RejectOutlierMatches [mkPoint3f 1 2 3 false] [mkPoint3f 1 2 (7 # 2) false]
                           (repeat (1 / 4)%R 1) (5 / 2)%R
  = ([], []).
Proof.
  apply (@RejectOutlierMatches_rejects_equal_distances
           [mkPoint3f 1 2 3 false] [mkPoint3f 1 2 (7 # 2) false] (1 / 4)%R (5 / 2)%R).
  Lra.lra.
Defined.

(** X29. The loop of [ICP] that pairs source and target points keeps one
    match for each target point, the nearest: after the loop the three
    vectors of matches have the same length, two different target points
    never share a match, and for every source point the target point
    that the search returned for it is matched, to a source point that
    has the same nearest target and is at least as near. *)
Theorem ICP_keeps_the_nearest_source_of_each_target
    (targetVerts sourceVerts : list Point3f) (indices : list nat) (distances : list Q) :
  (forall i, (i < List.length sourceVerts)%nat ->
             (nth i indices 0 < List.length targetVerts)%nat) ->
  let '(matchedTargetVerts, matchedSourceVerts, matchDistances, matchMap) :=
    ICP.MatchLoop targetVerts sourceVerts indices distances in
  List.length matchedTargetVerts = List.length matchDistances /\
  List.length matchedSourceVerts = List.length matchDistances /\
  (forall t t', (t < List.length targetVerts)%nat -> (t' < List.length targetVerts)%nat ->
     nth t matchMap (-1)%Z = nth t' matchMap (-1)%Z ->
     nth t matchMap (-1)%Z <> (-1)%Z -> t = t') /\
  (forall i, (i < List.length sourceVerts)%nat ->
     exists (p i' : nat),
       nth (nth i indices 0%nat) matchMap (-1)%Z = Z.of_nat p /\
       (p < List.length matchDistances)%nat /\
       nth p matchedTargetVerts Point3f_default
       = nth (nth i indices 0%nat) targetVerts Point3f_default /\
       (i' < List.length sourceVerts)%nat /\
       nth i' indices 0%nat = nth i indices 0%nat /\
       nth p matchedSourceVerts Point3f_default = ICP.queryPoint sourceVerts i' /\
       nth p matchDistances 0 = nth i' distances 0 /\
       nth p matchDistances 0 <= nth i distances 0).
Proof.
  intros Hidx. unfold ICP.MatchLoop.
  pose proof (@ICPFacts.MatchInv_fold targetVerts sourceVerts indices distances
                (List.length sourceVerts) 0%nat _
                ltac:(intros i Hi; apply Hidx; lia)
                (ICPFacts.MatchInv_start targetVerts sourceVerts indices distances)) as H.
  cbn [Nat.add] in H.
  destruct (fold_left _ _ _) as [[[mt ms] md] mm].
  destruct H as (L1 & L2 & L3 & B & C & E).
  split; [exact L1|]. split; [exact L2|]. split; [exact C|].
  intros i Hi. destruct (E i Hi) as (p & Hp & Hlt & Hle).
  destruct (B (nth i indices 0%nat) (Hidx i Hi))
    as [H|(p' & H & Hp' & Hmt & i' & Hi' & Hind & Hmd & Hms)]; [rewrite H in Hp; lia|].
  assert (p' = p) by lia. subst p'.
  exists p, i'. auto 10.
Qed.

Lemma ICP_keeps_the_nearest_source_of_each_target_witness :
  let targetVerts := [mkPoint3f 0 0 0 false; mkPoint3f 1 0 0 false] in
  let sourceVerts := [mkPoint3f (1 # 10) 0 0 false; mkPoint3f (9 # 10) 0 0 false;
                      mkPoint3f 0 (1 # 20) 0 false] in
  let '(matchedTargetVerts, matchedSourceVerts, matchDistances, matchMap) :=
    ICP.MatchLoop targetVerts sourceVerts [0; 1; 0]%nat [1 # 100; 1 # 100; 1 # 400] in
  matchedSourceVerts = [mkPoint3f 0 (1 # 20) 0 false; mkPoint3f (9 # 10) 0 0 false] /\
  List.length matchedTargetVerts = List.length matchDistances /\
  List.length matchedSourceVerts = List.length matchDistances.
Proof.
  cbv zeta.
  pose proof (@ICP_keeps_the_nearest_source_of_each_target
                [mkPoint3f 0 0 0 false; mkPoint3f 1 0 0 false]
                [mkPoint3f (1 # 10) 0 0 false; mkPoint3f (9 # 10) 0 0 false;
                 mkPoint3f 0 (1 # 20) 0 false]
                [0; 1; 0]%nat [1 # 100; 1 # 100; 1 # 400]) as H.
  assert (Hidx : forall i, (i < 3)%nat -> (nth i [0; 1; 0]%nat 0 < 2)%nat).
  { intros [|[|[|i]]] Hi; cbn; lia. }
  specialize (H Hidx).
  destruct (ICP.MatchLoop _ _ _ _) as [[[mt ms] md] mm] eqn:E.
  destruct H as (L1 & L2 & _).
  split; [|split; assumption].
  vm_compute in E. now injection E as _ <- _ _.
Defined.

(* ===================================================================== *)
(** * The pattern of a marker code *)
(* ===================================================================== *)

Module MarkerCodeFacts.
Import Marker MarkerCode.

(** Nine cells that are accepted are the pattern of their code. *)
Lemma accepted_cells_are_the_pattern b0 b1 b2 b3 b4 b5 b6 b7 b8 :
  let bit (b : bool) := if b then 0%Z else 1%Z in
  let vals := [bit b0; bit b1; bit b2; bit b3; bit b4; bit b5; bit b6; bit b7; bit b8] in
  (0 <= DecodeCells vals)%Z -> vals = PatternOfCode (DecodeCells vals).
Proof.
  destruct b0, b1, b2, b3, b4, b5, b6, b7, b8; cbv zeta; intros H;
    try reflexivity; exfalso; vm_compute in H; apply H; reflexivity.
Qed.

Lemma GetCode_of_pattern code :
  (0 <= code <= 15)%Z -> GetCode (PatchOfCells (PatternOfCode code)) = code.
Proof.
  intros H.
  assert (C : (code = 0 \/ code = 1 \/ code = 2 \/ code = 3 \/ code = 4 \/ code = 5 \/
               code = 6 \/ code = 7 \/ code = 8 \/ code = 9 \/ code = 10 \/ code = 11 \/
               code = 12 \/ code = 13 \/ code = 14 \/ code = 15)%Z) by lia.
  repeat (destruct C as [-> | C]; [vm_compute; reflexivity|]).
  subst code. vm_compute. reflexivity.
Qed.

End MarkerCodeFacts.

(** X30. Each of the sixteen codes has exactly one pattern.  For every
    code from 0 to 15 the patch with the pattern of the code is decoded
    by [GetCode] to that code, and a patch that [GetCode] accepts has the
    cells of the pattern of the code it returns: two patches with the
    same code read the same nine cells. *)
Theorem GetCode_pattern_of_a_code_is_unique (code : Z) (img2 : Z -> Z -> Z) :
  ((0 <= code <= 15)%Z ->
   Marker.GetCode (Marker.PatchOfCells (MarkerCode.PatternOfCode code)) = code) /\
  ((0 <= Marker.GetCode img2)%Z ->
   Marker.ReadCells (Marker.Integral img2) Marker.WarpedSize Marker.WarpedSize
   = MarkerCode.PatternOfCode (Marker.GetCode img2)).
Proof.
  split; [apply MarkerCodeFacts.GetCode_of_pattern|].
  unfold Marker.GetCode.
  destruct (MarkerFacts.ReadCells_bits (Marker.Integral img2)
              Marker.WarpedSize Marker.WarpedSize)
    as (b0 & b1 & b2 & b3 & b4 & b5 & b6 & b7 & b8 & E).
  cbv zeta in E. rewrite E.
  apply MarkerCodeFacts.accepted_cells_are_the_pattern.
Qed.

Lemma GetCode_pattern_of_a_code_is_unique_witness :
  Marker.GetCode (Marker.PatchOfCells (MarkerCode.PatternOfCode 11)) = 11%Z /\
  Marker.ReadCells (Marker.Integral (Marker.PatchOfCells [1; 0; 1; 1; 0; 1; 0; 0; 0]%Z))
                   Marker.WarpedSize Marker.WarpedSize
  = MarkerCode.PatternOfCode
      (Marker.GetCode (Marker.PatchOfCells [1; 0; 1; 1; 0; 1; 0; 0; 0]%Z)).
Proof.
  destruct (@GetCode_pattern_of_a_code_is_unique
              11 (Marker.PatchOfCells [1; 0; 1; 1; 0; 1; 0; 0; 0]%Z)) as [A B].
  split; [apply A; lia|apply B; vm_compute; discriminate].
Defined.
